(** * imgui-react-runtime: the native host of the scripting runtime

    A shallow embedding of [lib/imgui-runtime/imgui-runtime.cpp] and
    [lib/imgui-runtime/MappedFileBuffer.cpp].

    - C++ [double] values are IEEE-754 binary64 numbers, modelled with the
      Standard Library's axiom-free [spec_float] (precision 53, emax 1024).
    - [size_t] arithmetic is arithmetic on [Z] with the wrap-around modulo
      [2^64] written out; [int] is a [Z] in [INT_MIN .. INT_MAX].
    - A JavaScript object used as a property bag is a [gmap string jsvalue].
    - The host functions run in a small monad [M] over a [world]: the VM,
      the file-scope statics of imgui-runtime.cpp, the environment (clock,
      window, files) and the trace of the calls made so far.  A computation
      ends by returning, by throwing a C++ exception, or by stopping the
      process ([abort()], [exit(n)]).
    - What scripts do when they are called is not fixed by the host: it is
      a parameter ([script]) of the whole development. *)

From Stdlib Require Import ZArith Lia String List Bool.
From Stdlib Require Import Floats.SpecFloat.
From stdpp Require Import base gmap strings list.

#[local] Set Warnings "-register-all".
#[local] Open Scope string_scope.
#[local] Open Scope Z_scope.

(* ================================================================= *)
(** ** Machine numbers *)

(** [double]: IEEE-754 binary64. *)
Definition double := spec_float.
Definition prec : Z := 53.
Definition emax : Z := 1024.

(** [static_cast<double>(n)] for an integer [n] (round to nearest even). *)
Definition double_of_Z (n : Z) : double := binary_normalize prec emax n 0 false.

(** The comparison operators of C++ on doubles: every comparison with a NaN
    operand is false. *)
Definition dlt (a b : double) : bool := SFltb a b.
Definition dle (a b : double) : bool := SFleb a b.
Definition dgt (a b : double) : bool := SFltb b a.
Definition dge (a b : double) : bool := SFleb b a.

Definition dadd : double -> double -> double := SFadd prec emax.
Definition dsub : double -> double -> double := SFsub prec emax.
Definition dmul : double -> double -> double := SFmul prec emax.
Definition ddiv : double -> double -> double := SFdiv prec emax.

Definition dzero : double := S754_zero false.
Definition d_one : double := double_of_Z 1.

(** [std::isfinite]. *)
Definition isfinite (d : double) : bool :=
  match d with
  | S754_zero _ | S754_finite _ _ _ => true
  | S754_infinity _ | S754_nan => false
  end.

(** The integer part of a finite double, rounding toward zero: what
    [static_cast<int>(value)] yields when that integer fits in an [int]. *)
Definition trunc_to_Z (d : double) : Z :=
  match d with
  | S754_finite s m e =>
      let a := match e with
               | Z0 => Zpos m
               | Zpos k => Z.shiftl (Zpos m) (Zpos k)
               | Zneg k => Z.shiftr (Zpos m) (Zpos k)
               end in
      if s then - a else a
  | _ => 0
  end.

(** [float]: IEEE-754 binary32, and its two conversions.  A [float] is a
    [double] exactly; as a [spec_float] it has another normal form. *)
Definition float := spec_float.
Definition float_of_Z (n : Z) : float := binary_normalize 24 128 n 0 false.
Definition double_of_float (f : float) : double :=
  match f with
  | S754_finite s m e => binary_normalize prec emax (if s then Zneg m else Zpos m) e false
  | _ => f
  end.

Definition INT_MAX : Z := 2147483647.
Definition INT_MIN : Z := -2147483648.

(** [size_t] is 64 bits wide; a conversion to it wraps modulo [2^64]. *)
Definition SIZE_WIDTH : Z := 64.
Definition to_size_t (z : Z) : Z := z mod 2 ^ SIZE_WIDTH.

(** [long] and [off_t] are signed 64-bit integers. *)
Definition LONG_MAX : Z := 2 ^ 63 - 1.

(* ================================================================= *)
(** ** MappedFileBuffer.cpp: the sizes of a mapping *)

(** [((fileSize_ + pageSize - 1) / pageSize) * pageSize], computed in
    [size_t]: [pageSize] (a [long]) is converted to [size_t] and every
    operation wraps.  The page size is what [sysconf(_SC_PAGESIZE)] gives,
    a positive number: at a page size of zero the division of the code is
    undefined, and the zero that [Z]'s division gives here stands for
    nothing; what is proved of the sizes assumes a positive page size. *)
Definition mappedSize_of (fileSize_ pageSize : Z) : Z :=
  let p := to_size_t pageSize in
  to_size_t (to_size_t (to_size_t (fileSize_ + p) - 1) / p * p).

(** [attemptTrailingZero && fileSize_ % pageSize != 0 ? fileSize_ + 1 : fileSize_]. *)
Definition size_of (fileSize_ pageSize : Z) (attemptTrailingZero : bool) : Z :=
  if attemptTrailingZero && negb (fileSize_ mod to_size_t pageSize =? 0)
  then to_size_t (fileSize_ + 1)
  else fileSize_.

(** The rounded-up quotient [ceil(f/p)] of the specification, defined from
    its meaning (not from the code's formula): [-floor(-f/p)]. *)
Definition ceil_div (f p : Z) : Z := - ((- f) / p).

(* ================================================================= *)
(** ** The scripting VM as the host sees it (jsi.h) *)

(** A callable JavaScript value: a function defined by a script, or a
    function the host has created with [createFromHostFunction]. *)
Inductive jsfunction :=
| ScriptFunction (id : nat)
| HostFunction (name : string).

(** [jsi::Value].  Objects are property bags; functions are objects too. *)
Inductive jsvalue :=
| JSUndefined
| JSNull
| JSBool (b : bool)
| JSNumber (d : double)
| JSString (s : string)
| JSObject (props : gmap string jsvalue)
| JSFunction (f : jsfunction).

(** The exceptions of jsi.h: [JSError] and [JSINativeException] both derive
    from [JSIException], which derives from [std::exception]. *)
Inductive JSIException :=
| JSError (message stack : string)
| JSINativeException (msg : string).

(** The exceptions the host code can see: those of the VM, and the
    [std::runtime_error] thrown by MappedFileBuffer.cpp. *)
Inductive exception :=
| JSI (e : JSIException)
| runtime_error (msg : string).

(** [e.what()]: for a [JSError], jsi.cpp builds it from the message and the
    stack. *)
Definition jsi_what (e : JSIException) : string :=
  match e with
  | JSError message stack => message ++ "\n\n" ++ stack
  | JSINativeException msg => msg
  end.

(** [e.what()]. *)
Definition what (e : exception) : string :=
  match e with
  | JSI e => jsi_what e
  | runtime_error msg => msg
  end.

(** [obj.hasProperty(rt, name)] and [obj.getProperty(rt, name)] on a
    property bag: a missing property reads as [undefined]. *)
Definition hasProperty (obj : gmap string jsvalue) (name : string) : bool :=
  match obj !! name with Some _ => true | None => false end.
Definition getProperty (obj : gmap string jsvalue) (name : string) : jsvalue :=
  match obj !! name with Some v => v | None => JSUndefined end.

(** [value.asNumber()]: throws [JSINativeException] on a value that is not
    a number. *)
Definition asNumber (v : jsvalue) : JSIException + double :=
  match v with
  | JSNumber d => inr d
  | _ => inl (JSINativeException "Value is not a number, expected a number")
  end.

(** [obj.getPropertyAsObject(rt, name)]: throws [JSError] when the property
    is not an object.  A function is an object (without own properties of
    interest to the host). *)
Definition getPropertyAsObject (obj : gmap string jsvalue) (name : string)
  : JSIException + gmap string jsvalue :=
  match getProperty obj name with
  | JSObject props => inr props
  | JSFunction _ => inr ∅
  | _ => inl (JSError ("getPropertyAsObject: property '" ++ name ++
                       "' is not an Object") "")
  end.

(** [obj.getPropertyAsFunction(rt, name)]: throws [JSError] when the
    property is not a function. *)
Definition getPropertyAsFunction (obj : gmap string jsvalue) (name : string)
  : JSIException + jsfunction :=
  match getProperty obj name with
  | JSFunction f => inr f
  | JSObject _ => inl (JSError ("getPropertyAsFunction: property '" ++ name ++
                                "' is not a Function") "")
  | _ => inl (JSError ("getPropertyAsObject: property '" ++ name ++
                       "' is not an Object") "")
  end.

(** [evaluateSHUnit] takes the creator of a natively compiled unit. *)
Inductive SHUnitCreator := sh_export_jslib | sh_export_imgui | sh_export_react.

(** The object built by [MappedFileBuffer::MappedFileBuffer]; [path_] stands
    for the mapping [data_] points to. *)
Record MappedFileBuffer := {
  path_ : string;
  fileSize_ : Z;
  mappedSize_ : Z;
  size_ : Z;
}.

(** The VM: its global object and the rest of its heap, of a type [H] the
    host knows nothing about. *)
Record vm (H : Type) := {
  vm_globals : gmap string jsvalue;
  vm_heap : H;
}.
Arguments vm_globals {H} _.
Arguments vm_heap {H} _.

(** What the scripts do when the host enters the VM.  Each entry returns a
    value or throws a [JSIException], and leaves the VM in a new state.
    [number_bits v] is the double read by [getNumber()] from a value that
    is not a number, in a build where [assert] is compiled out. *)
Record script (H : Type) := {
  js_call : jsfunction -> list jsvalue -> vm H -> (JSIException + jsvalue) * vm H;
  js_drainMicrotasks : vm H -> (JSIException + jsvalue) * vm H;
  js_evaluateSHUnit : SHUnitCreator -> vm H -> (JSIException + jsvalue) * vm H;
  js_evaluateJavaScript :
    MappedFileBuffer -> option MappedFileBuffer -> string -> vm H ->
    (JSIException + jsvalue) * vm H;
  number_bits : jsvalue -> double;
}.
Arguments js_call {H} _ _ _ _.
Arguments js_drainMicrotasks {H} _ _.
Arguments js_evaluateSHUnit {H} _ _ _.
Arguments js_evaluateJavaScript {H} _ _ _ _ _.
Arguments number_bits {H} _ _.

(* ================================================================= *)
(** ** The libraries under the host: sokol and the file system *)

(** sokol_time.h, the constants of sokol_app.h that the host uses, and the
    handle that [sg_make_sampler] gives. *)
Record sokol := {
  stm_ms : Z -> double;
  stm_sec : Z -> double;
  stm_diff : Z -> Z -> Z;
  SAPP_EVENTTYPE_KEY_DOWN : Z;
  SAPP_KEYCODE_Q : Z;
  SAPP_MODIFIER_SUPER : Z;
  new_sampler : Z;
}.

Record sapp_event := {
  ev_type : Z;
  key_code : Z;
  modifiers : Z;
}.

(** What [sapp_width()], [sapp_height()] and [sapp_frame_duration()] read. *)
Record sapp_state := {
  sapp_width : Z;
  sapp_height : Z;
  sapp_frame_duration : double;
}.

(** A file as [open], [fstat] and [mmap] see it; a path without a node
    cannot be opened. *)
Record file_node := {
  st_size : Z;
  fstat_fails : bool;
  mmap_ok : Z -> bool;
}.

(** The build flags and the operating system. *)
Record environment := {
  NDEBUG : bool;
  REACT_BUNDLE_MODE : Z;
  REACT_BUNDLE_PATH : string;
  files : gmap string file_node;
  pageSize : Z;
}.

(** [sapp_desc], with the fields the host sets. *)
Record sapp_desc := {
  init_cb : bool;
  frame_cb : bool;
  cleanup_cb : bool;
  event_cb : bool;
  window_title : string;
  width : Z;
  height : Z;
  sample_count : Z;
  swap_interval : Z;
  clipboard_size : Z;
  max_dropped_files : Z;
  max_dropped_file_path_length : Z;
  fullscreen : bool;
  high_dpi : bool;
  alpha : bool;
  enable_clipboard : bool;
  enable_dragndrop : bool;
}.

(** [sapp_desc desc = {}]. *)
Definition sapp_desc_zero : sapp_desc :=
  {| init_cb := false; frame_cb := false; cleanup_cb := false; event_cb := false;
     window_title := ""; width := 0; height := 0; sample_count := 0;
     swap_interval := 0; clipboard_size := 0; max_dropped_files := 0;
     max_dropped_file_path_length := 0; fullscreen := false; high_dpi := false;
     alpha := false; enable_clipboard := false; enable_dragndrop := false |}.

(* ================================================================= *)
(** ** The trace of what the host does *)

Inductive vm_call :=
| CallFunction (f : jsfunction) (args : list jsvalue)
| DrainMicrotasks
| EvaluateSHUnit (u : SHUnitCreator)
| EvaluateJavaScript (path : string) (sourceMap : option string) (sourceURL : string).

Inductive overlay_line :=
| OvFPS (fps : double)
| OvImGui (avg : double)
| OvReact (avg max : double).

Inductive sokol_call :=
| sapp_create_window (desc : sapp_desc)
| sg_setup | simgui_setup | sg_make_sampler | sdtx_setup
| sg_make_image (width height : Z)
| simgui_make_image (image sampler : Z)
| simgui_destroy_image (simguiImage : Z)
| sg_destroy_image (image : Z)
| simgui_shutdown | sdtx_shutdown | sg_shutdown
| sapp_request_quit
| simgui_handle_event (ev : sapp_event)
| simgui_new_frame (w h : Z) (delta_time : double)
| sg_begin_default_pass (clear_value : list float) (w h : Z)
| simgui_render
| sdtx_canvas
| sdtx_pos (row : Z)
| sdtx_printf (l : overlay_line)
| sdtx_draw
| sg_end_pass
| sg_commit.

Inductive file_op :=
| FOpen (path : string) (ok : bool)
| FStat (path : string) (ok : bool)
| FMmap (path : string) (length : Z) (ok : bool)
| FClose (path : string).

Inductive event :=
| EvVM (c : vm_call) (r : JSIException + jsvalue)
| EvSokol (c : sokol_call)
| EvSlog (level msg : string)
| EvPrintf (s : string)
| EvFile (op : file_op)
| EvShDone.

(* ================================================================= *)
(** ** The file-scope statics of imgui-runtime.cpp and the world *)

(** [class HermesApp]: the two task-queue functions resolved at bootstrap. *)
Record HermesApp := {
  peekMacroTask : jsfunction;
  runMacroTask : jsfunction;
}.

(** [class Image]; the two handles are the ids given by sokol. *)
Record Image := {
  w_ : Z;
  h_ : Z;
  image_ : Z;
  simguiImage_ : Z;
}.

Record statics := {
  s_hermesApp : option HermesApp;
  s_sampler : Z;
  s_images : list Image;
  s_started : bool;
  s_start_time : Z;
  s_last_fps_time : Z;
  s_fps : double;
  s_react_avg_ms : double;
  s_react_max_ms : double;
  s_imgui_avg_ms : double;
  s_react_avg_ms_display : double;
  s_react_max_ms_display : double;
  s_imgui_avg_ms_display : double;
  s_bg_color : list float;
  s_app_desc : sapp_desc;
}.

(** The statics as the program starts. *)
Definition statics_init : statics :=
  {| s_hermesApp := None; s_sampler := 0; s_images := []; s_started := false;
     s_start_time := 0; s_last_fps_time := 0; s_fps := dzero;
     s_react_avg_ms := dzero; s_react_max_ms := dzero; s_imgui_avg_ms := dzero;
     s_react_avg_ms_display := dzero; s_react_max_ms_display := dzero;
     s_imgui_avg_ms_display := dzero;
     s_bg_color := [dzero; dzero; dzero; dzero]; s_app_desc := sapp_desc_zero |}.

Definition set_s_hermesApp (a : option HermesApp) (s : statics) : statics :=
  let 'Build_statics _ sm im st t0 tl fps ra rm ia rad rmd iad bg desc := s in
  Build_statics a sm im st t0 tl fps ra rm ia rad rmd iad bg desc.
Definition set_s_sampler (sm : Z) (s : statics) : statics :=
  let 'Build_statics a _ im st t0 tl fps ra rm ia rad rmd iad bg desc := s in
  Build_statics a sm im st t0 tl fps ra rm ia rad rmd iad bg desc.
Definition set_s_images (im : list Image) (s : statics) : statics :=
  let 'Build_statics a sm _ st t0 tl fps ra rm ia rad rmd iad bg desc := s in
  Build_statics a sm im st t0 tl fps ra rm ia rad rmd iad bg desc.
Definition set_s_started (st : bool) (s : statics) : statics :=
  let 'Build_statics a sm im _ t0 tl fps ra rm ia rad rmd iad bg desc := s in
  Build_statics a sm im st t0 tl fps ra rm ia rad rmd iad bg desc.
Definition set_s_start_time (t0 : Z) (s : statics) : statics :=
  let 'Build_statics a sm im st _ tl fps ra rm ia rad rmd iad bg desc := s in
  Build_statics a sm im st t0 tl fps ra rm ia rad rmd iad bg desc.
Definition set_s_last_fps_time (tl : Z) (s : statics) : statics :=
  let 'Build_statics a sm im st t0 _ fps ra rm ia rad rmd iad bg desc := s in
  Build_statics a sm im st t0 tl fps ra rm ia rad rmd iad bg desc.
Definition set_s_fps (fps : double) (s : statics) : statics :=
  let 'Build_statics a sm im st t0 tl _ ra rm ia rad rmd iad bg desc := s in
  Build_statics a sm im st t0 tl fps ra rm ia rad rmd iad bg desc.
Definition set_s_react_avg_ms (ra : double) (s : statics) : statics :=
  let 'Build_statics a sm im st t0 tl fps _ rm ia rad rmd iad bg desc := s in
  Build_statics a sm im st t0 tl fps ra rm ia rad rmd iad bg desc.
Definition set_s_react_max_ms (rm : double) (s : statics) : statics :=
  let 'Build_statics a sm im st t0 tl fps ra _ ia rad rmd iad bg desc := s in
  Build_statics a sm im st t0 tl fps ra rm ia rad rmd iad bg desc.
Definition set_s_imgui_avg_ms (ia : double) (s : statics) : statics :=
  let 'Build_statics a sm im st t0 tl fps ra rm _ rad rmd iad bg desc := s in
  Build_statics a sm im st t0 tl fps ra rm ia rad rmd iad bg desc.
Definition set_s_react_avg_ms_display (rad : double) (s : statics) : statics :=
  let 'Build_statics a sm im st t0 tl fps ra rm ia _ rmd iad bg desc := s in
  Build_statics a sm im st t0 tl fps ra rm ia rad rmd iad bg desc.
Definition set_s_react_max_ms_display (rmd : double) (s : statics) : statics :=
  let 'Build_statics a sm im st t0 tl fps ra rm ia rad _ iad bg desc := s in
  Build_statics a sm im st t0 tl fps ra rm ia rad rmd iad bg desc.
Definition set_s_imgui_avg_ms_display (iad : double) (s : statics) : statics :=
  let 'Build_statics a sm im st t0 tl fps ra rm ia rad rmd _ bg desc := s in
  Build_statics a sm im st t0 tl fps ra rm ia rad rmd iad bg desc.
Definition set_s_bg_color (bg : list float) (s : statics) : statics :=
  let 'Build_statics a sm im st t0 tl fps ra rm ia rad rmd iad _ desc := s in
  Build_statics a sm im st t0 tl fps ra rm ia rad rmd iad bg desc.
Definition set_s_app_desc (desc : sapp_desc) (s : statics) : statics :=
  let 'Build_statics a sm im st t0 tl fps ra rm ia rad rmd iad bg _ := s in
  Build_statics a sm im st t0 tl fps ra rm ia rad rmd iad bg desc.

(** The four values the overlay displays. *)
Definition displayed (s : statics) : double * double * double * double :=
  (s_fps s, s_imgui_avg_ms_display s, s_react_avg_ms_display s,
   s_react_max_ms_display s).

(** Everything a host function can read or change.  [w_now] is what
    [stm_now()] returns, in ticks of a nanosecond. *)
Record world (H : Type) := {
  w_vm : vm H;
  w_statics : statics;
  w_env : environment;
  w_now : Z;
  w_sapp : sapp_state;
  w_trace : list event;
}.
Arguments w_vm {H} _.
Arguments w_statics {H} _.
Arguments w_env {H} _.
Arguments w_now {H} _.
Arguments w_sapp {H} _.
Arguments w_trace {H} _.

Definition set_w_vm {H} (v : vm H) (w : world H) : world H :=
  {| w_vm := v; w_statics := w_statics w; w_env := w_env w; w_now := w_now w;
     w_sapp := w_sapp w; w_trace := w_trace w |}.
Definition set_w_statics {H} (s : statics) (w : world H) : world H :=
  {| w_vm := w_vm w; w_statics := s; w_env := w_env w; w_now := w_now w;
     w_sapp := w_sapp w; w_trace := w_trace w |}.
Definition set_w_trace {H} (t : list event) (w : world H) : world H :=
  {| w_vm := w_vm w; w_statics := w_statics w; w_env := w_env w; w_now := w_now w;
     w_sapp := w_sapp w; w_trace := t |}.
(** The environment moves on between two callbacks: time passes and the
    window may change. *)
Definition set_w_tick {H} (now : Z) (sa : sapp_state) (w : world H) : world H :=
  {| w_vm := w_vm w; w_statics := w_statics w; w_env := w_env w; w_now := now;
     w_sapp := sa; w_trace := w_trace w |}.

(* ================================================================= *)
(** ** The monad of host code *)

(** How a computation ends other than by returning: a C++ exception in
    flight, [abort()], [exit(code)], a null [s_hermesApp] dereferenced, or
    ([Spin]) a loop that has not ended within the iterations granted. *)
Inductive stop :=
| Throw (e : exception)
| Abort
| Exit (code : Z)
| Segfault
| Spin.

Inductive outcome (A : Type) :=
| Ret (a : A)
| Stop (s : stop).
Arguments Ret {A} _.
Arguments Stop {A} _.

Definition M (H A : Type) : Type := world H -> outcome A * world H.

Definition ret {H A} (a : A) : M H A := fun w => (Ret a, w).

Definition bind {H A B} (m : M H A) (k : A -> M H B) : M H B :=
  fun w => match m w with
           | (Ret a, w') => k a w'
           | (Stop s, w') => (Stop s, w')
           end.

Notation "x <- m ;; k" := (bind m (fun x => k))
  (at level 100, m at next level, right associativity).
Notation "m ;; k" := (bind m (fun _ => k))
  (at level 100, right associativity).

Definition stop_with {H A} (s : stop) : M H A := fun w => (Stop s, w).
Definition throw {H A} (e : exception) : M H A := stop_with (Throw e).

(** [try { m } catch ...]: [handler e] is [None] when no catch clause
    matches the dynamic type of [e]. *)
Definition try_catch {H A} (m : M H A) (handler : exception -> option (M H A))
  : M H A :=
  fun w => match m w with
           | (Stop (Throw e), w') =>
               match handler e with
               | Some h => h w'
               | None => (Stop (Throw e), w')
               end
           | r => r
           end.

Definition emit {H} (e : event) : M H unit :=
  fun w => (Ret tt, set_w_trace (w_trace w ++ [e]) w).

Definition gets {H A} (f : world H -> A) : M H A := fun w => (Ret (f w), w).

Definition modify_statics {H} (f : statics -> statics) : M H unit :=
  fun w => (Ret tt, set_w_statics (f (w_statics w)) w).

(** A JSI helper that returns or throws without entering the VM. *)
Definition lift_jsi {H A} (r : JSIException + A) : M H A :=
  match r with
  | inr a => ret a
  | inl e => throw (JSI e)
  end.

Definition slog_func {H} (level msg : string) : M H unit := emit (EvSlog level msg).
Definition printf {H} (s : string) : M H unit := emit (EvPrintf s).
Definition sokol_do {H} (c : sokol_call) : M H unit := emit (EvSokol c).
Definition abort {H A} : M H A := stop_with Abort.
Definition exit {H A} (code : Z) : M H A := stop_with (Exit code).
Definition stm_now {H} : M H Z := gets w_now.

(* ================================================================= *)
(** ** The host functions *)

Section Host.

Context {H : Type}.
Variable js : script H.
Variable sk : sokol.

#[local] Abbreviation M := (M H).

(** *** Entering the VM *)

(** Every entry into the VM is recorded in the trace with its result.  What
    the script does during an entry is the oracle's: it changes the VM, and
    it returns or throws.  The functions that imgui-runtime.cpp exports to
    scripts ([load_image], the accessors of an image, [get_bg_color]) are
    modelled below as host functions of their own, run between entries: an
    entry is that of a script which does not call them while it runs. *)
Definition enter_vm (c : vm_call)
    (f : vm H -> (JSIException + jsvalue) * vm H) : M jsvalue :=
  fun w =>
    let '(r, v) := f (w_vm w) in
    let w' := set_w_trace (w_trace w ++ [EvVM c r]) (set_w_vm v w) in
    match r with
    | inr a => (Ret a, w')
    | inl e => (Stop (Throw (JSI e)), w')
    end.

Definition call (f : jsfunction) (args : list jsvalue) : M jsvalue :=
  enter_vm (CallFunction f args) (js_call js f args).

Definition drainMicrotasks : M jsvalue :=
  enter_vm DrainMicrotasks (js_drainMicrotasks js).

Definition evaluateSHUnit (u : SHUnitCreator) : M jsvalue :=
  enter_vm (EvaluateSHUnit u) (js_evaluateSHUnit js u).

Definition evaluateJavaScript (buffer : MappedFileBuffer) (sourceURL : string)
  : M jsvalue :=
  enter_vm (EvaluateJavaScript (path_ buffer) None sourceURL)
           (js_evaluateJavaScript js buffer None sourceURL).

Definition evaluateJavaScriptWithSourceMap (buffer sourceMapBuf : MappedFileBuffer)
    (sourceURL : string) : M jsvalue :=
  enter_vm (EvaluateJavaScript (path_ buffer) (Some (path_ sourceMapBuf)) sourceURL)
           (js_evaluateJavaScript js buffer (Some sourceMapBuf) sourceURL).

(** [hermes->global()]. *)
Definition global : M (gmap string jsvalue) :=
  gets (fun w => vm_globals (w_vm w)).

(** [hermes->global().setProperty(rt, name, v)]. *)
Definition setGlobalProperty (name : string) (v : jsvalue) : M unit :=
  fun w =>
    (Ret tt,
     set_w_vm {| vm_globals := <[name := v]> (vm_globals (w_vm w));
                 vm_heap := vm_heap (w_vm w) |} w).

(** [hermes->global().getPropertyAsFunction(rt, name).call(rt, args...)]. *)
Definition call_global (name : string) (args : list jsvalue) : M jsvalue :=
  g <- global ;;
  f <- lift_jsi (getPropertyAsFunction g name) ;;
  call f args.

(** [value.getNumber()]: an assertion that the value is a number, then the
    payload. *)
Definition getNumber (v : jsvalue) : M double :=
  match v with
  | JSNumber d => ret d
  | _ =>
      ndebug <- gets (fun w => NDEBUG (w_env w)) ;;
      if ndebug : bool then ret (number_bits js v) else abort
  end.

(** [value.asObject(rt)]. *)
Definition asObject (v : jsvalue) : JSIException + gmap string jsvalue :=
  match v with
  | JSObject props => inr props
  | JSFunction _ => inr ∅
  | _ => inl (JSError "Value is not an Object" "")
  end.

(** [s_hermesApp->]: the pointer must not be null. *)
Definition hermesApp : M HermesApp :=
  fun w => match s_hermesApp (w_statics w) with
           | Some app => (Ret app, w)
           | None => (Stop Segfault, w)
           end.

(** *** MappedFileBuffer.cpp *)

Definition MappedFileBuffer_new (path : string) (attemptTrailingZero : bool)
  : M MappedFileBuffer :=
  ndebug <- gets (fun w => NDEBUG (w_env w)) ;;
  (if negb ndebug && String.eqb path "" then abort else ret tt) ;;
  fs <- gets (fun w => files (w_env w)) ;;
  match fs !! path with
  | None =>
      emit (EvFile (FOpen path false)) ;;
      throw (runtime_error ("Failed to open: " ++ path))
  | Some node =>
      emit (EvFile (FOpen path true)) ;;
      if fstat_fails node then
        emit (EvFile (FStat path false)) ;;
        emit (EvFile (FClose path)) ;;
        throw (runtime_error ("Failed to stat: " ++ path))
      else
        emit (EvFile (FStat path true)) ;;
        let fileSize := to_size_t (st_size node) in
        page <- gets (fun w => pageSize (w_env w)) ;;
        let mappedSize := mappedSize_of fileSize page in
        let size := size_of fileSize page attemptTrailingZero in
        if mmap_ok node mappedSize then
          emit (EvFile (FMmap path mappedSize true)) ;;
          ret {| path_ := path; fileSize_ := fileSize;
                 mappedSize_ := mappedSize; size_ := size |}
        else
          emit (EvFile (FMmap path mappedSize false)) ;;
          emit (EvFile (FClose path)) ;;
          throw (runtime_error ("Failed to mmap React bundle: " ++ path))
  end.

Definition mapFileBuffer (path : string) (attemptTrailingZero : bool)
  : M MappedFileBuffer :=
  MappedFileBuffer_new path attemptTrailingZero.

(** *** The image registry *)

(** The result of [image_simgui_image]: null, or the address of the
    [simguiImage_] member of the image at an index of [s_images]. *)
Inductive simgui_image_ptr :=
| nullptr
| addr_simguiImage_ (index : nat).

Definition deref (images : list Image) (p : simgui_image_ptr) : option Z :=
  match p with
  | nullptr => None
  | addr_simguiImage_ i => simguiImage_ <$> images !! i
  end.

(** [index < 0 || index >= s_images.size()]: the second comparison is made
    in [size_t]. *)
Definition invalid_index (index : Z) (images : list Image) : bool :=
  (index <? 0) || (to_size_t index >=? Z.of_nat (length images)).

Definition image_width (index : Z) : M Z :=
  images <- gets (fun w => s_images (w_statics w)) ;;
  if invalid_index index images then
    slog_func "ERROR" "Invalid image index" ;;
    ret 0
  else
    match images !! Z.to_nat index with
    | Some img => ret (w_ img)
    | None => stop_with Segfault
    end.

Definition image_height (index : Z) : M Z :=
  images <- gets (fun w => s_images (w_statics w)) ;;
  if invalid_index index images then
    slog_func "ERROR" "Invalid image index" ;;
    ret 0
  else
    match images !! Z.to_nat index with
    | Some img => ret (h_ img)
    | None => stop_with Segfault
    end.

Definition image_simgui_image (index : Z) : M simgui_image_ptr :=
  images <- gets (fun w => s_images (w_statics w)) ;;
  if invalid_index index images then
    slog_func "ERROR" "Invalid image index" ;;
    ret nullptr
  else
    match images !! Z.to_nat index with
    | Some _ => ret (addr_simguiImage_ (Z.to_nat index))
    | None => stop_with Segfault
    end.

(** [get_bg_color]: the address of the first element of [s_bg_color], and
    what a script that holds it does with it: it stores a [float] at an
    index, which is within the array for an index below 4. *)
Inductive float_ptr := addr_s_bg_color.

Definition get_bg_color : M float_ptr := ret addr_s_bg_color.

Definition store_float (p : float_ptr) (i : nat) (v : float) : M unit :=
  bg <- gets (fun w => s_bg_color (w_statics w)) ;;
  if decide (i < length bg)%nat then
    modify_statics (set_s_bg_color (<[i := v]> bg))
  else stop_with Segfault.

(** *** [app_init] *)

(** The body of the [try] block of [app_init]. *)
Definition app_init_script : M unit :=
  _ <- hermesApp ;;
  call_global "on_init" [] ;;
  drainMicrotasks ;;
  ret tt.

Definition app_init : M unit :=
  sokol_do sg_setup ;;
  sokol_do simgui_setup ;;
  sokol_do sg_make_sampler ;;
  modify_statics (set_s_sampler (new_sampler sk)) ;;
  sokol_do sdtx_setup ;;
  try_catch app_init_script
    (fun e => match e with
              | JSI e' => Some (slog_func "ERROR" (jsi_what e') ;; abort)
              | _ => None
              end).

(** [Image::~Image], for each image that [s_images.clear()] destroys.  The
    standard does not say in which order [clear] destroys the elements:
    here from the first to the last. *)
Fixpoint destroy_images (images : list Image) : M unit :=
  match images with
  | [] => ret tt
  | img :: rest =>
      sokol_do (simgui_destroy_image (simguiImage_ img)) ;;
      sokol_do (sg_destroy_image (image_ img)) ;;
      destroy_images rest
  end.

(** [delete s_hermesApp] destroys the [shRuntime] member, whose deleter is
    [_sh_done]; on a null pointer it does nothing. *)
Definition app_cleanup : M unit :=
  images <- gets (fun w => s_images (w_statics w)) ;;
  destroy_images images ;;
  modify_statics (set_s_images []) ;;
  sokol_do simgui_shutdown ;;
  sokol_do sdtx_shutdown ;;
  sokol_do sg_shutdown ;;
  app <- gets (fun w => s_hermesApp (w_statics w)) ;;
  (match app with
   | Some _ => emit EvShDone
   | None => ret tt
   end) ;;
  modify_statics (set_s_hermesApp None).

(** *** [app_event] *)

(** The body of the [try] block of [app_event]. *)
Definition app_event_script (ev : sapp_event) : M unit :=
  _ <- hermesApp ;;
  call_global "on_event"
    [JSNumber (double_of_Z (ev_type ev)); JSNumber (double_of_Z (key_code ev));
     JSNumber (double_of_Z (modifiers ev))] ;;
  drainMicrotasks ;;
  ret tt.

Definition is_quit_gesture (ev : sapp_event) : bool :=
  (ev_type ev =? SAPP_EVENTTYPE_KEY_DOWN sk) &&
  (key_code ev =? SAPP_KEYCODE_Q sk) &&
  negb (Z.land (modifiers ev) (SAPP_MODIFIER_SUPER sk) =? 0).

Definition app_event (ev : sapp_event) : M unit :=
  if is_quit_gesture ev then
    sokol_do sapp_request_quit
  else
    try_catch (app_event_script ev)
      (fun e => match e with
                | JSI e' => Some (slog_func "ERROR" (jsi_what e'))
                | _ => None
                end) ;;
    sokol_do (simgui_handle_event ev).

(** *** [update_performance_metrics] *)

(** [const double alpha = 0.1]: the double nearest to one tenth. *)
Definition alpha_ema : double := S754_finite false 7205759403792794 (-56).

(** The body of the [try] block of [update_performance_metrics]. *)
Definition read_performance_metrics : M unit :=
  _ <- hermesApp ;;
  g <- global ;;
  if hasProperty g "perfMetrics" then
    metrics <- lift_jsi (getPropertyAsObject g "perfMetrics") ;;
    (if hasProperty metrics "reconciliationAvg" then
       d <- lift_jsi (asNumber (getProperty metrics "reconciliationAvg")) ;;
       modify_statics (set_s_react_avg_ms d)
     else ret tt) ;;
    (if hasProperty metrics "reconciliationMax" then
       d <- lift_jsi (asNumber (getProperty metrics "reconciliationMax")) ;;
       modify_statics (set_s_react_max_ms d)
     else ret tt) ;;
    (if hasProperty metrics "renderTime" then
       renderTime <- lift_jsi (asNumber (getProperty metrics "renderTime")) ;;
       modify_statics (fun s =>
         set_s_imgui_avg_ms
           (dadd (dmul (s_imgui_avg_ms s) (dsub d_one alpha_ema))
                 (dmul renderTime alpha_ema)) s)
     else ret tt)
  else ret tt.

(** [catch (...)]: every exception is swallowed, and nothing is logged. *)
Definition update_performance_metrics : M unit :=
  try_catch read_performance_metrics (fun _ => Some (ret tt)).

(** *** [app_frame] *)

(** [peekMacroTask.call(rt).getNumber()]. *)
Definition peek (app : HermesApp) : M double :=
  v <- call (peekMacroTask app) [] ;;
  getNumber v.

(** The [while] loop of [app_frame]; [fuel] bounds the number of
    iterations looked at, and the loop that needs more ends in [Spin]. *)
Fixpoint run_ready_macrotasks (fuel : nat) (curTimeMs : double) : M unit :=
  match fuel with
  | O => stop_with Spin
  | S fuel' =>
      app <- hermesApp ;;
      nextTimeMs <- peek app ;;
      if dge nextTimeMs dzero && dle nextTimeMs curTimeMs then
        call (runMacroTask app) [JSNumber curTimeMs] ;;
        drainMicrotasks ;;
        run_ready_macrotasks fuel' curTimeMs
      else ret tt
  end.

(** [sapp_widthf()] and [sapp_heightf()]: the size of the window as a
    [float], which the call of [on_frame] widens to a [double]. *)
Definition sapp_widthf (sa : sapp_state) : double :=
  double_of_float (float_of_Z (sapp_width sa)).
Definition sapp_heightf (sa : sapp_state) : double :=
  double_of_float (float_of_Z (sapp_height sa)).

(** The body of the [try] block of [app_frame]. *)
Definition app_frame_script (fuel : nat) (now : Z) (curTimeMs : double) : M unit :=
  run_ready_macrotasks fuel curTimeMs ;;
  sa <- gets w_sapp ;;
  start <- gets (fun w => s_start_time (w_statics w)) ;;
  call_global "on_frame"
    [JSNumber (sapp_widthf sa); JSNumber (sapp_heightf sa);
     JSNumber (stm_sec sk (stm_diff sk now start))] ;;
  drainMicrotasks ;;
  ret tt.

(** The first statement of [app_frame]: starting the timers on the first
    tick, and from then on the flush of the displayed values. *)
Definition update_frame_clock (now : Z) : M unit :=
  started <- gets (fun w => s_started (w_statics w)) ;;
  if negb started then
    modify_statics (set_s_started true) ;;
    modify_statics (set_s_start_time now) ;;
    modify_statics (set_s_last_fps_time now)
  else
    last <- gets (fun w => s_last_fps_time (w_statics w)) ;;
    let diff := stm_diff sk now last in
    if diff >? 1000000000 then
      sa <- gets w_sapp ;;
      modify_statics (set_s_fps (ddiv d_one (sapp_frame_duration sa))) ;;
      modify_statics (fun s => set_s_imgui_avg_ms_display (s_imgui_avg_ms s) s) ;;
      modify_statics (fun s => set_s_react_avg_ms_display (s_react_avg_ms s) s) ;;
      modify_statics (fun s => set_s_react_max_ms_display (s_react_max_ms s) s) ;;
      modify_statics (set_s_last_fps_time now)
    else ret tt.

(** The debug-text overlay at the bottom-left corner. *)
Definition draw_overlay : M unit :=
  sa <- gets w_sapp ;;
  s <- gets w_statics ;;
  sokol_do sdtx_canvas ;;
  let num_rows := Z.quot (sapp_height sa) 8 in
  let num_lines := if dgt (s_react_avg_ms_display s) dzero then 3 else 2 in
  sokol_do (sdtx_pos (num_rows - num_lines)) ;;
  sokol_do (sdtx_printf (OvFPS (s_fps s))) ;;
  sokol_do (sdtx_printf (OvImGui (s_imgui_avg_ms_display s))) ;;
  (if dgt (s_react_avg_ms_display s) dzero then
     sokol_do (sdtx_printf (OvReact (s_react_avg_ms_display s)
                                    (s_react_max_ms_display s)))
   else ret tt) ;;
  sokol_do sdtx_draw.

(** [app_frame] up to its [try] block. *)
Definition frame_begin (now : Z) : M unit :=
  update_frame_clock now ;;
  sa <- gets w_sapp ;;
  sokol_do (simgui_new_frame (sapp_width sa) (sapp_height sa) (sapp_frame_duration sa)) ;;
  clear_value <- gets (fun w => s_bg_color (w_statics w)) ;;
  sokol_do (sg_begin_default_pass clear_value (sapp_width sa) (sapp_height sa)).

(** [app_frame] after its [try] block. *)
Definition frame_end : M unit :=
  update_performance_metrics ;;
  sokol_do simgui_render ;;
  draw_overlay ;;
  sokol_do sg_end_pass ;;
  sokol_do sg_commit.

Definition app_frame (fuel : nat) : M unit :=
  now <- stm_now ;;
  let curTimeMs := stm_ms sk now in
  frame_begin now ;;
  try_catch (app_frame_script fuel now curTimeMs)
    (fun e => match e with
              | JSI e' => Some (slog_func "ERROR" (jsi_what e'))
              | _ => None
              end) ;;
  frame_end.

(** *** Config projection *)

(** [safe_double_to_int]. *)
Definition safe_double_to_int (value : double) (defaultValue : Z) : Z :=
  if negb (isfinite value) then defaultValue
  else if dgt value (double_of_Z INT_MAX) then INT_MAX
  else if dlt value (double_of_Z INT_MIN) then INT_MIN
  else trunc_to_Z value.

Definition set_window_title (v : string) (d : sapp_desc) : sapp_desc :=
  let 'Build_sapp_desc i f c e _ w h sc si cs mf mp fu hd al ec ed := d in
  Build_sapp_desc i f c e v w h sc si cs mf mp fu hd al ec ed.
Definition set_width (v : Z) (d : sapp_desc) : sapp_desc :=
  let 'Build_sapp_desc i f c e t _ h sc si cs mf mp fu hd al ec ed := d in
  Build_sapp_desc i f c e t v h sc si cs mf mp fu hd al ec ed.
Definition set_height (v : Z) (d : sapp_desc) : sapp_desc :=
  let 'Build_sapp_desc i f c e t w _ sc si cs mf mp fu hd al ec ed := d in
  Build_sapp_desc i f c e t w v sc si cs mf mp fu hd al ec ed.
Definition set_sample_count (v : Z) (d : sapp_desc) : sapp_desc :=
  let 'Build_sapp_desc i f c e t w h _ si cs mf mp fu hd al ec ed := d in
  Build_sapp_desc i f c e t w h v si cs mf mp fu hd al ec ed.
Definition set_swap_interval (v : Z) (d : sapp_desc) : sapp_desc :=
  let 'Build_sapp_desc i f c e t w h sc _ cs mf mp fu hd al ec ed := d in
  Build_sapp_desc i f c e t w h sc v cs mf mp fu hd al ec ed.
Definition set_clipboard_size (v : Z) (d : sapp_desc) : sapp_desc :=
  let 'Build_sapp_desc i f c e t w h sc si _ mf mp fu hd al ec ed := d in
  Build_sapp_desc i f c e t w h sc si v mf mp fu hd al ec ed.
Definition set_max_dropped_files (v : Z) (d : sapp_desc) : sapp_desc :=
  let 'Build_sapp_desc i f c e t w h sc si cs _ mp fu hd al ec ed := d in
  Build_sapp_desc i f c e t w h sc si cs v mp fu hd al ec ed.
Definition set_max_dropped_file_path_length (v : Z) (d : sapp_desc) : sapp_desc :=
  let 'Build_sapp_desc i f c e t w h sc si cs mf _ fu hd al ec ed := d in
  Build_sapp_desc i f c e t w h sc si cs mf v fu hd al ec ed.
Definition set_fullscreen (v : bool) (d : sapp_desc) : sapp_desc :=
  let 'Build_sapp_desc i f c e t w h sc si cs mf mp _ hd al ec ed := d in
  Build_sapp_desc i f c e t w h sc si cs mf mp v hd al ec ed.
Definition set_high_dpi (v : bool) (d : sapp_desc) : sapp_desc :=
  let 'Build_sapp_desc i f c e t w h sc si cs mf mp fu _ al ec ed := d in
  Build_sapp_desc i f c e t w h sc si cs mf mp fu v al ec ed.
Definition set_alpha (v : bool) (d : sapp_desc) : sapp_desc :=
  let 'Build_sapp_desc i f c e t w h sc si cs mf mp fu hd _ ec ed := d in
  Build_sapp_desc i f c e t w h sc si cs mf mp fu hd v ec ed.
Definition set_enable_clipboard (v : bool) (d : sapp_desc) : sapp_desc :=
  let 'Build_sapp_desc i f c e t w h sc si cs mf mp fu hd al _ ed := d in
  Build_sapp_desc i f c e t w h sc si cs mf mp fu hd al v ed.
Definition set_enable_dragndrop (v : bool) (d : sapp_desc) : sapp_desc :=
  let 'Build_sapp_desc i f c e t w h sc si cs mf mp fu hd al ec _ := d in
  Build_sapp_desc i f c e t w h sc si cs mf mp fu hd al ec v.

(** The macro [READ_INT_PROP(js_name, field, default_val)]; the field is
    given by its assignment. *)
Definition READ_INT_PROP (config : gmap string jsvalue) (js_name : string)
    (field : Z -> sapp_desc -> sapp_desc) (default_val : Z) (desc : sapp_desc)
  : sapp_desc :=
  if hasProperty config js_name then
    match getProperty config js_name with
    | JSNumber d => field (safe_double_to_int d default_val) desc
    | _ => desc
    end
  else desc.

(** The macro [READ_BOOL_PROP(js_name, field)]. *)
Definition READ_BOOL_PROP (config : gmap string jsvalue) (js_name : string)
    (field : bool -> sapp_desc -> sapp_desc) (desc : sapp_desc) : sapp_desc :=
  if hasProperty config js_name then
    match getProperty config js_name with
    | JSBool b => field b desc
    | _ => desc
    end
  else desc.

Definition read_title (config : gmap string jsvalue) (desc : sapp_desc) : sapp_desc :=
  if hasProperty config "title" then
    match getProperty config "title" with
    | JSString s => set_window_title s desc
    | _ => desc
    end
  else desc.

(** The statements of [populate_sapp_desc_from_config] under
    the test that the global object has a [sappConfig], in their order. *)
Definition read_sappConfig (config : gmap string jsvalue) (desc : sapp_desc)
  : sapp_desc :=
  let desc := read_title config desc in
  let desc := READ_INT_PROP config "width" set_width 0 desc in
  let desc := READ_INT_PROP config "height" set_height 0 desc in
  let desc := READ_INT_PROP config "sample_count" set_sample_count 1 desc in
  let desc := READ_INT_PROP config "swap_interval" set_swap_interval 1 desc in
  let desc := READ_INT_PROP config "clipboard_size" set_clipboard_size 8192 desc in
  let desc := READ_INT_PROP config "max_dropped_files" set_max_dropped_files 1 desc in
  let desc := READ_INT_PROP config "max_dropped_file_path_length"
                set_max_dropped_file_path_length 2048 desc in
  let desc := READ_BOOL_PROP config "fullscreen" set_fullscreen desc in
  let desc := READ_BOOL_PROP config "high_dpi" set_high_dpi desc in
  let desc := READ_BOOL_PROP config "alpha" set_alpha desc in
  let desc := READ_BOOL_PROP config "enable_clipboard" set_enable_clipboard desc in
  let desc := READ_BOOL_PROP config "enable_dragndrop" set_enable_dragndrop desc in
  desc.

(** [desc] before the config is read: the callbacks and the default title. *)
Definition sapp_desc_default : sapp_desc :=
  {| init_cb := true; frame_cb := true; cleanup_cb := true; event_cb := true;
     window_title := "imgui-react-runtime"; width := 0; height := 0;
     sample_count := 0; swap_interval := 0; clipboard_size := 0;
     max_dropped_files := 0; max_dropped_file_path_length := 0;
     fullscreen := false; high_dpi := false; alpha := false;
     enable_clipboard := false; enable_dragndrop := false |}.

Definition populate_sapp_desc_from_config : M unit :=
  let desc := sapp_desc_default in
  g <- global ;;
  desc <- (if hasProperty g "sappConfig" then
             config <- lift_jsi (getPropertyAsObject g "sappConfig") ;;
             ret (read_sappConfig config desc)
           else ret desc) ;;
  modify_statics (set_s_app_desc desc).

(** *** Loading a unit *)

Definition imgui_load_unit (nativeUnit : option SHUnitCreator) (bytecode : bool)
    (jsPath sourceURL : option string) : M unit :=
  (match nativeUnit with
   | Some u => evaluateSHUnit u ;; printf "Native unit loaded.\n"
   | None => ret tt
   end) ;;
  match jsPath with
  | Some jsPath =>
      let url := match sourceURL with Some u => u | None => jsPath end in
      if bytecode then
        printf ("Loading React unit from bytecode: '" ++ jsPath ++ "'\n") ;;
        buffer <- mapFileBuffer jsPath false ;;
        evaluateJavaScript buffer url ;;
        printf "React unit loaded (bytecode).\n"
      else
        printf ("Loading React unit from source: '" ++ jsPath ++ "'\n") ;;
        buffer <- mapFileBuffer jsPath true ;;
        let sourceMapPath := jsPath ++ ".map" in
        sourceMapBuf <-
          try_catch
            (b <- mapFileBuffer sourceMapPath true ;;
             printf ("Loaded source map: '" ++ sourceMapPath ++ "'\n") ;;
             ret (Some b))
            (fun e => Some (printf ("Source map not found: " ++ what e ++ "\n") ;;
                            ret None)) ;;
        (match sourceMapBuf with
         | Some sm => evaluateJavaScriptWithSourceMap buffer sm url
         | None => evaluateJavaScript buffer url
         end) ;;
        printf "React unit loaded (source).\n"
  | None => ret tt
  end.

(** [imgui_main_default<BUNDLE_MODE>] of imgui-runtime.h. *)
Definition imgui_main_default (BUNDLE_MODE : Z)
    (sh_export_react_ : option SHUnitCreator) (bundlePath : string) : M unit :=
  if BUNDLE_MODE =? 0 then
    imgui_load_unit sh_export_react_ false None None
  else if BUNDLE_MODE =? 1 then
    imgui_load_unit None true (Some bundlePath) (Some "react-unit-bundle.hbc")
  else if BUNDLE_MODE =? 2 then
    imgui_load_unit None false (Some bundlePath) (Some "react-unit-bundle.js")
  else ret tt.

(** [imgui_main] as imgui-runtime.h provides it under [PROVIDE_IMGUI_MAIN]. *)
Definition imgui_main (argv : list string) : M unit :=
  mode <- gets (fun w => REACT_BUNDLE_MODE (w_env w)) ;;
  bundlePath <- gets (fun w => REACT_BUNDLE_PATH (w_env w)) ;;
  imgui_main_default mode
    (if mode =? 0 then Some sh_export_react else None) bundlePath.

(** *** [sokol_main] *)

(** The body of the [try] block of [sokol_main]. *)
Definition sokol_main_script (argv : list string) : M sapp_desc :=
  v <- evaluateSHUnit sh_export_jslib ;;
  helpers <- lift_jsi (asObject v) ;;
  ndebug <- gets (fun w => NDEBUG (w_env w)) ;;
  let nodeEnv := if ndebug : bool then "production" else "development" in
  g <- global ;;
  process <- lift_jsi (getPropertyAsObject g "process") ;;
  env <- lift_jsi (getPropertyAsObject process "env") ;;
  setGlobalProperty "process"
    (JSObject (<["env" := JSObject (<["NODE_ENV" := JSString nodeEnv]> env)]> process)) ;;
  peek_ <- lift_jsi (getPropertyAsFunction helpers "peek") ;;
  run_ <- lift_jsi (getPropertyAsFunction helpers "run") ;;
  modify_statics
    (set_s_hermesApp (Some {| peekMacroTask := peek_; runMacroTask := run_ |})) ;;
  now <- stm_now ;;
  let curTimeMs := stm_ms sk now in
  app <- hermesApp ;;
  call (runMacroTask app) [JSNumber curTimeMs] ;;
  setGlobalProperty "performance"
    (JSObject {[ "now" := JSFunction (HostFunction "now") ]}) ;;
  setGlobalProperty "sappConfig"
    (JSObject {[ "title" := JSString "imgui-react-runtime" ]}) ;;
  imgui_main argv ;;
  evaluateSHUnit sh_export_imgui ;;
  populate_sapp_desc_from_config ;;
  desc <- gets (fun w => s_app_desc (w_statics w)) ;;
  if negb (init_cb desc) then
    throw (JSI (JSINativeException "sokol_app not configured from JS"))
  else ret desc.

(** The three [catch] clauses of [sokol_main]: each prints the exception. *)
Definition sokol_main_diagnostic (e : exception) : string :=
  match e with
  | JSI (JSError _ stack) => "JS Exception: " ++ stack ++ "\n"
  | JSI (JSINativeException msg) => "JSI Exception: " ++ msg ++ "\n"
  | runtime_error msg => "C++ Exception: " ++ msg ++ "\n"
  end.

Definition sokol_main (argv : list string) : M sapp_desc :=
  try_catch (sokol_main_script argv)
    (fun e => Some (printf (sokol_main_diagnostic e) ;;
                    emit EvShDone ;;
                    exit 1)).

(** *** The application run by sokol_app *)

(** A callback of the steady state, with what the clock and the window
    read when it is made. *)
Inductive callback :=
| FrameCb (now : Z) (sa : sapp_state)
| EventCb (ev : sapp_event).

Definition run_callback (fuel : nat) (cb : callback) : M unit :=
  match cb with
  | FrameCb now sa => fun w => app_frame fuel (set_w_tick now sa w)
  | EventCb ev => app_event ev
  end.

Fixpoint steady_state (fuel : nat) (cbs : list callback) : M unit :=
  match cbs with
  | [] => ret tt
  | cb :: rest => run_callback fuel cb ;; steady_state fuel rest
  end.

(** The process: [sokol_main] gives the description of the application,
    sokol_app creates the window and calls [init_cb] once, then the frame
    and event callbacks, then [cleanup_cb]. *)
Definition run_app (fuel : nat) (argv : list string) (cbs : list callback) : M unit :=
  desc <- sokol_main argv ;;
  sokol_do (sapp_create_window desc) ;;
  app_init ;;
  steady_state fuel cbs ;;
  app_cleanup.

End Host.

Arguments simgui_image_ptr : clear implicits.

(* ================================================================= *)
(** ** Vocabulary of the specification *)

(** The numeric fields of [sappConfig], with the name, the default and the
    member of [sapp_desc] that each [READ_INT_PROP] line gives. *)
Inductive int_field :=
| F_width | F_height | F_sample_count | F_swap_interval | F_clipboard_size
| F_max_dropped_files | F_max_dropped_file_path_length.

Definition int_field_name (f : int_field) : string :=
  match f with
  | F_width => "width"
  | F_height => "height"
  | F_sample_count => "sample_count"
  | F_swap_interval => "swap_interval"
  | F_clipboard_size => "clipboard_size"
  | F_max_dropped_files => "max_dropped_files"
  | F_max_dropped_file_path_length => "max_dropped_file_path_length"
  end.

Definition int_field_default (f : int_field) : Z :=
  match f with
  | F_width => 0
  | F_height => 0
  | F_sample_count => 1
  | F_swap_interval => 1
  | F_clipboard_size => 8192
  | F_max_dropped_files => 1
  | F_max_dropped_file_path_length => 2048
  end.

Definition int_field_get (f : int_field) (d : sapp_desc) : Z :=
  match f with
  | F_width => width d
  | F_height => height d
  | F_sample_count => sample_count d
  | F_swap_interval => swap_interval d
  | F_clipboard_size => clipboard_size d
  | F_max_dropped_files => max_dropped_files d
  | F_max_dropped_file_path_length => max_dropped_file_path_length d
  end.

(** The boolean fields of [sappConfig]. *)
Inductive bool_field :=
| F_fullscreen | F_high_dpi | F_alpha | F_enable_clipboard | F_enable_dragndrop.

Definition bool_field_name (f : bool_field) : string :=
  match f with
  | F_fullscreen => "fullscreen"
  | F_high_dpi => "high_dpi"
  | F_alpha => "alpha"
  | F_enable_clipboard => "enable_clipboard"
  | F_enable_dragndrop => "enable_dragndrop"
  end.

Definition bool_field_get (f : bool_field) (d : sapp_desc) : bool :=
  match f with
  | F_fullscreen => fullscreen d
  | F_high_dpi => high_dpi d
  | F_alpha => alpha d
  | F_enable_clipboard => enable_clipboard d
  | F_enable_dragndrop => enable_dragndrop d
  end.

(** What a numeric and a boolean field of the projected [sapp_desc] hold
    after a config object is read, given what they held before. *)
Definition projected_int (config : gmap string jsvalue) (name : string)
    (default_val old : Z) : Z :=
  match config !! name with
  | Some (JSNumber d) => safe_double_to_int d default_val
  | _ => old
  end.

Definition projected_bool (config : gmap string jsvalue) (name : string)
    (old : bool) : bool :=
  match config !! name with
  | Some (JSBool b) => b
  | _ => old
  end.

Definition projected_title (config : gmap string jsvalue) (old : string) : string :=
  match config !! "title" with
  | Some (JSString s) => s
  | _ => old
  end.

(** The exact value of a finite double, scaled by [2^1074] so that it is an
    integer for every binary64 number: [(-1)^s * m * 2^(e + 1074)]. *)
Definition scaled_value (d : double) : Z :=
  match d with
  | S754_finite s m e => (if s then -1 else 1) * (Zpos m * 2 ^ (e + 1074))
  | _ => 0
  end.
Definition scale (n : Z) : Z := n * 2 ^ 1074.




(** A computation keeps an observation [p] of the world when [p] reads the
    same after it as before, however the computation ends. *)
Definition keeps {H A X} (p : world H -> X) (m : M H A) : Prop :=
  forall w, p (snd (m w)) = p w.

(** From a world where [Q] holds, a computation ends in a world where [Q]
    holds, and if it does not return it stops in one of the ways [P]. *)
Definition stops_within {H A} (Q : world H -> Prop) (P : stop -> Prop)
    (m : M H A) : Prop :=
  forall w, Q w -> Q (snd (m w)) /\ forall s, fst (m w) = Stop s -> P s.

(** The steady state is entered with the task-queue functions resolved. *)
Definition bootstrapped {H} (nd : bool) (w : world H) : Prop :=
  s_hermesApp (w_statics w) <> None /\ NDEBUG (w_env w) = nd.

(** How host code that enters the VM can stop: with an exception of the
    VM, in a loop that goes on, or with the assertion of [getNumber] in a
    build that has assertions. *)
Definition script_stop (nd : bool) (s : stop) : Prop :=
  (exists e, s = Throw (JSI e)) \/ s = Spin \/ (nd = false /\ s = Abort).

(** How a callback of the steady state can stop. *)
Definition callback_stop (nd : bool) (s : stop) : Prop :=
  s = Spin \/ (nd = false /\ s = Abort).

(** A computation adds to the trace only events of the kind [E]. *)
Definition emits {H A} (E : event -> Prop) (m : M H A) : Prop :=
  forall w, exists evs,
    w_trace (snd (m w)) = (w_trace w ++ evs)%list /\ Forall E evs.

(** What [sokol_main] does in its [try] block after it has called [run]. *)
Definition after_seed {H} (js : script H) (argv : list string) : M H sapp_desc :=
  setGlobalProperty "performance"
    (JSObject {[ "now" := JSFunction (HostFunction "now") ]}) ;;
  setGlobalProperty "sappConfig"
    (JSObject {[ "title" := JSString "imgui-react-runtime" ]}) ;;
  imgui_main js argv ;;
  evaluateSHUnit js sh_export_imgui ;;
  populate_sapp_desc_from_config ;;
  desc <- gets (fun w => s_app_desc (w_statics w)) ;;
  if negb (init_cb desc) then
    throw (JSI (JSINativeException "sokol_app not configured from JS"))
  else ret desc.

(** Events of the trace by kind. *)
Definition is_call (e : event) : bool :=
  match e with EvVM (CallFunction _ _) _ => true | _ => false end.


Definition is_sokol (e : event) : bool :=
  match e with EvSokol _ => true | _ => false end.

(** Neither a call of a function of the script nor a call of sokol. *)
Definition quiet (e : event) : Prop := is_call e = false /\ is_sokol e = false.

(* ================================================================= *)
(** ** A small script and environment, for the examples *)

Module Demo.

(** A timer of the script: its due time, and the due times at which it
    schedules itself again, one after the other. *)
Record task := {
  due : double;
  again : list double;
}.

(** The heap of the script: its timers by due time, and whether its event
    handler fails. *)
Record heap := {
  queue : list task;
  on_event_fails : bool;
}.

Fixpoint schedule (t : task) (q : list task) : list task :=
  match q with
  | [] => [t]
  | u :: q' => if dlt (due t) (due u) then t :: u :: q' else u :: schedule t q'
  end.

Definition fn_peek := ScriptFunction 0.
Definition fn_run := ScriptFunction 1.
Definition fn_on_init := ScriptFunction 2.
Definition fn_on_event := ScriptFunction 3.
Definition fn_on_frame := ScriptFunction 4.

Definition with_queue (q : list task) (v : vm heap) : vm heap :=
  {| vm_globals := vm_globals v;
     vm_heap := {| queue := q; on_event_fails := on_event_fails (vm_heap v) |} |}.

Definition with_globals (g : gmap string jsvalue) (v : vm heap) : vm heap :=
  {| vm_globals := g; vm_heap := vm_heap v |}.

Definition call (f : jsfunction) (args : list jsvalue) (v : vm heap)
  : (JSIException + jsvalue) * vm heap :=
  match f with
  | ScriptFunction 0 =>
      match queue (vm_heap v) with
      | [] => (inr (JSNumber (double_of_Z (-1))), v)
      | t :: _ => (inr (JSNumber (due t)), v)
      end
  | ScriptFunction 1 =>
      match queue (vm_heap v) with
      | [] => (inr JSUndefined, v)
      | t :: q =>
          match again t with
          | [] => (inr JSUndefined, with_queue q v)
          | d :: ds => (inr JSUndefined, with_queue (schedule {| due := d; again := ds |} q) v)
          end
      end
  | ScriptFunction 3 =>
      if on_event_fails (vm_heap v)
      then (inl (JSError "on_event failed" "at on_event"), v)
      else (inr JSUndefined, v)
  | _ => (inr JSUndefined, v)
  end.

Definition evaluateSHUnit (u : SHUnitCreator) (v : vm heap)
  : (JSIException + jsvalue) * vm heap :=
  match u with
  | sh_export_jslib =>
      (inr (JSObject (<["peek" := JSFunction fn_peek]>
                        {["run" := JSFunction fn_run]})),
       with_globals (<["process" := JSObject {["env" := JSObject ∅]}]> (vm_globals v)) v)
  | sh_export_imgui =>
      (inr JSUndefined,
       with_globals (<["on_init" := JSFunction fn_on_init]>
                       (<["on_event" := JSFunction fn_on_event]>
                          (<["on_frame" := JSFunction fn_on_frame]> (vm_globals v)))) v)
  | sh_export_react => (inr JSUndefined, v)
  end.

Definition the_script : script heap :=
  {| js_call := call;
     js_drainMicrotasks := fun v => (inr JSUndefined, v);
     js_evaluateSHUnit := evaluateSHUnit;
     js_evaluateJavaScript := fun _ _ _ v => (inr JSUndefined, v);
     number_bits := fun _ => S754_nan |}.



(** sokol_time counts nanoseconds; the constants are those of sokol_app.h. *)
Definition the_sokol : sokol :=
  {| stm_ms := fun ticks => ddiv (double_of_Z ticks) (double_of_Z 1000000);
     stm_sec := fun ticks => ddiv (double_of_Z ticks) (double_of_Z 1000000000);
     stm_diff := fun new old => if old <? new then new - old else 1;
     SAPP_EVENTTYPE_KEY_DOWN := 1;
     SAPP_KEYCODE_Q := 81;
     SAPP_MODIFIER_SUPER := 8;
     new_sampler := 7 |}.

(** Files: a bundle of 10000 bytes without a source map, an empty file,
    and a file of exactly two pages.  [mmap] refuses a length of zero. *)
Definition node (size : Z) : file_node :=
  {| st_size := size; fstat_fails := false; mmap_ok := fun len => 0 <? len |}.

Definition the_files : gmap string file_node :=
  <["bundle.js" := node 10000]>
    (<["empty.js" := node 0]> {["pages.js" := node 8192]}).

Definition the_env (mode : Z) (path : string) : environment :=
  {| NDEBUG := true; REACT_BUNDLE_MODE := mode; REACT_BUNDLE_PATH := path;
     files := the_files; pageSize := 4096 |}.

Definition the_window : sapp_state :=
  {| sapp_width := 640; sapp_height := 480;
     sapp_frame_duration := ddiv d_one (double_of_Z 60) |}.

(** The world as the process starts, [now] ticks after [stm_setup]. *)
Definition boot_world (mode : Z) (path : string) (now : Z) : world heap :=
  {| w_vm := {| vm_globals := ∅;
                vm_heap := {| queue := []; on_event_fails := false |} |};
     w_statics := statics_init;
     w_env := the_env mode path;
     w_now := now;
     w_sapp := the_window;
     w_trace := [] |}.

(** A world of the steady state: the units are loaded, the script has the
    timers [q], and its global object is [g]. *)
Definition running_globals : gmap string jsvalue :=
  <["on_init" := JSFunction fn_on_init]>
    (<["on_event" := JSFunction fn_on_event]>
       {["on_frame" := JSFunction fn_on_frame]}).

Definition running_world (g : gmap string jsvalue) (q : list task)
    (fails : bool) (st : statics) (now : Z) : world heap :=
  {| w_vm := {| vm_globals := g;
                vm_heap := {| queue := q; on_event_fails := fails |} |};
     w_statics := set_s_hermesApp
                    (Some {| peekMacroTask := fn_peek; runMacroTask := fn_run |}) st;
     w_env := the_env 0 "";
     w_now := now;
     w_sapp := the_window;
     w_trace := [] |}.

(** Task A, due at 0, schedules itself again for 5; task B is due at 20. *)
Definition task_A : task := {| due := double_of_Z 0; again := [double_of_Z 5] |}.

(** A config object a script could leave in [sappConfig]. *)
Definition the_config : gmap string jsvalue :=
  <["width" := JSNumber (double_of_Z 10000000000)]>
  (<["height" := JSNumber (double_of_Z (-10000000000))]>
  (<["sample_count" := JSNumber S754_nan]>
  (<["swap_interval" := JSNumber (S754_infinity false)]>
  (<["clipboard_size" := JSString "big"]>
  (<["max_dropped_files" := JSNumber (ddiv (double_of_Z 7) (double_of_Z 2))]>
  (<["fullscreen" := JSNumber (double_of_Z 1)]>
  {["high_dpi" := JSBool true]})))))).

Definition some_images : list Image :=
  [ {| w_ := 64; h_ := 32; image_ := 1; simguiImage_ := 101 |};
    {| w_ := 800; h_ := 600; image_ := 2; simguiImage_ := 102 |} ].

End Demo.

(* ================================================================= *)
(** ** Loading images *)

(** The conversion of a [size_t] to [int]: modulo [2^32], in two's
    complement. *)
Definition to_int (z : Z) : Z := (z + 2 ^ 31) mod 2 ^ 32 - 2 ^ 31.

Section Images.

Context {H : Type}.

(** stb_image: the width and the height decoded from the file at a path,
    or nothing where [stbi_load] returns null. *)
Variable stbi_load : string -> option (Z * Z).

(** sokol: the handles that [sg_make_image] and [simgui_make_image] give. *)
Variable new_image : world H -> Z.
Variable new_simgui_image : world H -> Z.

(** [Image::Image(path)].  [s_internalImages] is an array of no element:
    the search by name finds nothing and the file is decoded from disk. *)
Definition Image_new (path : string) : M H Image :=
  match stbi_load path with
  | None => slog_func "ERROR" "Failed to load image" ;; abort
  | Some (w, h) =>
      image <- gets new_image ;;
      simguiImage <- gets new_simgui_image ;;
      sokol_do (sg_make_image w h) ;;
      sampler <- gets (fun wd => s_sampler (w_statics wd)) ;;
      sokol_do (simgui_make_image image sampler) ;;
      ret {| w_ := w; h_ := h; image_ := image; simguiImage_ := simguiImage |}
  end.

(** [load_image]: the new image goes to the end of [s_images], and its
    index is returned as an [int]. *)
Definition load_image (path : string) : M H Z :=
  img <- Image_new path ;;
  modify_statics (fun s => set_s_images (s_images s ++ [img]) s) ;;
  images <- gets (fun w => s_images (w_statics w)) ;;
  ret (to_int (to_size_t (Z.of_nat (length images) - 1))).

End Images.

(* ================================================================= *)
(** ** More vocabulary for the traces *)

(** The descriptors that a trace leaves open: those opened and not closed. *)
Fixpoint open_descriptors (evs : list event) : Z :=
  match evs with
  | [] => 0
  | EvFile (FOpen _ true) :: rest => open_descriptors rest + 1
  | EvFile (FClose _) :: rest => open_descriptors rest - 1
  | _ :: rest => open_descriptors rest
  end.

(** The file an operation is made on. *)
Definition file_of (op : file_op) : string :=
  match op with
  | FOpen path _ | FStat path _ | FMmap path _ _ | FClose path => path
  end.

(** A call that returned of a function of the script with arguments: in the
    steady state, of [run], [on_frame] or [on_event]. *)
Definition is_task (e : event) : bool :=
  match e with EvVM (CallFunction _ (_ :: _)) (inr _) => true | _ => false end.

Definition is_drain (e : event) : bool :=
  match e with EvVM DrainMicrotasks _ => true | _ => false end.

(** In a trace, every task is followed at once by a drain of the
    microtasks. *)
Definition drained (evs : list event) : Prop :=
  forall pre x post, evs = (pre ++ x :: post)%list -> is_task x = true ->
  exists d post', post = d :: post' /\ is_drain d = true.

(** A computation adds to the trace a run of events that is [R]. *)
Definition appends {H A} (R : list event -> Prop) (m : M H A) : Prop :=
  forall w, exists evs,
    w_trace (snd (m w)) = (w_trace w ++ evs)%list /\ R evs.

(** A call of sokol_debugtext. *)
Definition is_sdtx (e : event) : bool :=
  match e with
  | EvSokol (sdtx_canvas | sdtx_pos _ | sdtx_printf _ | sdtx_draw) => true
  | _ => false
  end.

(** A call of sokol that only the callbacks make: the frame of ImGui, the
    render pass and its overlay, the forwarding of an event and the
    request to quit.  The functions exported to the script ([load_image],
    the accessors of an image, [get_bg_color]) make none of them. *)
Definition is_frame_call (e : event) : bool :=
  match e with
  | EvSokol (simgui_new_frame _ _ _ | sg_begin_default_pass _ _ _ | simgui_render
             | sg_end_pass | sg_commit | simgui_handle_event _ | sapp_request_quit
             | sdtx_canvas | sdtx_pos _ | sdtx_printf _ | sdtx_draw) => true
  | _ => false
  end.

(** An entry into the VM. *)
Definition is_vm (e : event) : bool :=
  match e with EvVM _ _ => true | _ => false end.

(** The lines of text of the overlay, and the row it starts at. *)
Definition overlay_lines (evs : list event) : list overlay_line :=
  omap (fun e => match e with EvSokol (sdtx_printf l) => Some l | _ => None end) evs.

Definition overlay_rows (evs : list event) : list Z :=
  omap (fun e => match e with EvSokol (sdtx_pos row) => Some row | _ => None end) evs.

(** An image decoder and handles for the examples: one file decodes. *)
Module DemoImages.

Definition decode (path : string) : option (Z * Z) :=
  if String.eqb path "logo.png" then Some (128, 64) else None.

Definition sg_handle (w : world Demo.heap) : Z :=
  Z.of_nat (length (s_images (w_statics w))) + 1.

Definition simgui_handle (w : world Demo.heap) : Z :=
  Z.of_nat (length (s_images (w_statics w))) + 101.

Definition load := load_image decode sg_handle simgui_handle.

(** A world of the steady state with the two images of the demo loaded. *)
Definition gallery : world Demo.heap :=
  Demo.running_world Demo.running_globals [] false
    (set_s_images Demo.some_images statics_init) 0.

(** A [perfMetrics] whose second field is not a number. *)
Definition half_metrics : gmap string jsvalue :=
  <["reconciliationAvg" := JSNumber (double_of_Z 2)]>
    (<["reconciliationMax" := JSString "slow"]>
       {["renderTime" := JSNumber (double_of_Z 4)]}).

(** The script of the demo with an [on_init] that throws. *)
Definition failing_init_script : script Demo.heap :=
  {| js_call := fun f args v =>
       match f with
       | ScriptFunction 2 => (inl (JSError "on_init failed" "at on_init"), v)
       | _ => Demo.call f args v
       end;
     js_drainMicrotasks := fun v => (inr JSUndefined, v);
     js_evaluateSHUnit := Demo.evaluateSHUnit;
     js_evaluateJavaScript := fun _ _ _ v => (inr JSUndefined, v);
     number_bits := fun _ => S754_nan |}.

(** A timer that throws when it is run. *)
Definition throwing_run_script : script Demo.heap :=
  {| js_call := fun f args v =>
       match f with
       | ScriptFunction 1 => (inl (JSError "task failed" "at task"), v)
       | _ => Demo.call f args v
       end;
     js_drainMicrotasks := fun v => (inr JSUndefined, v);
     js_evaluateSHUnit := Demo.evaluateSHUnit;
     js_evaluateJavaScript := fun _ _ _ v => (inr JSUndefined, v);
     number_bits := fun _ => S754_nan |}.

End DemoImages.

(* ================================================================= *)
(** * Properties *)

(** ** Arithmetic of the mapping sizes *)

Lemma to_size_t_small z : 0 <= z < 2 ^ 64 -> to_size_t z = z.
Proof. intros Hz. unfold to_size_t, SIZE_WIDTH. apply Z.mod_small. exact Hz. Qed.

(** [ceil_div f p * p] is the least multiple of [p] that is not below [f]. *)
Lemma ceil_div_bounds f p : 0 < p -> f <= ceil_div f p * p < f + p.
Proof.
  intros Hp. unfold ceil_div.
  pose proof (Z.div_mod (- f) p ltac:(lia)) as Hdm.
  pose proof (Z.mod_pos_bound (- f) p Hp) as Hm.
  nia.
Qed.

Lemma ceil_div_least f p k : 0 < p -> f <= k * p -> ceil_div f p <= k.
Proof.
  intros Hp Hk. pose proof (ceil_div_bounds f p Hp) as Hb.
  assert (ceil_div f p * p < (k + 1) * p) by lia.
  nia.
Qed.

Lemma round_up_is_ceil f p : 0 < p -> (f + p - 1) / p = ceil_div f p.
Proof.
  intros Hp. unfold ceil_div.
  pose proof (Z.div_mod (f + p - 1) p ltac:(lia)) as Hdm.
  pose proof (Z.mod_pos_bound (f + p - 1) p Hp) as Hm.
  set (q := (f + p - 1) / p) in *.
  assert (Hq : (- f) / p = - q).
  { symmetry. apply (Z.div_unique_pos (- f) p (- q) (q * p - f)); lia. }
  rewrite Hq. lia.
Qed.

Lemma mappedSize_of_ceil f p :
  0 <= f <= LONG_MAX -> 0 < p <= LONG_MAX ->
  mappedSize_of f p = ceil_div f p * p.
Proof.
  unfold LONG_MAX. intros Hf Hp. unfold mappedSize_of.
  rewrite (to_size_t_small p) by lia.
  rewrite (to_size_t_small (f + p)) by lia.
  rewrite (to_size_t_small (f + p - 1)) by lia.
  rewrite round_up_is_ceil by lia.
  pose proof (ceil_div_bounds f p ltac:(lia)).
  apply to_size_t_small. lia.
Qed.

Lemma size_of_cases f p tz :
  0 <= f <= LONG_MAX -> 0 < p <= LONG_MAX ->
  size_of f p tz = if tz && negb (f mod p =? 0) then f + 1 else f.
Proof.
  unfold LONG_MAX. intros Hf Hp. unfold size_of.
  rewrite (to_size_t_small p) by lia.
  destruct (tz && negb (f mod p =? 0)); [|reflexivity].
  apply to_size_t_small. lia.
Qed.

(** ** Running host code *)

(** The constructor of [MappedFileBuffer] on a file that opens. *)
Lemma MappedFileBuffer_new_opened {H} (w : world H) path tz node :
  files (w_env w) !! path = Some node ->
  (NDEBUG (w_env w) = true \/ path <> "") ->
  MappedFileBuffer_new path tz w =
    if fstat_fails node then
      (Stop (Throw (runtime_error ("Failed to stat: " ++ path))),
       set_w_trace (w_trace w ++ [EvFile (FOpen path true); EvFile (FStat path false);
                                  EvFile (FClose path)]) w)
    else
      let f := to_size_t (st_size node) in
      let len := mappedSize_of f (pageSize (w_env w)) in
      if mmap_ok node len then
        (Ret {| path_ := path; fileSize_ := f; mappedSize_ := len;
                size_ := size_of f (pageSize (w_env w)) tz |},
         set_w_trace (w_trace w ++ [EvFile (FOpen path true); EvFile (FStat path true);
                                    EvFile (FMmap path len true)]) w)
      else
        (Stop (Throw (runtime_error ("Failed to mmap React bundle: " ++ path))),
         set_w_trace (w_trace w ++ [EvFile (FOpen path true); EvFile (FStat path true);
                                    EvFile (FMmap path len false);
                                    EvFile (FClose path)]) w).
Proof.
  intros Hnode Hpath. unfold MappedFileBuffer_new, bind, gets, emit, throw, stop_with, ret, abort.
  assert (Hguard : negb (NDEBUG (w_env w)) && String.eqb path "" = false).
  { destruct Hpath as [-> | Hne]; [reflexivity|].
    apply andb_false_iff. right. apply String.eqb_neq. exact Hne. }
  rewrite Hguard. simpl. rewrite Hnode. simpl.
  destruct (fstat_fails node); simpl.
  - rewrite <- !app_assoc. reflexivity.
  - destruct (mmap_ok node _); simpl; rewrite <- !app_assoc; reflexivity.
Qed.

(* ================================================================= *)
(** ** MappedFileBuffer: sizes *)

(** C2.  For every file size [f] and page size [p] (a non-negative [off_t]
    and a positive [long]), a mapping that succeeds has asked [mmap] for
    [alignedSize = ceil(f/p) * p] bytes, which is at least [f]; when a
    trailing zero is requested the logical size is [f + 1] if and only if
    [f mod p <> 0], and in every other case, also when no trailing zero is
    requested, the logical size is [f]. *)
Theorem mapped_buffer_sizes {H} (w w' : world H) path tz node b :
  files (w_env w) !! path = Some node ->
  0 <= st_size node <= LONG_MAX ->
  0 < pageSize (w_env w) <= LONG_MAX ->
  MappedFileBuffer_new path tz w = (Ret b, w') ->
  let f := st_size node in
  let p := pageSize (w_env w) in
  fileSize_ b = f /\
  mappedSize_ b = ceil_div f p * p /\
  f <= mappedSize_ b /\
  w_trace w' = (w_trace w ++ [EvFile (FOpen path true); EvFile (FStat path true);
                              EvFile (FMmap path (ceil_div f p * p) true)])%list /\
  (tz = true -> (size_ b = f + 1 <-> f mod p <> 0)) /\
  (~ (tz = true /\ f mod p <> 0) -> size_ b = f).
Proof.
  intros Hnode Hf Hp Hrun. cbv zeta.
  set (f := st_size node) in *. set (p := pageSize (w_env w)) in *.
  assert (Hpath : NDEBUG (w_env w) = true \/ path <> "").
  { destruct (NDEBUG (w_env w)) eqn:Hnd; [left; reflexivity|right].
    intros ->. unfold MappedFileBuffer_new, bind, gets, abort, stop_with in Hrun.
    rewrite Hnd in Hrun. simpl in Hrun. discriminate. }
  rewrite (MappedFileBuffer_new_opened w path tz node Hnode Hpath) in Hrun.
  assert (Hfs : to_size_t (st_size node) = f).
  { apply to_size_t_small. unfold LONG_MAX in Hf. lia. }
  destruct (fstat_fails node); [discriminate|].
  cbv zeta in Hrun. fold p in Hrun. rewrite Hfs in Hrun.
  rewrite (mappedSize_of_ceil f p Hf Hp) in Hrun.
  rewrite (size_of_cases f p tz Hf Hp) in Hrun.
  destruct (mmap_ok node _); [|discriminate].
  injection Hrun as <- <-. simpl.
  pose proof (ceil_div_bounds f p ltac:(lia)) as Hb.
  repeat split; try lia; try reflexivity.
  - destruct tz; simpl; [|discriminate].
    destruct (f mod p =? 0) eqn:Hm; simpl; intros; [lia|].
    apply Z.eqb_neq in Hm. exact Hm.
  - intros Hm. subst tz. simpl.
    destruct (f mod p =? 0) eqn:He; [|reflexivity].
    apply Z.eqb_eq in He. contradiction.
  - intros Hn. destruct tz; simpl; [|reflexivity].
    destruct (f mod p =? 0) eqn:He; [reflexivity|].
    apply Z.eqb_neq in He. exfalso. apply Hn. split; [reflexivity|exact He].
Qed.

(** A bundle of 10000 bytes on pages of 4096 bytes: three pages are mapped,
    and the logical size counts the terminator. *)
Lemma mapped_buffer_sizes_witness :
  let w := Demo.boot_world 2 "bundle.js" 0 in
  let b := {| path_ := "bundle.js"; fileSize_ := 10000; mappedSize_ := 12288;
              size_ := 10001 |} in
  let w' := set_w_trace [EvFile (FOpen "bundle.js" true); EvFile (FStat "bundle.js" true);
                         EvFile (FMmap "bundle.js" 12288 true)] w in
  MappedFileBuffer_new "bundle.js" true w = (Ret b, w') /\
  mappedSize_ b = ceil_div 10000 4096 * 4096 /\
  10000 <= mappedSize_ b /\
  (size_ b = 10000 + 1 <-> 10000 mod 4096 <> 0).
Proof.
  intros w b w'.
  assert (Hrun : MappedFileBuffer_new "bundle.js" true w = (Ret b, w'))
    by (vm_compute; reflexivity).
  split; [exact Hrun|].
  destruct (mapped_buffer_sizes w w' "bundle.js" true (Demo.node 10000) b)
    as (_ & Hm & Hle & _ & Htz & _).
  - vm_compute. reflexivity.
  - simpl. unfold LONG_MAX. lia.
  - simpl. unfold LONG_MAX. lia.
  - exact Hrun.
  - split; [exact Hm|]. split; [exact Hle|]. apply Htz. reflexivity.
Defined.

(** C6, as amended.  For a file of length zero the rounded size is zero,
    not the page size: [mmap] is asked for zero bytes.  Where that request
    succeeds the buffer has [mappedSize_ = 0] and, with or without a
    trailing zero requested, the logical size 0; where it fails the
    constructor closes the file and throws. *)
Theorem empty_file_sizes {H} (w : world H) path tz node :
  files (w_env w) !! path = Some node ->
  st_size node = 0 ->
  fstat_fails node = false ->
  (NDEBUG (w_env w) = true \/ path <> "") ->
  0 < pageSize (w_env w) <= LONG_MAX ->
  MappedFileBuffer_new path tz w =
    if mmap_ok node 0 then
      (Ret {| path_ := path; fileSize_ := 0; mappedSize_ := 0; size_ := 0 |},
       set_w_trace (w_trace w ++ [EvFile (FOpen path true); EvFile (FStat path true);
                                  EvFile (FMmap path 0 true)]) w)
    else
      (Stop (Throw (runtime_error ("Failed to mmap React bundle: " ++ path))),
       set_w_trace (w_trace w ++ [EvFile (FOpen path true); EvFile (FStat path true);
                                  EvFile (FMmap path 0 false);
                                  EvFile (FClose path)]) w).
Proof.
  intros Hnode Hsz Hst Hpath Hp.
  rewrite (MappedFileBuffer_new_opened w path tz node Hnode Hpath).
  rewrite Hst, Hsz. cbv zeta.
  change (to_size_t 0) with 0.
  rewrite (mappedSize_of_ceil 0 _ ltac:(unfold LONG_MAX; lia) Hp).
  rewrite (size_of_cases 0 _ tz ltac:(unfold LONG_MAX; lia) Hp).
  assert (Hc : ceil_div 0 (pageSize (w_env w)) * pageSize (w_env w) = 0).
  { unfold ceil_div. simpl. reflexivity. }
  rewrite Hc.
  assert (Hz : (if tz && negb (0 mod pageSize (w_env w) =? 0) then 0 + 1 else 0) = 0).
  { rewrite Z.mod_0_l by lia. simpl. rewrite andb_false_r. reflexivity. }
  rewrite Hz. reflexivity.
Qed.

Lemma empty_file_sizes_witness :
  let w := Demo.boot_world 2 "empty.js" 0 in
  files (w_env w) !! "empty.js" = Some (Demo.node 0) /\
  MappedFileBuffer_new "empty.js" true w =
    (Stop (Throw (runtime_error "Failed to mmap React bundle: empty.js")),
     set_w_trace [EvFile (FOpen "empty.js" true); EvFile (FStat "empty.js" true);
                  EvFile (FMmap "empty.js" 0 false); EvFile (FClose "empty.js")] w).
Proof.
  intros w.
  assert (Hnode : files (w_env w) !! "empty.js" = Some (Demo.node 0))
    by (vm_compute; reflexivity).
  split; [exact Hnode|].
  rewrite (empty_file_sizes w "empty.js" true (Demo.node 0) Hnode).
  - reflexivity.
  - reflexivity.
  - reflexivity.
  - left. reflexivity.
  - simpl. unfold LONG_MAX. lia.
Defined.

(** C6 as it was stated fails: for the empty file on pages of 4096 bytes
    the size asked of [mmap] is 0, not 4096. *)
Lemma empty_file_not_page_size :
  let w := Demo.boot_world 2 "empty.js" 0 in
  mappedSize_of (to_size_t 0) (pageSize (w_env w)) <> pageSize (w_env w) /\
  In (EvFile (FMmap "empty.js" 0 false))
     (w_trace (snd (MappedFileBuffer_new "empty.js" true w))) /\
  ~ In (EvFile (FMmap "empty.js" 4096 true))
       (w_trace (snd (MappedFileBuffer_new "empty.js" true w))).
Proof.
  vm_compute. split; [discriminate|]. split.
  - right. right. left. reflexivity.
  - intros [Hx|[Hx|[Hx|[Hx|[]]]]]; discriminate.
Qed.

(* ================================================================= *)
(** ** The image registry *)

Lemma invalid_index_true index (images : list Image) :
  INT_MIN <= index <= INT_MAX ->
  index < 0 \/ Z.of_nat (length images) <= index ->
  invalid_index index images = true.
Proof.
  unfold INT_MIN, INT_MAX, invalid_index. intros Hr Hi.
  destruct (index <? 0) eqn:Hneg; [reflexivity|]. simpl.
  apply Z.ltb_ge in Hneg. rewrite to_size_t_small by lia.
  apply Z.geb_le. lia.
Qed.

Lemma invalid_index_false index (images : list Image) :
  INT_MIN <= index <= INT_MAX ->
  0 <= index < Z.of_nat (length images) ->
  invalid_index index images = false.
Proof.
  unfold INT_MIN, INT_MAX, invalid_index. intros Hr Hi.
  apply orb_false_iff. split; [apply Z.ltb_ge; lia|].
  rewrite to_size_t_small by lia.
  destruct (index >=? Z.of_nat (length images)) eqn:Hge; [|reflexivity].
  apply Z.geb_le in Hge. lia.
Qed.

(** C10.  For every [int] index that is negative or not below the number
    of loaded images, [image_width] and [image_height] return 0 and
    [image_simgui_image] returns the null pointer, after one error is
    logged; the process goes on and the registry is as before.  For an
    index in range they return the width, the height and the address of
    the toolkit handle of the image stored at that index, and change
    nothing. *)
Theorem image_accessors {H} (w : world H) (index : Z) :
  INT_MIN <= index <= INT_MAX ->
  let images := s_images (w_statics w) in
  (index < 0 \/ Z.of_nat (length images) <= index ->
   let w' := set_w_trace (w_trace w ++ [EvSlog "ERROR" "Invalid image index"]) w in
   image_width index w = (Ret 0, w') /\
   image_height index w = (Ret 0, w') /\
   image_simgui_image index w = (Ret nullptr, w') /\
   w_statics w' = w_statics w) /\
  (0 <= index < Z.of_nat (length images) ->
   exists img p,
     images !! Z.to_nat index = Some img /\
     image_width index w = (Ret (w_ img), w) /\
     image_height index w = (Ret (h_ img), w) /\
     image_simgui_image index w = (Ret p, w) /\
     deref images p = Some (simguiImage_ img)).
Proof.
  intros Hr images. split.
  - intros Hi.
    pose proof (invalid_index_true index images Hr Hi) as Hinv.
    unfold image_width, image_height, image_simgui_image, bind, gets, slog_func,
      emit, ret. fold images. rewrite Hinv. simpl. repeat split; reflexivity.
  - intros Hi.
    pose proof (invalid_index_false index images Hr Hi) as Hinv.
    destruct (images !! Z.to_nat index) as [img|] eqn:Hlk.
    + exists img, (addr_simguiImage_ (Z.to_nat index)).
      unfold image_width, image_height, image_simgui_image, bind, gets, ret.
      fold images. rewrite Hinv, Hlk. simpl. rewrite Hlk.
      repeat split; reflexivity.
    + apply lookup_ge_None in Hlk. lia.
Qed.

Lemma image_accessors_witness :
  let w := Demo.running_world ∅ [] false
             (set_s_images Demo.some_images statics_init) 0 in
  let w' := set_w_trace [EvSlog "ERROR" "Invalid image index"] w in
  (INT_MIN <= 2 <= INT_MAX /\ image_width 2 w = (Ret 0, w') /\
   image_simgui_image (-1) w = (Ret nullptr, w')) /\
  (image_width 1 w = (Ret 800, w) /\ image_height 1 w = (Ret 600, w) /\
   deref Demo.some_images (addr_simguiImage_ 1) = Some 102).
Proof.
  intros w w'.
  assert (H2 : INT_MIN <= 2 <= INT_MAX) by (unfold INT_MIN, INT_MAX; lia).
  assert (Hm : INT_MIN <= -1 <= INT_MAX) by (unfold INT_MIN, INT_MAX; lia).
  assert (H1 : INT_MIN <= 1 <= INT_MAX) by (unfold INT_MIN, INT_MAX; lia).
  split.
  - split; [exact H2|].
    destruct (image_accessors w 2 H2) as [Hout _].
    destruct (image_accessors w (-1) Hm) as [Hneg _].
    destruct Hout as (Hw & _); [right; simpl; lia|].
    destruct Hneg as (_ & _ & Hp & _); [left; lia|].
    split; [exact Hw|exact Hp].
  - destruct (image_accessors w 1 H1) as [_ Hin].
    destruct Hin as (img & p & Hlk & Hw & Hh & Hp & Hd); [simpl; lia|].
    vm_compute in Hlk. injection Hlk as <-.
    split; [exact Hw|]. split; [exact Hh|]. reflexivity.
Defined.

(* ================================================================= *)
(** ** Config projection *)

Lemma READ_INT_PROP_as_set config name set get default_val desc :
  (forall d, set (get d) d = d) ->
  READ_INT_PROP config name set default_val desc =
    set (projected_int config name default_val (get desc)) desc.
Proof.
  intros Hsg. unfold READ_INT_PROP, projected_int, hasProperty, getProperty.
  destruct (config !! name) as [[]|]; rewrite ?Hsg; reflexivity.
Qed.

Lemma READ_BOOL_PROP_as_set config name set get desc :
  (forall d, set (get d) d = d) ->
  READ_BOOL_PROP config name set desc =
    set (projected_bool config name (get desc)) desc.
Proof.
  intros Hsg. unfold READ_BOOL_PROP, projected_bool, hasProperty, getProperty.
  destruct (config !! name) as [[]|]; rewrite ?Hsg; reflexivity.
Qed.

Lemma read_title_as_set config desc :
  read_title config desc =
    set_window_title (projected_title config (window_title desc)) desc.
Proof.
  unfold read_title, projected_title, hasProperty, getProperty.
  destruct (config !! "title") as [[]|]; destruct desc; reflexivity.
Qed.

(** The projection, field by field. *)
Lemma read_sappConfig_fields config desc :
  read_sappConfig config desc =
  {| init_cb := init_cb desc; frame_cb := frame_cb desc;
     cleanup_cb := cleanup_cb desc; event_cb := event_cb desc;
     window_title := projected_title config (window_title desc);
     width := projected_int config "width" 0 (width desc);
     height := projected_int config "height" 0 (height desc);
     sample_count := projected_int config "sample_count" 1 (sample_count desc);
     swap_interval := projected_int config "swap_interval" 1 (swap_interval desc);
     clipboard_size := projected_int config "clipboard_size" 8192 (clipboard_size desc);
     max_dropped_files :=
       projected_int config "max_dropped_files" 1 (max_dropped_files desc);
     max_dropped_file_path_length :=
       projected_int config "max_dropped_file_path_length" 2048
         (max_dropped_file_path_length desc);
     fullscreen := projected_bool config "fullscreen" (fullscreen desc);
     high_dpi := projected_bool config "high_dpi" (high_dpi desc);
     alpha := projected_bool config "alpha" (alpha desc);
     enable_clipboard := projected_bool config "enable_clipboard" (enable_clipboard desc);
     enable_dragndrop := projected_bool config "enable_dragndrop" (enable_dragndrop desc) |}.
Proof.
  unfold read_sappConfig.
  rewrite read_title_as_set.
  rewrite (READ_INT_PROP_as_set config "width" set_width width)
    by (intros []; reflexivity).
  rewrite (READ_INT_PROP_as_set config "height" set_height height)
    by (intros []; reflexivity).
  rewrite (READ_INT_PROP_as_set config "sample_count" set_sample_count sample_count)
    by (intros []; reflexivity).
  rewrite (READ_INT_PROP_as_set config "swap_interval" set_swap_interval swap_interval)
    by (intros []; reflexivity).
  rewrite (READ_INT_PROP_as_set config "clipboard_size" set_clipboard_size clipboard_size)
    by (intros []; reflexivity).
  rewrite (READ_INT_PROP_as_set config "max_dropped_files" set_max_dropped_files
             max_dropped_files) by (intros []; reflexivity).
  rewrite (READ_INT_PROP_as_set config "max_dropped_file_path_length"
             set_max_dropped_file_path_length max_dropped_file_path_length)
    by (intros []; reflexivity).
  rewrite (READ_BOOL_PROP_as_set config "fullscreen" set_fullscreen fullscreen)
    by (intros []; reflexivity).
  rewrite (READ_BOOL_PROP_as_set config "high_dpi" set_high_dpi high_dpi)
    by (intros []; reflexivity).
  rewrite (READ_BOOL_PROP_as_set config "alpha" set_alpha alpha)
    by (intros []; reflexivity).
  rewrite (READ_BOOL_PROP_as_set config "enable_clipboard" set_enable_clipboard
             enable_clipboard) by (intros []; reflexivity).
  rewrite (READ_BOOL_PROP_as_set config "enable_dragndrop" set_enable_dragndrop
             enable_dragndrop) by (intros []; reflexivity).
  destruct desc. reflexivity.
Qed.

Lemma read_sappConfig_int config (f : int_field) :
  int_field_get f (read_sappConfig config sapp_desc_default) =
  projected_int config (int_field_name f) (int_field_default f) 0.
Proof. rewrite read_sappConfig_fields. destruct f; reflexivity. Qed.

Lemma read_sappConfig_bool config (g : bool_field) :
  bool_field_get g (read_sappConfig config sapp_desc_default) =
  projected_bool config (bool_field_name g) false.
Proof. rewrite read_sappConfig_fields. destruct g; reflexivity. Qed.

(* ================================================================= *)
(** ** Doubles and the native integer range *)

Lemma digits2_pos_bounds m :
  2 ^ (Zpos (digits2_pos m) - 1) <= Zpos m < 2 ^ Zpos (digits2_pos m).
Proof.
  induction m as [m IH|m IH|]; simpl digits2_pos.
  - rewrite Pos2Z.inj_succ.
    replace (Z.succ (Zpos (digits2_pos m)) - 1) with (Z.succ (Zpos (digits2_pos m) - 1)) by lia.
    rewrite !Z.pow_succ_r by lia. lia.
  - rewrite Pos2Z.inj_succ.
    replace (Z.succ (Zpos (digits2_pos m)) - 1) with (Z.succ (Zpos (digits2_pos m) - 1)) by lia.
    rewrite !Z.pow_succ_r by lia. lia.
  - simpl. lia.
Qed.

Lemma valid_finite_facts s m e :
  valid_binary prec emax (S754_finite s m e) = true ->
  -1074 <= e <= 971 /\ Zpos m < 2 ^ 53 /\ (-1074 < e -> 2 ^ 52 <= Zpos m).
Proof.
  unfold valid_binary, bounded, canonical_mantissa, fexp, emin, prec, emax.
  intros Hv. apply andb_true_iff in Hv. destruct Hv as [Hc Hb].
  apply Z.eqb_eq in Hc. apply Z.leb_le in Hb.
  pose proof (digits2_pos_bounds m) as Hd.
  set (dg := Zpos (digits2_pos m)) in *.
  assert (Hdg : dg <= 53) by lia.
  split; [lia|]. split.
  - apply Z.lt_le_trans with (2 ^ dg); [lia|]. apply Z.pow_le_mono_r; lia.
  - intros He. assert (dg = 53) by lia. replace (52) with (dg - 1) by lia. lia.
Qed.

Lemma INT_MAX_double : double_of_Z INT_MAX = S754_finite false 9007199250546688 (-22).
Proof. vm_compute. reflexivity. Qed.
Lemma INT_MIN_double : double_of_Z INT_MIN = S754_finite true 4503599627370496 (-21).
Proof. vm_compute. reflexivity. Qed.

(** Comparing [m * 2^(e+K)] with [n * 2^K] without computing the powers. *)
Lemma scaled_lt_iff m n e K :
  e < 0 -> 0 <= e + K ->
  (n * 2 ^ K < m * 2 ^ (e + K) <-> n * 2 ^ (- e) < m).
Proof.
  intros He HK.
  assert (Hs : 2 ^ K = 2 ^ (e + K) * 2 ^ (- e)).
  { rewrite <- Z.pow_add_r by lia. f_equal. lia. }
  rewrite Hs.
  assert (0 < 2 ^ (e + K)) by (apply Z.pow_pos_nonneg; lia).
  generalize dependent (2 ^ (e + K)). generalize (2 ^ (- e)). intros C B _ HB.
  split; intros; nia.
Qed.

Lemma scaled_value_finite s m e :
  scaled_value (S754_finite s m e) = (if s then -1 else 1) * (Zpos m * 2 ^ (e + 1074)).
Proof. reflexivity. Qed.

Lemma dgt_INT_MAX_exact d :
  valid_binary prec emax d = true -> isfinite d = true ->
  (dgt d (double_of_Z INT_MAX) = true <-> scale INT_MAX < scaled_value d).
Proof.
  intros Hv Hf. rewrite INT_MAX_double. unfold dgt, SFltb, scale, INT_MAX.
  destruct d as [s| |  |s m e]; try discriminate.
  - cbn [scaled_value SFcompare]. split; [discriminate|].
    assert (0 < 2 ^ 1074) by (apply Z.pow_pos_nonneg; lia).
    generalize dependent (2 ^ 1074). intros; lia.
  - pose proof (valid_finite_facts s m e Hv) as (He & Hm & Hn).
    rewrite scaled_value_finite. remember 1074 as K eqn:HK.
    assert (HA : 0 < 2 ^ K) by (apply Z.pow_pos_nonneg; lia).
    assert (HB : 0 < 2 ^ (e + K)) by (apply Z.pow_pos_nonneg; lia).
    cbn [SFcompare].
    destruct s.
    + split; [discriminate|]. intros Hlt. exfalso.
      generalize dependent (2 ^ K). generalize dependent (2 ^ (e + K)). intros; nia.
    + rewrite Z.mul_1_l.
      destruct (Z_lt_le_dec e 0) as [Hneg|Hpos].
      * rewrite scaled_lt_iff by lia. clear HA HB HK.
        destruct (Z.compare_spec (-22) e) as [Heq|Hlt|Hgt].
        -- subst e. rewrite Pos.compare_cont_spec. cbn [CompOpp].
           change (2 ^ (- -22)) with 4194304.
           rewrite Pos2Z.inj_compare.
           destruct (Z.compare_spec 9007199250546688 (Z.pos m)) as [Hq|Hq|Hq]; cbn [Pos.switch_Eq].
           ++ split; [discriminate|]. lia.
           ++ split; [intros _|reflexivity]. lia.
           ++ split; [discriminate|]. lia.
        -- split; [intros _|reflexivity].
           specialize (Hn ltac:(lia)).
           assert (2 ^ (- e) <= 2 ^ 21) by (apply Z.pow_le_mono_r; lia).
           change (2 ^ 21) with 2097152 in *. change (2 ^ 52) with 4503599627370496 in *.
           lia.
        -- split; [discriminate|]. intros Hlt.
           assert (2 ^ 23 <= 2 ^ (- e)) by (apply Z.pow_le_mono_r; lia).
           change (2 ^ 23) with 8388608 in *. change (2 ^ 53) with 9007199254740992 in *.
           lia.
      * destruct (Z.compare_spec (-22) e) as [Heq|Hlt|Hgt]; try lia.
        split; [intros _|reflexivity].
        specialize (Hn ltac:(lia)).
        assert (2 ^ K <= 2 ^ (e + K)) by (apply Z.pow_le_mono_r; lia).
        change (2 ^ 52) with 4503599627370496 in *.
        generalize dependent (2 ^ K). generalize dependent (2 ^ (e + K)). intros; nia.
Qed.


Lemma dlt_INT_MIN_exact d :
  valid_binary prec emax d = true -> isfinite d = true ->
  (dlt d (double_of_Z INT_MIN) = true <-> scaled_value d < scale INT_MIN).
Proof.
  intros Hv Hf. rewrite INT_MIN_double. unfold dlt, SFltb, scale, INT_MIN.
  destruct d as [s| |  |s m e]; try discriminate.
  - cbn [scaled_value SFcompare]. split; [discriminate|].
    assert (0 < 2 ^ 1074) by (apply Z.pow_pos_nonneg; lia).
    generalize dependent (2 ^ 1074). intros; lia.
  - pose proof (valid_finite_facts s m e Hv) as (He & Hm & Hn).
    rewrite scaled_value_finite. remember 1074 as K eqn:HK.
    assert (HA : 0 < 2 ^ K) by (apply Z.pow_pos_nonneg; lia).
    assert (HB : 0 < 2 ^ (e + K)) by (apply Z.pow_pos_nonneg; lia).
    cbn [SFcompare].
    destruct s.
    + assert (Hiff : -1 * (Z.pos m * 2 ^ (e + K)) < -2147483648 * 2 ^ K <->
                     2147483648 * 2 ^ K < Z.pos m * 2 ^ (e + K)) by lia.
      rewrite Hiff. clear Hiff.
      destruct (Z_lt_le_dec e 0) as [Hneg|Hpos].
      * rewrite scaled_lt_iff by lia. clear HA HB HK.
        destruct (Z.compare_spec e (-21)) as [Heq|Hlt|Hgt].
        -- subst e. rewrite Pos.compare_cont_spec, Pos2Z.inj_compare.
           change (2 ^ (- -21)) with 2097152.
           destruct (Z.compare_spec (Z.pos m) 4503599627370496) as [Hq|Hq|Hq];
             cbn [Pos.switch_Eq CompOpp].
           ++ split; [discriminate|]. lia.
           ++ split; [discriminate|]. lia.
           ++ split; [intros _|reflexivity]. lia.
        -- split; [discriminate|]. intros Hlt'.
           assert (2 ^ 22 <= 2 ^ (- e)) by (apply Z.pow_le_mono_r; lia).
           change (2 ^ 22) with 4194304 in *. change (2 ^ 53) with 9007199254740992 in *.
           lia.
        -- split; [intros _|reflexivity].
           specialize (Hn ltac:(lia)).
           assert (2 ^ (- e) <= 2 ^ 20) by (apply Z.pow_le_mono_r; lia).
           change (2 ^ 20) with 1048576 in *. change (2 ^ 52) with 4503599627370496 in *.
           lia.
      * destruct (Z.compare_spec e (-21)) as [Heq|Hlt|Hgt]; try lia.
        split; [intros _|reflexivity].
        specialize (Hn ltac:(lia)).
        assert (2 ^ K <= 2 ^ (e + K)) by (apply Z.pow_le_mono_r; lia).
        change (2 ^ 52) with 4503599627370496 in *.
        clear HK.
        generalize dependent (2 ^ K). generalize dependent (2 ^ (e + K)). intros; nia.
    + split; [discriminate|]. intros Hlt. exfalso. clear HK.
      generalize dependent (2 ^ K). generalize dependent (2 ^ (e + K)). intros; nia.
Qed.

(** The integer part: [trunc_to_Z d] is the integer nearest to zero-ward of
    the value of [d]. *)
Lemma trunc_to_Z_spec s m e :
  -1074 <= e ->
  let t := trunc_to_Z (S754_finite s m e) in
  if s then scale (t - 1) < scaled_value (S754_finite s m e) <= scale t /\ t <= 0
  else scale t <= scaled_value (S754_finite s m e) < scale (t + 1) /\ 0 <= t.
Proof.
  intros He. cbv zeta. unfold trunc_to_Z. rewrite scaled_value_finite. unfold scale.
  remember 1074 as K eqn:HK.
  set (a := match e with
            | 0 => Z.pos m
            | Z.pos k => Z.shiftl (Z.pos m) (Z.pos k)
            | Z.neg k => Z.shiftr (Z.pos m) (Z.pos k)
            end).
  assert (Ha : 0 <= a /\ a * 2 ^ K <= Z.pos m * 2 ^ (e + K) < (a + 1) * 2 ^ K).
  { subst a. destruct e as [|k|k].
    - rewrite Z.add_0_l.
      assert (0 < 2 ^ K) by (apply Z.pow_pos_nonneg; lia). clear HK.
      generalize dependent (2 ^ K). intros; nia.
    - rewrite Z.shiftl_mul_pow2 by lia. rewrite Z.pow_add_r by lia.
      assert (0 < 2 ^ K) by (apply Z.pow_pos_nonneg; lia).
      assert (0 < 2 ^ Z.pos k) by (apply Z.pow_pos_nonneg; lia). clear HK.
      generalize dependent (2 ^ K). generalize dependent (2 ^ Z.pos k). intros; nia.
    - rewrite Z.shiftr_div_pow2 by lia.
      assert (Hs : 2 ^ K = 2 ^ (Z.neg k + K) * 2 ^ Z.pos k).
      { rewrite <- Z.pow_add_r by lia. f_equal. lia. }
      rewrite Hs.
      assert (HB : 0 < 2 ^ (Z.neg k + K)) by (apply Z.pow_pos_nonneg; lia).
      assert (HC : 0 < 2 ^ Z.pos k) by (apply Z.pow_pos_nonneg; lia).
      pose proof (Z.div_mod (Z.pos m) (2 ^ Z.pos k) ltac:(lia)) as Hdm.
      pose proof (Z.mod_pos_bound (Z.pos m) (2 ^ Z.pos k) HC) as Hmb.
      assert (Hq : 0 <= Z.pos m / 2 ^ Z.pos k) by (apply Z.div_pos; lia).
      clear HK Hs He.
      generalize dependent (Z.pos m / 2 ^ Z.pos k).
      generalize dependent (Z.pos m mod 2 ^ Z.pos k).
      generalize dependent (2 ^ (Z.neg k + K)). generalize dependent (2 ^ Z.pos k).
      intros C HC B HB r Hr q Hq Hq0. split; [exact Hq0|]. split; nia. }
  clear HK He. destruct Ha as (Ha0 & Hlo & Hhi).
  generalize dependent (2 ^ K). generalize dependent (2 ^ (e + K)).
  intros B A HloA HhiA.
  destruct s; split; try lia.
Qed.

(** [safe_double_to_int] on every binary64 number: the default for a NaN or
    an infinity, the bound of [int] that a finite value lies beyond, and
    otherwise the integer part, which is then an [int]. *)
Lemma safe_double_to_int_spec d default_val :
  valid_binary prec emax d = true ->
  (isfinite d = false -> safe_double_to_int d default_val = default_val) /\
  (isfinite d = true -> scale INT_MAX < scaled_value d ->
   safe_double_to_int d default_val = INT_MAX) /\
  (isfinite d = true -> scaled_value d < scale INT_MIN ->
   safe_double_to_int d default_val = INT_MIN) /\
  (isfinite d = true -> scale INT_MIN <= scaled_value d <= scale INT_MAX ->
   safe_double_to_int d default_val = trunc_to_Z d /\
   INT_MIN <= trunc_to_Z d <= INT_MAX).
Proof.
  intros Hv. unfold safe_double_to_int.
  split; [intros ->; reflexivity|].
  assert (Hpos : 0 < 2 ^ 1074) by (apply Z.pow_pos_nonneg; lia).
  split; [|split].
  - intros Hf Hgt. rewrite Hf. simpl negb. cbv iota.
    apply (dgt_INT_MAX_exact d Hv Hf) in Hgt. rewrite Hgt. reflexivity.
  - intros Hf Hlt. rewrite Hf. simpl negb. cbv iota.
    destruct (dgt d (double_of_Z INT_MAX)) eqn:Hgt.
    + apply (dgt_INT_MAX_exact d Hv Hf) in Hgt. exfalso.
      unfold scale, INT_MAX, INT_MIN in *.
      generalize dependent (2 ^ 1074). intros; nia.
    + apply (dlt_INT_MIN_exact d Hv Hf) in Hlt. rewrite Hlt. reflexivity.
  - intros Hf [Hlo Hhi]. rewrite Hf. simpl negb. cbv iota.
    destruct (dgt d (double_of_Z INT_MAX)) eqn:Hgt.
    { apply (dgt_INT_MAX_exact d Hv Hf) in Hgt. lia. }
    destruct (dlt d (double_of_Z INT_MIN)) eqn:Hlt.
    { apply (dlt_INT_MIN_exact d Hv Hf) in Hlt. lia. }
    split; [reflexivity|].
    destruct d as [s| | |s m e]; try discriminate.
    + unfold INT_MIN, INT_MAX. simpl. lia.
    + pose proof (valid_finite_facts s m e Hv) as (He & _ & _).
      pose proof (trunc_to_Z_spec s m e ltac:(lia)) as Ht. cbv zeta in Ht.
      set (t := trunc_to_Z (S754_finite s m e)) in *.
      set (x := scaled_value (S754_finite s m e)) in *.
      clearbody t x. unfold scale, INT_MIN, INT_MAX in *.
      set (A := 2 ^ 1074) in *. clearbody A.
      destruct s; destruct Ht as [[Ht1 Ht2] Ht3]; split; nia.
Qed.

Lemma populate_with_config {H} (w : world H) config :
  vm_globals (w_vm w) !! "sappConfig" = Some (JSObject config) ->
  populate_sapp_desc_from_config w =
    (Ret tt, set_w_statics
               (set_s_app_desc (read_sappConfig config sapp_desc_default) (w_statics w)) w).
Proof.
  intros Hcfg.
  unfold populate_sapp_desc_from_config, bind, global, gets, hasProperty,
    getPropertyAsObject, getProperty, lift_jsi, ret, modify_statics.
  rewrite Hcfg. reflexivity.
Qed.

(** C5.  Config projection, for every numeric field: it is applied only if
    the VM value is a number (otherwise the field keeps its zero); a NaN or
    an infinity gives the default passed by the caller; a finite number
    above the range of [int] gives [INT_MAX] and one below it [INT_MIN];
    a number within the range gives its integer part.  For every boolean
    field: a boolean is applied, anything else (a number, say) is ignored
    and the field keeps its default [false]. *)
Theorem config_projection {H} (w : world H) (config : gmap string jsvalue) :
  vm_globals (w_vm w) !! "sappConfig" = Some (JSObject config) ->
  exists desc,
    populate_sapp_desc_from_config w =
      (Ret tt, set_w_statics (set_s_app_desc desc (w_statics w)) w) /\
    (forall f : int_field,
       match config !! int_field_name f with
       | Some (JSNumber d) =>
           valid_binary prec emax d = true ->
           (isfinite d = false -> int_field_get f desc = int_field_default f) /\
           (isfinite d = true -> scale INT_MAX < scaled_value d ->
            int_field_get f desc = INT_MAX) /\
           (isfinite d = true -> scaled_value d < scale INT_MIN ->
            int_field_get f desc = INT_MIN) /\
           (isfinite d = true -> scale INT_MIN <= scaled_value d <= scale INT_MAX ->
            int_field_get f desc = trunc_to_Z d /\ INT_MIN <= trunc_to_Z d <= INT_MAX)
       | _ => int_field_get f desc = 0
       end) /\
    (forall g : bool_field,
       match config !! bool_field_name g with
       | Some (JSBool b) => bool_field_get g desc = b
       | _ => bool_field_get g desc = false
       end).
Proof.
  intros Hcfg. exists (read_sappConfig config sapp_desc_default).
  split; [apply populate_with_config; exact Hcfg|]. split.
  - intros f. rewrite read_sappConfig_int. unfold projected_int.
    destruct (config !! int_field_name f) as [[]|]; try reflexivity.
    intros Hv. apply safe_double_to_int_spec. exact Hv.
  - intros g. rewrite read_sappConfig_bool. unfold projected_bool.
    destruct (config !! bool_field_name g) as [[]|]; reflexivity.
Qed.

Lemma config_projection_witness :
  let w := Demo.running_world
             (<["sappConfig" := JSObject Demo.the_config]> Demo.running_globals)
             [] false statics_init 0 in
  vm_globals (w_vm w) !! "sappConfig" = Some (JSObject Demo.the_config) /\
  exists desc,
    populate_sapp_desc_from_config w =
      (Ret tt, set_w_statics (set_s_app_desc desc (w_statics w)) w) /\
    width desc = INT_MAX /\ height desc = INT_MIN /\
    sample_count desc = 1 /\ swap_interval desc = 1 /\
    clipboard_size desc = 0 /\ max_dropped_files desc = 3 /\
    fullscreen desc = false /\ high_dpi desc = true.
Proof.
  intros w.
  assert (Hcfg : vm_globals (w_vm w) !! "sappConfig" = Some (JSObject Demo.the_config))
    by (vm_compute; reflexivity).
  split; [exact Hcfg|].
  destruct (config_projection w Demo.the_config Hcfg) as (desc & Hrun & Hint & Hbool).
  exists desc. split; [exact Hrun|].
  pose proof (Hint F_width) as Hw.
  pose proof (Hint F_height) as Hh.
  pose proof (Hint F_sample_count) as Hsc.
  pose proof (Hint F_swap_interval) as Hsi.
  pose proof (Hint F_clipboard_size) as Hcs.
  pose proof (Hint F_max_dropped_files) as Hmf.
  pose proof (Hbool F_fullscreen) as Hfu.
  pose proof (Hbool F_high_dpi) as Hhd.
  simpl int_field_name in *. simpl bool_field_name in *.
  simpl int_field_get in *. simpl bool_field_get in *. simpl int_field_default in *.
  replace (Demo.the_config !! "width")
    with (Some (JSNumber (double_of_Z 10000000000))) in Hw by (vm_compute; reflexivity).
  replace (Demo.the_config !! "height")
    with (Some (JSNumber (double_of_Z (-10000000000)))) in Hh by (vm_compute; reflexivity).
  replace (Demo.the_config !! "sample_count")
    with (Some (JSNumber S754_nan)) in Hsc by (vm_compute; reflexivity).
  replace (Demo.the_config !! "swap_interval")
    with (Some (JSNumber (S754_infinity false))) in Hsi by (vm_compute; reflexivity).
  replace (Demo.the_config !! "clipboard_size")
    with (Some (JSString "big")) in Hcs by (vm_compute; reflexivity).
  replace (Demo.the_config !! "max_dropped_files")
    with (Some (JSNumber (ddiv (double_of_Z 7) (double_of_Z 2)))) in Hmf
    by (vm_compute; reflexivity).
  replace (Demo.the_config !! "fullscreen")
    with (Some (JSNumber (double_of_Z 1))) in Hfu by (vm_compute; reflexivity).
  replace (Demo.the_config !! "high_dpi")
    with (Some (JSBool true)) in Hhd by (vm_compute; reflexivity).
  destruct (Hw ltac:(vm_compute; reflexivity)) as (_ & Hmax & _).
  destruct (Hh ltac:(vm_compute; reflexivity)) as (_ & _ & Hmin & _).
  destruct (Hsc ltac:(vm_compute; reflexivity)) as (Hnan & _).
  destruct (Hsi ltac:(vm_compute; reflexivity)) as (Hinf & _).
  destruct (Hmf ltac:(vm_compute; reflexivity)) as (_ & _ & _ & Htr).
  split; [apply Hmax; vm_compute; reflexivity|].
  split; [apply Hmin; vm_compute; reflexivity|].
  split; [apply Hnan; reflexivity|].
  split; [apply Hinf; reflexivity|].
  split; [exact Hcs|].
  split.
  { destruct Htr as [Ht _]; [reflexivity|vm_compute; split; discriminate|].
    rewrite Ht. vm_compute. reflexivity. }
  split; [exact Hfu|exact Hhd].
Defined.

(* ================================================================= *)
(** ** Loading a unit *)

Lemma set_w_trace_same {H} (w : world H) : set_w_trace (w_trace w ++ []) w = w.
Proof. rewrite app_nil_r. destruct w. reflexivity. Qed.

(** Mapping a file reads the environment only: in two worlds with the same
    environment it ends the same way and adds the same events, the first
    of which is the [open] of the path. *)
Lemma mapFileBuffer_env {H} (w : world H) path tz :
  exists evs,
    (forall w2 : world H, w_env w2 = w_env w ->
       mapFileBuffer path tz w2 =
         (fst (mapFileBuffer path tz w), set_w_trace (w_trace w2 ++ evs) w2)) /\
    (fst (mapFileBuffer path tz w) <> Stop Abort ->
     exists ok rest, evs = EvFile (FOpen path ok) :: rest) /\
    (forall b, fst (mapFileBuffer path tz w) = Ret b -> path_ b = path) /\
    (forall e, fst (mapFileBuffer path tz w) = Stop (Throw e) ->
     exists msg, e = runtime_error msg).
Proof.
  unfold mapFileBuffer, MappedFileBuffer_new, bind, gets, emit, throw, stop_with,
    ret, abort.
  destruct (negb (NDEBUG (w_env w)) && String.eqb path "") eqn:Hg.
  { exists []. simpl. repeat split.
    - intros w2 He. rewrite He, Hg. simpl. rewrite set_w_trace_same. reflexivity.
    - intros Hne. contradiction.
    - intros b Hb. discriminate.
    - intros e He. discriminate. }
  simpl.
  destruct (files (w_env w) !! path) as [node|] eqn:Hn; simpl.
  2:{ exists [EvFile (FOpen path false)]. repeat split.
      - intros w2 He. rewrite He, Hg. simpl. rewrite He, Hn. simpl. reflexivity.
      - intros _. eauto.
      - intros b Hb. discriminate.
      - intros e He. injection He as <-. eauto. }
  destruct (fstat_fails node) eqn:Hs; simpl.
  { exists [EvFile (FOpen path true); EvFile (FStat path false); EvFile (FClose path)].
    repeat split.
    - intros w2 He. rewrite He, Hg. simpl. rewrite He, Hn. simpl. rewrite Hs. simpl. rewrite ?He.
      rewrite <- !app_assoc. reflexivity.
    - intros _. eauto.
    - intros b Hb. discriminate.
    - intros e He. injection He as <-. eauto. }
  destruct (mmap_ok node _) eqn:Hm; simpl.
  - eexists [EvFile (FOpen path true); EvFile (FStat path true); EvFile (FMmap path _ true)].
    repeat split.
    + intros w2 He. rewrite He, Hg. simpl. rewrite He, Hn. simpl. rewrite Hs. simpl. rewrite ?He.
      rewrite Hm. simpl. rewrite <- !app_assoc. reflexivity.
    + intros _. eauto.
    + intros b Hb. injection Hb as <-. reflexivity.
    + intros e He. discriminate.
  - eexists [EvFile (FOpen path true); EvFile (FStat path true);
             EvFile (FMmap path _ false); EvFile (FClose path)].
    repeat split.
    + intros w2 He. rewrite He, Hg. simpl. rewrite He, Hn. simpl. rewrite Hs. simpl. rewrite ?He.
      rewrite Hm. simpl. rewrite <- !app_assoc. reflexivity.
    + intros _. eauto.
    + intros b Hb. discriminate.
    + intros e He. injection He as <-. eauto.
Qed.

(** C7.  Loading a unit in source mode.  After the source file is mapped,
    the loader tries to map [<path>.map]; when that fails the failure is
    caught, a line ["Source map not found: ..."] is printed, and the unit
    is evaluated without a source map: the load ends as the evaluation
    ends.  Nothing else is suppressed: a failure to map the source file
    leaves the loader as the exception it is, before anything is
    evaluated, and so does an error of the evaluation.  When the map is
    there, the unit is evaluated with it. *)
Theorem source_map_is_optional {H} (js : script H) (w : world H)
    (jsPath : string) (sourceURL : option string) :
  let url := match sourceURL with Some u => u | None => jsPath end in
  let load := imgui_load_unit js None false (Some jsPath) sourceURL in
  let loading := EvPrintf ("Loading React unit from source: '" ++ jsPath ++ "'\n") in
  let ended (r : JSIException + jsvalue) : outcome unit :=
    match r with inr _ => Ret tt | inl e' => Stop (Throw (JSI e')) end in
  let loaded (r : JSIException + jsvalue) : list event :=
    match r with inr _ => [EvPrintf "React unit loaded (source).\n"] | inl _ => [] end in
  (forall buffer e,
     fst (mapFileBuffer jsPath true w) = Ret buffer ->
     fst (mapFileBuffer (jsPath ++ ".map") true w) = Stop (Throw e) ->
     exists ev_src ok ev_map r w',
       load w = (ended r, w') /\
       js_evaluateJavaScript js buffer None url (w_vm w) = (r, w_vm w') /\
       w_trace w' =
         (w_trace w ++ loading :: ev_src
            ++ EvFile (FOpen (jsPath ++ ".map")%string ok) :: ev_map
            ++ [EvPrintf ("Source map not found: " ++ what e ++ "\n")%string;
                EvVM (EvaluateJavaScript jsPath None url) r]
            ++ loaded r)%list) /\
  (forall e,
     fst (mapFileBuffer jsPath true w) = Stop (Throw e) ->
     exists w', load w = (Stop (Throw e), w') /\ w_vm w' = w_vm w) /\
  (forall buffer sm,
     fst (mapFileBuffer jsPath true w) = Ret buffer ->
     fst (mapFileBuffer (jsPath ++ ".map") true w) = Ret sm ->
     exists ev_files r w',
       load w = (ended r, w') /\
       js_evaluateJavaScript js buffer (Some sm) url (w_vm w) = (r, w_vm w') /\
       w_trace w' =
         (w_trace w ++ loading :: ev_files
            ++ [EvPrintf ("Loaded source map: '" ++ (jsPath ++ ".map") ++ "'\n")%string;
                EvVM (EvaluateJavaScript jsPath (Some (jsPath ++ ".map")%string) url) r]
            ++ loaded r)%list).
Proof.
  intros url load loading ended loaded.
  destruct (mapFileBuffer_env w jsPath true) as (ev_src & Hsrc & _ & Hpath & _).
  destruct (mapFileBuffer_env w (jsPath ++ ".map") true)
    as (ev_map & Hmap & Hopen & Hpath' & _).
  assert (Hload : forall w0, load w0 =
    (_ <- printf ("Loading React unit from source: '" ++ jsPath ++ "'\n") ;;
     buffer <- mapFileBuffer jsPath true ;;
     sourceMapBuf <-
       try_catch
         (b <- mapFileBuffer (jsPath ++ ".map") true ;;
          _ <- printf ("Loaded source map: '" ++ (jsPath ++ ".map") ++ "'\n") ;;
          ret (Some b))
         (fun e => Some (_ <- printf ("Source map not found: " ++ what e ++ "\n") ;;
                         ret None)) ;;
     _ <- (match sourceMapBuf with
           | Some sm => evaluateJavaScriptWithSourceMap js buffer sm url
           | None => evaluateJavaScript js buffer url
           end) ;;
     printf "React unit loaded (source).\n") w0) by reflexivity.
  split; [|split].
  - intros buffer e Hb He.
    destruct (Hopen ltac:(rewrite He; discriminate)) as (ok & rest & ->).
    destruct (js_evaluateJavaScript js buffer None url (w_vm w)) as [r v'] eqn:Hev.
    exists ev_src, ok, rest, r.
    rewrite Hload. unfold bind at 1. unfold printf at 1, emit at 1.
    unfold bind at 1. rewrite Hsrc by reflexivity. rewrite Hb. cbn [w_trace set_w_trace].
    unfold bind at 1, try_catch, bind at 1. rewrite Hmap by reflexivity. rewrite He.
    unfold bind at 1, printf at 1, emit at 1, ret at 1.
    unfold bind at 1. unfold evaluateJavaScript, enter_vm.
    rewrite (Hpath buffer Hb).
    cbn [w_vm w_trace set_w_trace set_w_vm w_statics w_env w_now w_sapp].
    rewrite Hev. destruct r as [e'|a].
    + eexists. split; [reflexivity|]. split; [reflexivity|].
      cbn [w_trace]. rewrite <- !app_assoc. reflexivity.
    + unfold printf, emit. eexists. split; [reflexivity|]. split; [reflexivity|].
      cbn [w_trace set_w_trace]. rewrite <- !app_assoc. reflexivity.
  - intros e He. rewrite Hload. unfold bind at 1. unfold printf at 1, emit at 1.
    unfold bind at 1. rewrite Hsrc by reflexivity. rewrite He.
    eexists. split; [reflexivity|]. reflexivity.
  - intros buffer sm Hb Hs.
    destruct (js_evaluateJavaScript js buffer (Some sm) url (w_vm w)) as [r v'] eqn:Hev.
    exists (ev_src ++ ev_map)%list, r.
    rewrite Hload. unfold bind at 1. unfold printf at 1, emit at 1.
    unfold bind at 1. rewrite Hsrc by reflexivity. rewrite Hb. cbn [w_trace set_w_trace].
    unfold bind at 1, try_catch, bind at 1. rewrite Hmap by reflexivity. rewrite Hs.
    unfold bind at 1, printf at 1, emit at 1, ret at 1.
    unfold bind at 1. unfold evaluateJavaScriptWithSourceMap, enter_vm.
    rewrite (Hpath buffer Hb), (Hpath' sm Hs).
    cbn [w_vm w_trace set_w_trace set_w_vm w_statics w_env w_now w_sapp].
    rewrite Hev. destruct r as [e'|a].
    + eexists. split; [reflexivity|]. split; [reflexivity|].
      cbn [w_trace]. rewrite <- !app_assoc. reflexivity.
    + unfold printf, emit. eexists. split; [reflexivity|]. split; [reflexivity|].
      cbn [w_trace set_w_trace]. rewrite <- !app_assoc. reflexivity.
Qed.

(** The bundle of the demo has no source map next to it: it loads all the
    same, and the absence is printed. *)
Lemma source_map_is_optional_witness :
  let w := Demo.boot_world 2 "bundle.js" 0 in
  let load := imgui_load_unit Demo.the_script None false (Some "bundle.js")
                (Some "react-unit-bundle.js") in
  fst (mapFileBuffer "bundle.js" true w) =
    Ret {| path_ := "bundle.js"; fileSize_ := 10000; mappedSize_ := 12288;
           size_ := 10001 |} /\
  fst (mapFileBuffer "bundle.js.map" true w) =
    Stop (Throw (runtime_error "Failed to open: bundle.js.map")) /\
  fst (load w) = Ret tt /\
  In (EvPrintf "Source map not found: Failed to open: bundle.js.map\n")
     (w_trace (snd (load w))) /\
  In (EvVM (EvaluateJavaScript "bundle.js" None "react-unit-bundle.js") (inr JSUndefined))
     (w_trace (snd (load w))).
Proof.
  intros w load.
  set (buffer := {| path_ := "bundle.js"; fileSize_ := 10000; mappedSize_ := 12288;
                    size_ := 10001 |}).
  assert (Hb : fst (mapFileBuffer "bundle.js" true w) = Ret buffer)
    by (vm_compute; reflexivity).
  assert (He : fst (mapFileBuffer ("bundle.js" ++ ".map") true w) =
               Stop (Throw (runtime_error "Failed to open: bundle.js.map")))
    by (vm_compute; reflexivity).
  split; [exact Hb|]. split; [exact He|].
  destruct (source_map_is_optional Demo.the_script w "bundle.js"
              (Some "react-unit-bundle.js")) as (Hmissing & _ & _).
  destruct (Hmissing buffer _ Hb He)
    as (ev_src & ok & ev_map & r & w' & Hrun & Hev & Htr).
  fold load in Hrun. rewrite Hrun. cbn [fst snd].
  assert (Hr : r = inr JSUndefined).
  { cbn in Hev. injection Hev as <- _. reflexivity. }
  subst r. split; [reflexivity|].
  rewrite Htr. split.
  - apply in_or_app. right. right. apply in_or_app. right. right.
    apply in_or_app. right. left. reflexivity.
  - apply in_or_app. right. right. apply in_or_app. right. right.
    apply in_or_app. right. right. left. reflexivity.
Defined.

(* ================================================================= *)
(** ** What a host function leaves as it is *)

Section Keeps.

Context {H X : Type}.
Variable p : world H -> X.

Lemma keeps_ret {A} (a : A) : keeps p (ret a).
Proof. intros w. reflexivity. Qed.

Lemma keeps_stop_with {A} (s : stop) : keeps p (@stop_with H A s).
Proof. intros w. reflexivity. Qed.

Lemma keeps_gets {A} (f : world H -> A) : keeps p (gets f).
Proof. intros w. reflexivity. Qed.

Lemma keeps_lift_jsi {A} (r : JSIException + A) : keeps p (lift_jsi r).
Proof. intros w. destruct r; reflexivity. Qed.

Lemma keeps_bind {A B} (m : M H A) (k : A -> M H B) :
  keeps p m -> (forall a, keeps p (k a)) -> keeps p (bind m k).
Proof.
  intros Hm Hk w. unfold bind. specialize (Hm w).
  destruct (m w) as [[a|s] w1]; simpl in *.
  - rewrite Hk. exact Hm.
  - exact Hm.
Qed.

Lemma keeps_try_catch {A} (m : M H A) handler :
  keeps p m -> (forall e h, handler e = Some h -> keeps p h) ->
  keeps p (try_catch m handler).
Proof.
  intros Hm Hh w. unfold try_catch. specialize (Hm w).
  destruct (m w) as [[a|[e| | | |]] w1]; simpl in *; try exact Hm.
  destruct (handler e) as [h|] eqn:He; simpl; [|exact Hm].
  rewrite (Hh e h He). exact Hm.
Qed.

Hypothesis p_trace : forall w t, p (set_w_trace t w) = p w.

Lemma keeps_emit (e : event) : keeps p (emit e).
Proof. intros w. apply p_trace. Qed.

Hypothesis p_vm : forall w v, p (set_w_vm v w) = p w.

Lemma keeps_enter_vm c f : keeps p (enter_vm c f).
Proof.
  intros w. unfold enter_vm. destruct (f (w_vm w)) as [[e|a] v]; simpl;
    rewrite p_trace, p_vm; reflexivity.
Qed.

End Keeps.

Lemma keeps_hermesApp {H X} (p : world H -> X) : keeps p hermesApp.
Proof. intros w. unfold hermesApp. destruct (s_hermesApp (w_statics w)); reflexivity. Qed.

Section KeepsHost.

Context {H X : Type}.
Variable js : script H.
Variable sk : sokol.
Variable p : world H -> X.
Hypothesis p_trace : forall w t, p (set_w_trace t w) = p w.
Hypothesis p_vm : forall w v, p (set_w_vm v w) = p w.

Lemma keeps_run_ready_macrotasks fuel curTimeMs :
  keeps p (run_ready_macrotasks js fuel curTimeMs).
Proof.
  induction fuel as [|fuel IH]; simpl.
  - apply keeps_stop_with.
  - apply keeps_bind; [apply keeps_hermesApp|intros app].
    apply keeps_bind; [unfold peek; apply keeps_bind|intros d].
    + apply keeps_enter_vm; assumption.
    + intros v. unfold getNumber. destruct v;
        try (apply keeps_ret);
        (apply keeps_bind; [apply keeps_gets|intros []; [apply keeps_ret|apply keeps_stop_with]]).
    + destruct (dge d dzero && dle d curTimeMs); [|apply keeps_ret].
      apply keeps_bind; [apply keeps_enter_vm; assumption|intros _].
      apply keeps_bind; [apply keeps_enter_vm; assumption|intros _].
      exact IH.
Qed.

Lemma keeps_call_global name args : keeps p (call_global js name args).
Proof.
  unfold call_global, global.
  apply keeps_bind; [apply keeps_gets|intros g].
  apply keeps_bind; [apply keeps_lift_jsi|intros f].
  apply keeps_enter_vm; assumption.
Qed.

Lemma keeps_app_frame_script fuel now curTimeMs :
  keeps p (app_frame_script js sk fuel now curTimeMs).
Proof.
  unfold app_frame_script.
  apply keeps_bind; [apply keeps_run_ready_macrotasks|intros _].
  apply keeps_bind; [apply keeps_gets|intros sa].
  apply keeps_bind; [apply keeps_gets|intros start].
  apply keeps_bind; [apply keeps_call_global|intros _].
  apply keeps_bind; [apply keeps_enter_vm; assumption|intros _].
  apply keeps_ret.
Qed.

Lemma keeps_draw_overlay : keeps p draw_overlay.
Proof.
  unfold draw_overlay, sokol_do.
  apply keeps_bind; [apply keeps_gets|intros sa].
  apply keeps_bind; [apply keeps_gets|intros s].
  repeat (apply keeps_bind; [apply keeps_emit; assumption|intros _]).
  apply keeps_bind; [|intros _; apply keeps_emit; assumption].
  destruct (dgt _ _); [apply keeps_emit; assumption|apply keeps_ret].
Qed.

End KeepsHost.

(** Reading the metrics touches neither the trace, nor the VM, nor any of
    the statics but the three accumulators. *)
Lemma keeps_update_performance_metrics {H X} (p : world H -> X) :
  (forall w f, p (set_w_statics (set_s_react_avg_ms f (w_statics w)) w) = p w) ->
  (forall w f, p (set_w_statics (set_s_react_max_ms f (w_statics w)) w) = p w) ->
  (forall w f, p (set_w_statics (set_s_imgui_avg_ms f (w_statics w)) w) = p w) ->
  keeps p update_performance_metrics.
Proof.
  intros Ha Hm Hi. unfold update_performance_metrics.
  apply keeps_try_catch; [|intros e h Heq; injection Heq as <-; apply keeps_ret].
  unfold read_performance_metrics, global.
  apply keeps_bind; [apply keeps_hermesApp|intros _].
  apply keeps_bind; [apply keeps_gets|intros g].
  destruct (hasProperty g "perfMetrics"); [|apply keeps_ret].
  apply keeps_bind; [apply keeps_lift_jsi|intros metrics].
  apply keeps_bind.
  { destruct (hasProperty metrics "reconciliationAvg"); [|apply keeps_ret].
    apply keeps_bind; [apply keeps_lift_jsi|intros d].
    intros w. apply Ha. }
  intros _. apply keeps_bind.
  { destruct (hasProperty metrics "reconciliationMax"); [|apply keeps_ret].
    apply keeps_bind; [apply keeps_lift_jsi|intros d].
    intros w. apply Hm. }
  intros _.
  destruct (hasProperty metrics "renderTime"); [|apply keeps_ret].
  apply keeps_bind; [apply keeps_lift_jsi|intros d].
  intros w. apply Hi.
Qed.

Lemma keeps_after {H A B X} (p : world H -> X) (m : M H A) (k : A -> M H B) w :
  (forall a, keeps p (k a)) -> p (snd (bind m k w)) = p (snd (m w)).
Proof.
  intros Hk. unfold bind. destruct (m w) as [[a|s] w1]; simpl; [apply Hk|reflexivity].
Qed.

(* ================================================================= *)
(** ** The frame clock and the displayed values *)

Section FrameClock.

Context {H : Type}.
Variable js : script H.
Variable sk : sokol.

(** After the first statement of [app_frame] the tick leaves the clock and
    the displayed values alone. *)
Lemma app_frame_after_clock {X} (q : statics -> X) fuel (w : world H) :
  (forall s f, q (set_s_react_avg_ms f s) = q s) ->
  (forall s f, q (set_s_react_max_ms f s) = q s) ->
  (forall s f, q (set_s_imgui_avg_ms f s) = q s) ->
  q (w_statics (snd (app_frame js sk fuel w))) =
  q (w_statics (snd (update_frame_clock sk (w_now w) w))).
Proof.
  intros Ha Hm Hi.
  set (p := fun w : world H => q (w_statics w)).
  change (p (snd (app_frame js sk fuel w)) = p (snd (update_frame_clock sk (w_now w) w))).
  unfold app_frame. unfold bind at 1. unfold stm_now, gets.
  rewrite keeps_after.
  - unfold frame_begin. apply keeps_after. intros _.
    apply keeps_bind; [apply keeps_gets|intros sa].
    unfold sokol_do.
    apply keeps_bind; [apply keeps_emit; reflexivity|intros _].
    apply keeps_bind; [apply keeps_gets|intros clear_value].
    apply keeps_emit; reflexivity.
  - intros _. apply keeps_bind.
    + apply keeps_try_catch.
      * apply keeps_app_frame_script; reflexivity.
      * intros e h Heq. destruct e; [|discriminate]. injection Heq as <-.
        apply keeps_emit; reflexivity.
    + intros _. unfold frame_end, sokol_do.
      apply keeps_bind.
      { apply keeps_update_performance_metrics; intros w0 f; unfold p; simpl;
          [apply Ha|apply Hm|apply Hi]. }
      intros _.
      apply keeps_bind; [apply keeps_emit; reflexivity|intros _].
      apply keeps_bind; [apply keeps_draw_overlay; reflexivity|intros _].
      apply keeps_bind; [apply keeps_emit; reflexivity|intros _].
      apply keeps_emit; reflexivity.
Qed.

(** What the first statement of [app_frame] does to the statics. *)
Lemma update_frame_clock_statics now (w : world H) :
  let s := w_statics w in
  w_statics (snd (update_frame_clock sk now w)) =
    if negb (s_started s) then
      set_s_last_fps_time now (set_s_start_time now (set_s_started true s))
    else if stm_diff sk now (s_last_fps_time s) >? 1000000000 then
      set_s_last_fps_time now
        (set_s_react_max_ms_display (s_react_max_ms s)
           (set_s_react_avg_ms_display (s_react_avg_ms s)
              (set_s_imgui_avg_ms_display (s_imgui_avg_ms s)
                 (set_s_fps (ddiv d_one (sapp_frame_duration (w_sapp w))) s))))
    else s.
Proof.
  cbv zeta. unfold update_frame_clock, bind, gets, modify_statics, ret.
  destruct (s_started (w_statics w)); simpl.
  - destruct (stm_diff sk now (s_last_fps_time (w_statics w)) >? 1000000000); simpl.
    + destruct (w_statics w). reflexivity.
    + reflexivity.
  - reflexivity.
Qed.

(** C9.  The displayed FPS and the displayed metrics change only on a tick
    on which at least one second (10^9 ticks of the clock) has passed since
    the last flush, and never on the first tick, which starts the timers;
    on every other tick they are what they were, whatever the frame
    duration and whatever the scripts do.  (The flush is made when more
    than a second has passed.) *)
Theorem displayed_values_flush fuel (w : world H) :
  let s := w_statics w in
  let s' := w_statics (snd (app_frame js sk fuel w)) in
  let elapsed := stm_diff sk (w_now w) (s_last_fps_time s) in
  (displayed s' <> displayed s -> s_started s = true /\ 1000000000 <= elapsed) /\
  (s_started s = false ->
   displayed s' = displayed s /\ s_started s' = true /\
   s_start_time s' = w_now w /\ s_last_fps_time s' = w_now w) /\
  (s_started s = true -> elapsed <= 1000000000 ->
   displayed s' = displayed s /\ s_last_fps_time s' = s_last_fps_time s) /\
  (s_started s = true -> 1000000000 < elapsed ->
   displayed s' = (ddiv d_one (sapp_frame_duration (w_sapp w)), s_imgui_avg_ms s,
                   s_react_avg_ms s, s_react_max_ms s) /\
   s_last_fps_time s' = w_now w).
Proof.
  cbv zeta.
  pose proof (update_frame_clock_statics (w_now w) w) as Hclock. cbv zeta in Hclock.
  assert (Hd : displayed (w_statics (snd (app_frame js sk fuel w))) =
               displayed (w_statics (snd (update_frame_clock sk (w_now w) w))))
    by (apply (app_frame_after_clock displayed); intros [] ?; reflexivity).
  assert (Hst : s_started (w_statics (snd (app_frame js sk fuel w))) =
                s_started (w_statics (snd (update_frame_clock sk (w_now w) w))))
    by (apply (app_frame_after_clock s_started); intros [] ?; reflexivity).
  assert (Ht0 : s_start_time (w_statics (snd (app_frame js sk fuel w))) =
                s_start_time (w_statics (snd (update_frame_clock sk (w_now w) w))))
    by (apply (app_frame_after_clock s_start_time); intros [] ?; reflexivity).
  assert (Htl : s_last_fps_time (w_statics (snd (app_frame js sk fuel w))) =
                s_last_fps_time (w_statics (snd (update_frame_clock sk (w_now w) w))))
    by (apply (app_frame_after_clock s_last_fps_time); intros [] ?; reflexivity).
  rewrite Hd, Hst, Ht0, Htl, Hclock. clear Hd Hst Ht0 Htl Hclock.
  set (elapsed := stm_diff sk (w_now w) (s_last_fps_time (w_statics w))).
  destruct (w_statics w) as [a sm im st t0 tl fps ra rm ia rad rmd iad bg desc].
  simpl in *. destruct st; simpl.
  - destruct (Z.gtb_spec elapsed 1000000000) as [Hgt|Hle]; simpl.
    + split; [intros _; split; [reflexivity|lia]|].
      split; [discriminate|].
      split; [intros _ Hle; lia|].
      intros _ _. split; reflexivity.
    + split; [intros Hne; exfalso; apply Hne; reflexivity|].
      split; [discriminate|].
      split; [intros _ _; split; reflexivity|].
      intros _ Hgt. lia.
  - split; [intros Hne; exfalso; apply Hne; reflexivity|].
    split; [intros _; repeat split; reflexivity|].
    split; discriminate.
Qed.

End FrameClock.

(* ================================================================= *)
(** ** The macrotask loop *)




Section MacrotaskLoop.
Context {H : Type}.
Variable js : script H.
Variable sk : sokol.








End MacrotaskLoop.


Lemma displayed_values_flush_witness :
  let st := set_s_imgui_avg_ms (double_of_Z 3) (set_s_started true statics_init) in
  let late := Demo.running_world Demo.running_globals [] false st 2000000000 in
  let early := Demo.running_world Demo.running_globals [] false st 500000000 in
  let frame := app_frame Demo.the_script Demo.the_sokol 5 in
  (s_started (w_statics late) = true /\
   1000000000 < stm_diff Demo.the_sokol (w_now late) (s_last_fps_time (w_statics late)) /\
   displayed (w_statics (snd (frame late))) =
     (ddiv d_one (sapp_frame_duration Demo.the_window), double_of_Z 3, dzero, dzero)) /\
  (s_started (w_statics early) = true /\
   stm_diff Demo.the_sokol (w_now early) (s_last_fps_time (w_statics early)) <= 1000000000 /\
   displayed (w_statics (snd (frame early))) = displayed (w_statics early)).
Proof.
  intros st late early frame.
  destruct (displayed_values_flush Demo.the_script Demo.the_sokol 5 late)
    as (_ & _ & _ & Hflush).
  destruct (displayed_values_flush Demo.the_script Demo.the_sokol 5 early)
    as (_ & _ & Hkeep & _).
  assert (Hs1 : s_started (w_statics late) = true) by reflexivity.
  assert (Hs2 : s_started (w_statics early) = true) by reflexivity.
  assert (Hl : 1000000000 <
               stm_diff Demo.the_sokol (w_now late) (s_last_fps_time (w_statics late)))
    by (vm_compute; reflexivity).
  assert (He : stm_diff Demo.the_sokol (w_now early) (s_last_fps_time (w_statics early))
               <= 1000000000)
    by (vm_compute; discriminate).
  split.
  - split; [exact Hs1|]. split; [exact Hl|]. exact (proj1 (Hflush Hs1 Hl)).
  - split; [exact Hs2|]. split; [exact He|]. exact (proj1 (Hkeep Hs2 He)).
Defined.

(* ================================================================= *)
(** ** How host code can stop *)

Section StopsWithin.

Context {H : Type}.
Variable Q : world H -> Prop.
Variable P : stop -> Prop.

Lemma stops_ret {A} (a : A) : stops_within Q P (ret a).
Proof. intros w HQ. split; [exact HQ|discriminate]. Qed.

Lemma stops_gets {A} (f : world H -> A) : stops_within Q P (gets f).
Proof. intros w HQ. split; [exact HQ|discriminate]. Qed.

Lemma stops_stop_with {A} s : P s -> stops_within Q P (@stop_with H A s).
Proof. intros HP w HQ. split; [exact HQ|]. intros s' Heq. injection Heq as <-. exact HP. Qed.

Lemma stops_lift_jsi {A} (r : JSIException + A) :
  (forall e, P (Throw (JSI e))) -> stops_within Q P (lift_jsi r).
Proof.
  intros HP w HQ. destruct r as [e|a]; simpl.
  - split; [exact HQ|]. intros s Heq. injection Heq as <-. apply HP.
  - split; [exact HQ|discriminate].
Qed.

Lemma stops_bind {A B} (m : M H A) (k : A -> M H B) :
  stops_within Q P m -> (forall a, stops_within Q P (k a)) ->
  stops_within Q P (bind m k).
Proof.
  intros Hm Hk w HQ. unfold bind. destruct (Hm w HQ) as [HQ1 Hs].
  destruct (m w) as [[a|s] w1]; simpl in *.
  - apply Hk. exact HQ1.
  - split; [exact HQ1|]. intros s' Heq. injection Heq as <-. apply Hs. reflexivity.
Qed.

Lemma stops_try_catch {A} (P0 : stop -> Prop) (m : M H A) handler :
  stops_within Q P0 m ->
  (forall s, P0 s ->
     match s with
     | Throw e => match handler e with
                  | Some h => stops_within Q P h
                  | None => P s
                  end
     | _ => P s
     end) ->
  stops_within Q P (try_catch m handler).
Proof.
  intros Hm Hh w HQ. unfold try_catch. destruct (Hm w HQ) as [HQ1 Hs].
  destruct (m w) as [[a|s] w1]; simpl in *.
  - split; [exact HQ1|discriminate].
  - specialize (Hs s eq_refl). specialize (Hh s Hs).
    destruct s as [e| | | |]; try (split; [exact HQ1|intros s' Heq; injection Heq as <-; exact Hh]).
    destruct (handler e) as [h|].
    + apply Hh. exact HQ1.
    + split; [exact HQ1|intros s' Heq; injection Heq as <-; exact Hh].
Qed.

Hypothesis Q_trace : forall w t, Q w -> Q (set_w_trace t w).

Lemma stops_emit e : stops_within Q P (emit e).
Proof. intros w HQ. split; [apply Q_trace; exact HQ|discriminate]. Qed.

Hypothesis Q_vm : forall w v, Q w -> Q (set_w_vm v w).
Hypothesis P_jsi : forall e, P (Throw (JSI e)).

Lemma stops_enter_vm c f : stops_within Q P (enter_vm c f).
Proof.
  intros w HQ. unfold enter_vm. destruct (f (w_vm w)) as [[e|a] v]; simpl.
  - split; [apply Q_trace, Q_vm; exact HQ|]. intros s Heq. injection Heq as <-. apply P_jsi.
  - split; [apply Q_trace, Q_vm; exact HQ|discriminate].
Qed.

End StopsWithin.

Lemma bootstrapped_trace {H} nd (w : world H) t :
  bootstrapped nd w -> bootstrapped nd (set_w_trace t w).
Proof. intros HQ. exact HQ. Qed.

Lemma bootstrapped_vm {H} nd (w : world H) v :
  bootstrapped nd w -> bootstrapped nd (set_w_vm v w).
Proof. intros HQ. exact HQ. Qed.

Lemma stops_hermesApp {H} nd (P : stop -> Prop) :
  stops_within (@bootstrapped H nd) P hermesApp.
Proof.
  intros w HQ. unfold hermesApp. destruct HQ as [Happ Hnd].
  destruct (s_hermesApp (w_statics w)) eqn:Ha; [|contradiction].
  simpl. split; [split; [rewrite Ha; discriminate|exact Hnd]|discriminate].
Qed.

Lemma stops_modify_statics {H} nd (P : stop -> Prop) f :
  (forall s, s_hermesApp (f s) = s_hermesApp s) ->
  stops_within (@bootstrapped H nd) P (modify_statics f).
Proof.
  intros Hf w [Happ Hnd]. split; [|discriminate].
  split; [simpl; rewrite Hf; exact Happ|exact Hnd].
Qed.

Section StopsHost.

Context {H : Type}.
Variable js : script H.
Variable sk : sokol.
Variable nd : bool.

#[local] Abbreviation Q := (@bootstrapped H nd).

Lemma script_stop_jsi e : script_stop nd (Throw (JSI e)).
Proof. left. exists e. reflexivity. Qed.

Lemma stops_vm c f : stops_within Q (script_stop nd) (enter_vm c f).
Proof.
  apply stops_enter_vm.
  - apply bootstrapped_trace.
  - apply bootstrapped_vm.
  - apply script_stop_jsi.
Qed.

Lemma stops_sokol_do (P : stop -> Prop) c : stops_within Q P (sokol_do c).
Proof. apply stops_emit. apply bootstrapped_trace. Qed.

Lemma stops_slog_func (P : stop -> Prop) level msg :
  stops_within Q P (slog_func level msg).
Proof. apply stops_emit. apply bootstrapped_trace. Qed.

Lemma stops_call_global name args :
  stops_within Q (script_stop nd) (call_global js name args).
Proof.
  unfold call_global, global.
  apply stops_bind; [apply stops_gets|intros g].
  apply stops_bind; [apply stops_lift_jsi, script_stop_jsi|intros f].
  apply stops_vm.
Qed.

Lemma stops_getNumber v : stops_within Q (script_stop nd) (getNumber js v).
Proof.
  intros w HQ. pose proof HQ as [_ Hnd].
  unfold getNumber, bind, gets, ret, abort, stop_with.
  destruct v; simpl; try (split; [exact HQ|discriminate]);
    rewrite Hnd; destruct nd; simpl;
    (split; [exact HQ|]); try discriminate;
    intros st Heq; injection Heq as <-; right; right; split; reflexivity.
Qed.

Lemma stops_run_ready_macrotasks fuel curTimeMs :
  stops_within Q (script_stop nd) (run_ready_macrotasks js fuel curTimeMs).
Proof.
  induction fuel as [|fuel IH]; simpl.
  - apply stops_stop_with. right. left. reflexivity.
  - apply stops_bind; [apply stops_hermesApp|intros app].
    apply stops_bind.
    { unfold peek. apply stops_bind; [apply stops_vm|intros v]. apply stops_getNumber. }
    intros d. destruct (dge d dzero && dle d curTimeMs); [|apply stops_ret].
    apply stops_bind; [apply stops_vm|intros _].
    apply stops_bind; [apply stops_vm|intros _].
    exact IH.
Qed.

Lemma stops_app_frame_script fuel now curTimeMs :
  stops_within Q (script_stop nd) (app_frame_script js sk fuel now curTimeMs).
Proof.
  unfold app_frame_script.
  apply stops_bind; [apply stops_run_ready_macrotasks|intros _].
  apply stops_bind; [apply stops_gets|intros sa].
  apply stops_bind; [apply stops_gets|intros start].
  apply stops_bind; [apply stops_call_global|intros _].
  apply stops_bind; [apply stops_vm|intros _].
  apply stops_ret.
Qed.

Lemma stops_app_event_script ev :
  stops_within Q (script_stop nd) (app_event_script js ev).
Proof.
  unfold app_event_script.
  apply stops_bind; [apply stops_hermesApp|intros _].
  apply stops_bind; [apply stops_call_global|intros _].
  apply stops_bind; [apply stops_vm|intros _].
  apply stops_ret.
Qed.

(** A [try] block of the steady state with its [catch (JSIException &)]. *)
Lemma stops_try_log (m : M H unit) :
  stops_within Q (script_stop nd) m ->
  stops_within Q (callback_stop nd)
    (try_catch m (fun e => match e with
                           | JSI e' => Some (slog_func "ERROR" (jsi_what e'))
                           | _ => None
                           end)).
Proof.
  intros Hm. apply (stops_try_catch Q (callback_stop nd) (script_stop nd)); [exact Hm|].
  intros s [(e & ->)|[->|[Hnd ->]]].
  - apply stops_slog_func.
  - left. reflexivity.
  - right. split; [exact Hnd|reflexivity].
Qed.

Lemma stops_update_performance_metrics (P : stop -> Prop) :
  stops_within Q P update_performance_metrics.
Proof.
  unfold update_performance_metrics.
  apply (stops_try_catch Q P (fun s => exists e, s = Throw e)).
  2:{ intros s (e & ->). apply stops_ret. }
  assert (HP : forall e, (fun s => exists e0, s = Throw e0) (Throw (JSI e)))
    by (intros e; exists (JSI e); reflexivity).
  unfold read_performance_metrics, global.
  apply stops_bind; [apply stops_hermesApp|intros _].
  apply stops_bind; [apply stops_gets|intros g].
  destruct (hasProperty g "perfMetrics"); [|apply stops_ret].
  apply stops_bind; [apply stops_lift_jsi, HP|intros metrics].
  apply stops_bind.
  { destruct (hasProperty metrics "reconciliationAvg"); [|apply stops_ret].
    apply stops_bind; [apply stops_lift_jsi, HP|intros d].
    apply stops_modify_statics. intros []. reflexivity. }
  intros _. apply stops_bind.
  { destruct (hasProperty metrics "reconciliationMax"); [|apply stops_ret].
    apply stops_bind; [apply stops_lift_jsi, HP|intros d].
    apply stops_modify_statics. intros []. reflexivity. }
  intros _.
  destruct (hasProperty metrics "renderTime"); [|apply stops_ret].
  apply stops_bind; [apply stops_lift_jsi, HP|intros d].
  apply stops_modify_statics. intros []. reflexivity.
Qed.

Lemma stops_update_frame_clock (P : stop -> Prop) now :
  stops_within Q P (update_frame_clock sk now).
Proof.
  unfold update_frame_clock.
  apply stops_bind; [apply stops_gets|intros started].
  destruct (negb started).
  - repeat (apply stops_bind; [apply stops_modify_statics; intros []; reflexivity|intros _]).
    apply stops_modify_statics; intros []; reflexivity.
  - apply stops_bind; [apply stops_gets|intros last].
    destruct (stm_diff sk now last >? 1000000000); [|apply stops_ret].
    apply stops_bind; [apply stops_gets|intros sa].
    repeat (apply stops_bind; [apply stops_modify_statics; intros []; reflexivity|intros _]).
    apply stops_modify_statics; intros []; reflexivity.
Qed.

Lemma stops_draw_overlay (P : stop -> Prop) : stops_within Q P draw_overlay.
Proof.
  unfold draw_overlay.
  apply stops_bind; [apply stops_gets|intros sa].
  apply stops_bind; [apply stops_gets|intros s].
  repeat (apply stops_bind; [apply stops_sokol_do|intros _]).
  apply stops_bind; [|intros _; apply stops_sokol_do].
  destruct (dgt _ _); [apply stops_sokol_do|apply stops_ret].
Qed.

Lemma stops_app_frame fuel :
  stops_within Q (callback_stop nd) (app_frame js sk fuel).
Proof.
  unfold app_frame, stm_now.
  apply stops_bind; [apply stops_gets|intros now].
  apply stops_bind.
  { unfold frame_begin.
    apply stops_bind; [apply stops_update_frame_clock|intros _].
    apply stops_bind; [apply stops_gets|intros sa].
    apply stops_bind; [apply stops_sokol_do|intros _].
    apply stops_bind; [apply stops_gets|intros clear_value].
    apply stops_sokol_do. }
  intros _. apply stops_bind.
  { apply stops_try_log. apply stops_app_frame_script. }
  intros _. unfold frame_end.
  apply stops_bind; [apply stops_update_performance_metrics|intros _].
  apply stops_bind; [apply stops_sokol_do|intros _].
  apply stops_bind; [apply stops_draw_overlay|intros _].
  apply stops_bind; [apply stops_sokol_do|intros _].
  apply stops_sokol_do.
Qed.

Lemma stops_app_event ev :
  stops_within Q (callback_stop nd) (app_event js sk ev).
Proof.
  unfold app_event. destruct (is_quit_gesture sk ev); [apply stops_sokol_do|].
  apply stops_bind; [|intros _; apply stops_sokol_do].
  apply stops_try_log. apply stops_app_event_script.
Qed.

Lemma stops_steady_state fuel cbs :
  stops_within Q (callback_stop nd) (steady_state js sk fuel cbs).
Proof.
  induction cbs as [|cb cbs IH]; simpl.
  - apply stops_ret.
  - apply stops_bind; [|intros _; exact IH].
    destruct cb as [now sa|ev]; simpl.
    + intros w HQ. apply (stops_app_frame fuel (set_w_tick now sa w)). exact HQ.
    + apply stops_app_event.
Qed.

End StopsHost.

(* ================================================================= *)
(** ** Script errors in the steady state *)

Lemma outcome_unit_ret (o : outcome unit) : (forall s, o = Stop s -> False) -> o = Ret tt.
Proof. destruct o as [[]|s]; [reflexivity|]. intros Hs. destruct (Hs s eq_refl). Qed.

(** Reading the metrics always returns, and changes nothing but statics:
    no line is logged, whether the reading has failed or not. *)
Lemma update_performance_metrics_silent {H} nd (w : world H) :
  bootstrapped nd w ->
  exists s', update_performance_metrics w = (Ret tt, set_w_statics s' w) /\
             s_hermesApp s' = s_hermesApp (w_statics w).
Proof.
  intros HQ.
  destruct (stops_update_performance_metrics nd (fun _ => False) w HQ) as [_ Hs].
  pose proof (keeps_update_performance_metrics
                (fun w : world H => (w_vm w, w_env w, w_now w, w_sapp w, w_trace w))
                ltac:(reflexivity) ltac:(reflexivity) ltac:(reflexivity) w) as Hk.
  pose proof (keeps_update_performance_metrics
                (fun w : world H => s_hermesApp (w_statics w))
                ltac:(intros ? ?; simpl; destruct (w_statics _); reflexivity)
                ltac:(intros ? ?; simpl; destruct (w_statics _); reflexivity)
                ltac:(intros ? ?; simpl; destruct (w_statics _); reflexivity) w) as Ha.
  destruct (update_performance_metrics w) as [o w'] eqn:Hrun. simpl in *.
  exists (w_statics w'). split; [|exact Ha].
  rewrite (outcome_unit_ret o Hs). f_equal.
  destruct w, w'. simpl in *. injection Hk as -> -> -> -> ->. reflexivity.
Qed.



Section SteadyState.

Context {H : Type}.
Variable js : script H.
Variable sk : sokol.



End SteadyState.



(* ================================================================= *)
(** ** What a host function adds to the trace *)

Section Emits.

Context {H : Type}.
Variable E : event -> Prop.

Lemma emits_nothing {A} (m : M H A) :
  (forall w, w_trace (snd (m w)) = w_trace w) -> emits E m.
Proof. intros Hm w. exists []. rewrite app_nil_r. split; [apply Hm|constructor]. Qed.

Lemma emits_ret {A} (a : A) : emits E (@ret H A a).
Proof. apply emits_nothing. reflexivity. Qed.

Lemma emits_gets {A} (f : world H -> A) : emits E (gets f).
Proof. apply emits_nothing. reflexivity. Qed.

Lemma emits_stop_with {A} s : emits E (@stop_with H A s).
Proof. apply emits_nothing. reflexivity. Qed.

Lemma emits_lift_jsi {A} (r : JSIException + A) : emits E (@lift_jsi H A r).
Proof. apply emits_nothing. intros w. destruct r; reflexivity. Qed.

Lemma emits_modify_statics f : emits E (@modify_statics H f).
Proof. apply emits_nothing. reflexivity. Qed.

Lemma emits_setGlobalProperty name v : emits E (@setGlobalProperty H name v).
Proof. apply emits_nothing. reflexivity. Qed.

Lemma emits_bind {A B} (m : M H A) (k : A -> M H B) :
  emits E m -> (forall a, emits E (k a)) -> emits E (bind m k).
Proof.
  intros Hm Hk w. unfold bind. destruct (Hm w) as (evs & Htr & Hall).
  destruct (m w) as [[a|s] w1]; simpl in *.
  - destruct (Hk a w1) as (evs' & Htr' & Hall'). exists (evs ++ evs')%list.
    split; [rewrite Htr', Htr, app_assoc; reflexivity|].
    apply Forall_app. split; assumption.
  - exists evs. split; assumption.
Qed.

Lemma emits_try_catch {A} (m : M H A) handler :
  emits E m -> (forall e h, handler e = Some h -> emits E h) ->
  emits E (try_catch m handler).
Proof.
  intros Hm Hh w. unfold try_catch. destruct (Hm w) as (evs & Htr & Hall).
  destruct (m w) as [[a|[e| | | |]] w1]; simpl in *;
    try (exists evs; split; assumption).
  destruct (handler e) as [h|] eqn:He; [|exists evs; split; assumption].
  destruct (Hh e h He w1) as (evs' & Htr' & Hall'). exists (evs ++ evs')%list.
  split; [rewrite Htr', Htr, app_assoc; reflexivity|].
  apply Forall_app. split; assumption.
Qed.

Lemma emits_emit e : E e -> emits E (@emit H e).
Proof. intros He w. exists [e]. split; [reflexivity|]. repeat constructor. exact He. Qed.

Lemma emits_enter_vm c f : (forall r, E (EvVM c r)) -> emits E (@enter_vm H c f).
Proof.
  intros He w. unfold enter_vm. destruct (f (w_vm w)) as [r v].
  exists [EvVM c r]. split; [destruct r; reflexivity|]. repeat constructor. apply He.
Qed.

Lemma emits_mapFileBuffer path tz :
  (forall op, E (EvFile op)) -> emits E (@mapFileBuffer H path tz).
Proof.
  intros He w.
  unfold mapFileBuffer, MappedFileBuffer_new, bind, gets, emit, throw, stop_with,
    ret, abort.
  destruct (negb (NDEBUG (w_env w)) && String.eqb path ""); simpl.
  { exists []. rewrite app_nil_r. split; [reflexivity|constructor]. }
  destruct (files (w_env w) !! path) as [node|]; simpl.
  2:{ eexists. split; [reflexivity|]. repeat constructor; apply He. }
  destruct (fstat_fails node); simpl.
  { eexists. split; [rewrite <- !app_assoc; reflexivity|]. repeat constructor; apply He. }
  destruct (mmap_ok node _); simpl;
    (eexists; split; [rewrite <- !app_assoc; reflexivity|]; repeat constructor; apply He).
Qed.

End Emits.

(* ================================================================= *)
(** ** Bootstrap *)

Section Bootstrap.
Context {H : Type}.
Variable js : script H.
Variable sk : sokol.

Lemma quiet_printf s : quiet (EvPrintf s).
Proof. split; reflexivity. Qed.
Lemma quiet_file op : quiet (EvFile op).
Proof. split; reflexivity. Qed.
Lemma quiet_evaluateSHUnit u r : quiet (EvVM (EvaluateSHUnit u) r).
Proof. split; reflexivity. Qed.
Lemma quiet_evaluateJavaScript p m u r : quiet (EvVM (EvaluateJavaScript p m u) r).
Proof. split; reflexivity. Qed.

Lemma emits_imgui_load_unit nativeUnit bytecode jsPath sourceURL :
  emits quiet (imgui_load_unit js nativeUnit bytecode jsPath sourceURL).
Proof.
  unfold imgui_load_unit, printf, evaluateSHUnit, evaluateJavaScript,
    evaluateJavaScriptWithSourceMap.
  apply emits_bind.
  { destruct nativeUnit; [|apply emits_ret].
    apply emits_bind; [apply emits_enter_vm; intros; apply quiet_evaluateSHUnit|intros _].
    apply emits_emit, quiet_printf. }
  intros _. destruct jsPath as [jsPath|]; [|apply emits_ret].
  destruct bytecode.
  - apply emits_bind; [apply emits_emit, quiet_printf|intros _].
    apply emits_bind; [apply emits_mapFileBuffer, quiet_file|intros buffer].
    apply emits_bind; [apply emits_enter_vm; intros; apply quiet_evaluateJavaScript|intros _].
    apply emits_emit, quiet_printf.
  - apply emits_bind; [apply emits_emit, quiet_printf|intros _].
    apply emits_bind; [apply emits_mapFileBuffer, quiet_file|intros buffer].
    apply emits_bind.
    { apply emits_try_catch.
      - apply emits_bind; [apply emits_mapFileBuffer, quiet_file|intros b].
        apply emits_bind; [apply emits_emit, quiet_printf|intros _].
        apply emits_ret.
      - intros e h Heq. injection Heq as <-.
        apply emits_bind; [apply emits_emit, quiet_printf|intros _].
        apply emits_ret. }
    intros sm. apply emits_bind; [|intros _; apply emits_emit, quiet_printf].
    destruct sm; apply emits_enter_vm; intros; apply quiet_evaluateJavaScript.
Qed.

Lemma emits_imgui_main argv : emits quiet (imgui_main js argv).
Proof.
  unfold imgui_main, imgui_main_default.
  apply emits_bind; [apply emits_gets|intros mode].
  apply emits_bind; [apply emits_gets|intros path].
  destruct (mode =? 0); [apply emits_imgui_load_unit|].
  destruct (mode =? 1); [apply emits_imgui_load_unit|].
  destruct (mode =? 2); [apply emits_imgui_load_unit|apply emits_ret].
Qed.

Lemma emits_populate : emits quiet (@populate_sapp_desc_from_config H).
Proof.
  unfold populate_sapp_desc_from_config, global.
  apply emits_bind; [apply emits_gets|intros g].
  apply emits_bind; [|intros desc; apply emits_modify_statics].
  destruct (hasProperty g "sappConfig"); [|apply emits_ret].
  apply emits_bind; [apply emits_lift_jsi|intros config]. apply emits_ret.
Qed.

Lemma emits_after_seed argv : emits quiet (after_seed js argv).
Proof.
  unfold after_seed.
  apply emits_bind; [apply emits_setGlobalProperty|intros _].
  apply emits_bind; [apply emits_setGlobalProperty|intros _].
  apply emits_bind; [apply emits_imgui_main|intros _].
  apply emits_bind; [apply emits_enter_vm; intros; apply quiet_evaluateSHUnit|intros _].
  apply emits_bind; [apply emits_populate|intros _].
  apply emits_bind; [apply emits_gets|intros desc].
  destruct (negb (init_cb desc)); [apply emits_stop_with|apply emits_ret].
Qed.

Lemma sokol_main_returns argv (w w' : world H) desc :
  sokol_main js sk argv w = (Ret desc, w') ->
  sokol_main_script js sk argv w = (Ret desc, w').
Proof.
  unfold sokol_main, try_catch.
  destruct (sokol_main_script js sk argv w) as [[d|[e| | | |]] w1]; try (intros Heq; exact Heq).
  unfold bind, printf, emit, exit, stop_with. simpl. discriminate.
Qed.

Lemma s_hermesApp_set a s : s_hermesApp (set_s_hermesApp a s) = a.
Proof. destruct s. reflexivity. Qed.

(** C8, as amended.  A bootstrap that succeeds has entered the VM first to
    evaluate the foundational library and then, once, to call its [run]
    function, with the reading of the monotonic clock at that moment in
    milliseconds (the time since the timer was set up, not zero).  This is
    the only call of a function of the script in the bootstrap; every unit
    of the application is evaluated after it, and no call of sokol is made
    before [sokol_main] returns: no window or GUI exists yet. *)
Theorem bootstrap_seeds_time argv (w w' : world H) desc :
  sokol_main js sk argv w = (Ret desc, w') ->
  exists v helpers peek_ run_ r post,
    fst (js_evaluateSHUnit js sh_export_jslib (w_vm w)) = inr v /\
    asObject v = inr helpers /\
    getPropertyAsFunction helpers "peek" = inr peek_ /\
    getPropertyAsFunction helpers "run" = inr run_ /\
    w_trace w' =
      (w_trace w ++ EvVM (EvaluateSHUnit sh_export_jslib) (inr v)
         :: EvVM (CallFunction run_ [JSNumber (stm_ms sk (w_now w))]) (inr r)
         :: post)%list /\
    Forall quiet post.
Proof.
  intros Hmain. apply sokol_main_returns in Hmain.
  unfold sokol_main_script in Hmain.
  unfold bind at 1 in Hmain. unfold evaluateSHUnit at 1, enter_vm in Hmain.
  destruct (js_evaluateSHUnit js sh_export_jslib (w_vm w)) as [[e|v] vm1] eqn:Hj;
    [discriminate|].
  unfold bind at 1 in Hmain.
  destruct (asObject v) as [e|helpers] eqn:Hh; [discriminate|].
  cbn [lift_jsi ret] in Hmain.
  unfold bind at 1 in Hmain. cbn [gets] in Hmain.
  unfold bind at 1 in Hmain. unfold global at 1 in Hmain. cbn [gets] in Hmain.
  unfold bind at 1 in Hmain.
  match type of Hmain with context [lift_jsi ?x] => destruct x as [e|process]; [discriminate|] end.
  cbn [lift_jsi ret] in Hmain.
  unfold bind at 1 in Hmain.
  match type of Hmain with context [lift_jsi ?x] => destruct x as [e|env]; [discriminate|] end.
  cbn [lift_jsi ret] in Hmain.
  unfold bind at 1 in Hmain. unfold setGlobalProperty at 1 in Hmain.
  unfold bind at 1 in Hmain.
  destruct (getPropertyAsFunction helpers "peek") as [e|peek_] eqn:Hp; [discriminate|].
  cbn [lift_jsi ret] in Hmain.
  unfold bind at 1 in Hmain.
  destruct (getPropertyAsFunction helpers "run") as [e|run_] eqn:Hr; [discriminate|].
  cbn [lift_jsi ret] in Hmain.
  unfold bind at 1 in Hmain. unfold modify_statics at 1 in Hmain.
  unfold bind at 1 in Hmain. unfold stm_now, gets in Hmain.
  unfold bind at 1 in Hmain. unfold hermesApp at 1 in Hmain.
  cbn [w_statics set_w_statics set_w_vm set_w_trace] in Hmain.
  rewrite s_hermesApp_set in Hmain. cbv beta iota in Hmain.
  unfold bind at 1 in Hmain. unfold call at 1, enter_vm in Hmain.
  cbn [runMacroTask w_vm w_now w_trace w_statics w_env w_sapp set_w_statics set_w_vm
       set_w_trace] in Hmain.
  match type of Hmain with context [js_call js run_ ?args ?v0] =>
    destruct (js_call js run_ args v0) as [[e|r] vm2]; [discriminate|] end.
  match type of Hmain with _ ?w3 = _ =>
    change (after_seed js argv w3 = (Ret desc, w')) in Hmain;
    destruct (emits_after_seed argv w3) as (post & Htr & Hq) end.
  rewrite Hmain in Htr. cbn [snd w_trace set_w_trace] in Htr.
  exists v, helpers, peek_, run_, r, post.
  split; [reflexivity|]. split; [exact Hh|]. split; [exact Hp|].
  split; [exact Hr|]. split; [|exact Hq].
  rewrite Htr, <- !app_assoc. reflexivity.
Qed.

Lemma app_init_unfold (w : world H) :
  app_init js sk w =
  try_catch (app_init_script js)
    (fun e => match e with
              | JSI e' => Some (slog_func "ERROR" (jsi_what e') ;; abort)
              | _ => None
              end)
    (set_w_trace (w_trace w ++ [EvSokol sg_setup; EvSokol simgui_setup;
                                EvSokol sg_make_sampler; EvSokol sdtx_setup])
       (set_w_statics (set_s_sampler (new_sampler sk) (w_statics w)) w)).
Proof.
  unfold app_init. unfold bind at 1 2 3 4 5. unfold sokol_do, emit, modify_statics.
  cbn [w_trace w_statics w_vm w_env w_now w_sapp set_w_trace set_w_statics].
  rewrite <- !app_assoc. reflexivity.
Qed.



End Bootstrap.



Lemma bootstrap_seeds_time_witness :
  let w := Demo.boot_world 2 "bundle.js" 5000000 in
  let r := sokol_main Demo.the_script Demo.the_sokol [] w in
  fst r = Ret sapp_desc_default /\
  exists v run_ r0 post,
    w_trace (snd r) =
      EvVM (EvaluateSHUnit sh_export_jslib) (inr v)
      :: EvVM (CallFunction run_ [JSNumber (stm_ms Demo.the_sokol 5000000)]) (inr r0)
      :: post /\
    Forall quiet post.
Proof.
  intros w r.
  assert (Hfst : fst r = Ret sapp_desc_default) by (vm_compute; reflexivity).
  split; [exact Hfst|].
  assert (Hrun : sokol_main Demo.the_script Demo.the_sokol [] w =
                 (Ret sapp_desc_default, snd r)).
  { rewrite <- Hfst. apply surjective_pairing. }
  destruct (bootstrap_seeds_time Demo.the_script Demo.the_sokol [] w (snd r) _ Hrun)
    as (v & helpers & peek_ & run_ & r0 & post & _ & _ & _ & _ & Htr & Hq).
  exists v, run_, r0, post. split; [exact Htr|exact Hq].
Defined.

(** C8 as it was stated fails: five milliseconds after the timer is set
    up, [run] is called with 5, and with no other time. *)
Lemma seed_time_is_not_zero :
  let w := Demo.boot_world 2 "bundle.js" 5000000 in
  let r := sokol_main Demo.the_script Demo.the_sokol [] w in
  fst r = Ret sapp_desc_default /\
  w_trace (snd r) !! 1%nat =
    Some (EvVM (CallFunction Demo.fn_run [JSNumber (double_of_Z 5)]) (inr JSUndefined)) /\
  double_of_Z 5 <> dzero /\
  SFeqb (double_of_Z 5) dzero = false /\
  Forall (fun e => match e with
                   | EvVM (CallFunction _ args) _ => args = [JSNumber (double_of_Z 5)]
                   | _ => True
                   end) (w_trace (snd r)).
Proof.
  intros w r.
  split; [vm_compute; reflexivity|].
  split; [vm_compute; reflexivity|].
  split; [vm_compute; discriminate|].
  split; [vm_compute; reflexivity|].
  vm_compute. repeat constructor.
Qed.

(* ================================================================= *)
(** * More of the code *)

(* ================================================================= *)
(** ** MappedFileBuffer: the layout of a mapping, and its failures *)

(** X1.  The buffer of a mapping that succeeds is laid out inside it: the
    size it reports is the size of the file or one byte more, and never
    more than was mapped, so that the terminating zero, where it is
    reported, is a byte of the mapping; the mapped length is a multiple of
    the page size and less than a page longer than the file.  A source
    file whose size is a multiple of the page size fills its mapping and
    gets no terminator. *)
Theorem mapped_buffer_layout {H} (w w' : world H) path tz node b :
  files (w_env w) !! path = Some node ->
  0 <= st_size node <= LONG_MAX ->
  0 < pageSize (w_env w) <= LONG_MAX ->
  MappedFileBuffer_new path tz w = (Ret b, w') ->
  let p := pageSize (w_env w) in
  path_ b = path /\
  fileSize_ b <= size_ b <= mappedSize_ b /\
  mappedSize_ b mod p = 0 /\
  mappedSize_ b < fileSize_ b + p /\
  (size_ b = fileSize_ b \/
   size_ b = fileSize_ b + 1 /\ tz = true /\ fileSize_ b < mappedSize_ b) /\
  (tz = true -> size_ b = fileSize_ b -> mappedSize_ b = fileSize_ b).
Proof.
  intros Hnode Hf Hp Hrun p.
  assert (Hpath : NDEBUG (w_env w) = true \/ path <> "").
  { destruct (NDEBUG (w_env w)) eqn:Hnd; [left; reflexivity|right].
    intros ->. unfold MappedFileBuffer_new, bind, gets in Hrun.
    rewrite Hnd in Hrun. simpl in Hrun. discriminate. }
  rewrite (MappedFileBuffer_new_opened w path tz node Hnode Hpath) in Hrun.
  destruct (fstat_fails node); [discriminate|].
  cbv zeta in Hrun.
  destruct (mmap_ok node _); [|discriminate].
  injection Hrun as <- _. cbn [path_ fileSize_ mappedSize_ size_].
  assert (Hsz : to_size_t (st_size node) = st_size node).
  { apply to_size_t_small. unfold LONG_MAX in Hf. lia. }
  rewrite Hsz.
  rewrite mappedSize_of_ceil by assumption.
  rewrite size_of_cases by assumption.
  fold p.
  pose proof (ceil_div_bounds (st_size node) p ltac:(lia)) as Hb.
  set (f := st_size node) in *.
  set (m := ceil_div f p * p) in *.
  assert (Hm0 : m mod p = 0) by (apply Z.mod_mul; lia).
  assert (Hne : f mod p <> 0 -> f < m).
  { intros Hmod. destruct (Z.eq_dec f m) as [E|]; [|lia].
    exfalso. apply Hmod. rewrite E. exact Hm0. }
  assert (Heq : f mod p = 0 -> m = f).
  { intros Hmod. apply Z.mod_divide in Hmod; [|lia]. destruct Hmod as [k Hk].
    assert (Hc : ceil_div f p <= k) by (apply ceil_div_least; lia).
    unfold m in *. nia. }
  split; [reflexivity|].
  assert (Hfm : f <= m) by lia.
  destruct (Z.eqb_spec (f mod p) 0) as [Hz|Hnz]; destruct tz; simpl.
  - specialize (Heq Hz).
    split; [lia|]. split; [exact Hm0|]. split; [lia|].
    split; [left; reflexivity|]. intros _ _. exact Heq.
  - specialize (Heq Hz).
    split; [lia|]. split; [exact Hm0|]. split; [lia|].
    split; [left; reflexivity|]. intros _ _. exact Heq.
  - specialize (Hne Hnz).
    split; [lia|]. split; [exact Hm0|]. split; [lia|].
    split; [right; split; [reflexivity|split; [reflexivity|exact Hne]]|].
    intros _ Habs. lia.
  - specialize (Hne Hnz).
    split; [lia|]. split; [exact Hm0|]. split; [lia|].
    split; [left; reflexivity|]. intros Habs. discriminate.
Qed.

Lemma mapped_buffer_layout_witness :
  let w := Demo.boot_world 2 "bundle.js" 0 in
  let b := {| path_ := "bundle.js"; fileSize_ := 10000; mappedSize_ := 12288;
              size_ := 10001 |} in
  fst (MappedFileBuffer_new "bundle.js" true w) = Ret b /\
  fileSize_ b <= size_ b <= mappedSize_ b /\
  mappedSize_ b mod 4096 = 0.
Proof.
  intros w b.
  assert (Hrun : MappedFileBuffer_new "bundle.js" true w =
                 (Ret b, snd (MappedFileBuffer_new "bundle.js" true w)))
    by (vm_compute; reflexivity).
  split; [vm_compute; reflexivity|].
  destruct (mapped_buffer_layout w (snd (MappedFileBuffer_new "bundle.js" true w))
              "bundle.js" true (Demo.node 10000) b)
    as (_ & Hs & Hm & _).
  - vm_compute. reflexivity.
  - simpl. unfold LONG_MAX. lia.
  - simpl. unfold LONG_MAX. lia.
  - exact Hrun.
  - split; [exact Hs|exact Hm].
Defined.

Lemma open_descriptors_app evs1 evs2 :
  open_descriptors (evs1 ++ evs2) = open_descriptors evs1 + open_descriptors evs2.
Proof.
  induction evs1 as [|e evs1 IH]; simpl; [reflexivity|].
  destruct e as [| | | |op|]; try exact IH.
  destruct op as [p ok|p ok|p l ok|p]; try exact IH.
  - destruct ok; lia.
  - lia.
Qed.

(** X2.  The constructor of [MappedFileBuffer] touches no file but its own
    and changes nothing but the trace.  When it throws, whichever of
    [open], [fstat] and [mmap] failed, no descriptor is left open and the
    message of the [std::runtime_error] ends with the path; when it
    returns, exactly one descriptor stays open, for the destructor to
    close.  It stops otherwise only on the assertion that the path is not
    empty, before any file is touched. *)
Theorem failed_mapping_leaks_nothing {H} (w : world H) path tz :
  exists evs,
    snd (MappedFileBuffer_new path tz w) = set_w_trace (w_trace w ++ evs) w /\
    Forall (fun e => exists op, e = EvFile op /\ file_of op = path) evs /\
    match fst (MappedFileBuffer_new path tz w) with
    | Ret b => open_descriptors evs = 1
    | Stop s =>
        open_descriptors evs = 0 /\
        ((exists reason, s = Throw (runtime_error (reason ++ path)))
         \/ (s = Abort /\ NDEBUG (w_env w) = false /\ path = "" /\ evs = []))
    end.
Proof.
  destruct (negb (NDEBUG (w_env w)) && String.eqb path "") eqn:Hguard.
  - exists []. unfold MappedFileBuffer_new, bind, gets. rewrite Hguard. simpl.
    apply andb_true_iff in Hguard as [Hnd Hp].
    apply negb_true_iff in Hnd. apply String.eqb_eq in Hp.
    split; [symmetry; apply set_w_trace_same|].
    split; [constructor|]. split; [reflexivity|]. right. auto.
  - assert (Hpath : NDEBUG (w_env w) = true \/ path <> "").
    { apply andb_false_iff in Hguard as [Hnd|Hp].
      - left. apply negb_false_iff. exact Hnd.
      - right. apply String.eqb_neq. exact Hp. }
    destruct (files (w_env w) !! path) as [node|] eqn:Hnode.
    + rewrite (MappedFileBuffer_new_opened w path tz node Hnode Hpath).
      destruct (fstat_fails node).
      * eexists. split; [reflexivity|]. split.
        { repeat constructor; eexists; split; reflexivity. }
        split; [reflexivity|]. left. exists "Failed to stat: ". reflexivity.
      * cbv zeta. destruct (mmap_ok node _).
        -- eexists. split; [reflexivity|]. split.
           { repeat constructor; eexists; split; reflexivity. }
           reflexivity.
        -- eexists. split; [reflexivity|]. split.
           { repeat constructor; eexists; split; reflexivity. }
           split; [reflexivity|]. left. exists "Failed to mmap React bundle: ". reflexivity.
    + exists [EvFile (FOpen path false)].
      unfold MappedFileBuffer_new, bind, gets. rewrite Hguard. simpl. rewrite Hnode.
      simpl. split; [reflexivity|]. split.
      { repeat constructor; eexists; split; reflexivity. }
      split; [reflexivity|]. left. exists "Failed to open: ". reflexivity.
Qed.

(* ================================================================= *)
(** ** The image registry: loading and cleaning up *)

Lemma to_int_small z : INT_MIN <= z <= INT_MAX -> to_int z = z.
Proof.
  unfold INT_MIN, INT_MAX, to_int. intros Hz.
  rewrite Z.mod_small by lia. lia.
Qed.

Lemma deref_app images img p :
  deref images p <> None -> deref (images ++ [img])%list p = deref images p.
Proof.
  destruct p as [|i]; simpl; [intros []; reflexivity|].
  destruct (images !! i) as [x|] eqn:Hi; [|intros []; reflexivity].
  intros _. rewrite (lookup_app_l_Some _ _ _ _ Hi). reflexivity.
Qed.

Section ImageRegistry.

Context {H : Type}.
Variable stbi_load : string -> option (Z * Z).
Variable new_image : world H -> Z.
Variable new_simgui_image : world H -> Z.

(** X3.  While the registry holds fewer than [INT_MAX] images:
    [load_image] of a file that does not decode logs the failure and
    aborts, with the registry as it was; of a file that decodes it returns
    the number of images there were, having made the image of the decoded
    size and its ImGui image with the sampler of [app_init], in this order
    and with no other effect; from then on the accessors at that index
    return the decoded width and height and a pointer to the new handle,
    with nothing logged.  The images loaded before keep their
    indices, and the pointers handed out for them still point to their
    handles. *)
Theorem load_image_round_trip (w : world H) (path : string) :
  Z.of_nat (length (s_images (w_statics w))) < INT_MAX ->
  let images := s_images (w_statics w) in
  let index := Z.of_nat (length images) in
  let load := load_image stbi_load new_image new_simgui_image path in
  match stbi_load path with
  | None =>
      load w = (Stop Abort,
                set_w_trace (w_trace w ++ [EvSlog "ERROR" "Failed to load image"]) w)
  | Some (width, height) =>
      let img := {| w_ := width; h_ := height; image_ := new_image w;
                    simguiImage_ := new_simgui_image w |} in
      let made :=
        set_w_trace (w_trace w ++
                     [EvSokol (sg_make_image width height);
                      EvSokol (simgui_make_image (new_image w) (s_sampler (w_statics w)))])
          w in
      let w' := set_w_statics (set_s_images (images ++ [img])%list (w_statics w)) made in
      load w = (Ret index, w') /\
      image_width index w' = (Ret width, w') /\
      image_height index w' = (Ret height, w') /\
      (exists p, image_simgui_image index w' = (Ret p, w') /\
                 deref (s_images (w_statics w')) p = Some (new_simgui_image w)) /\
      (forall j, 0 <= j < index ->
         fst (image_width j w') = fst (image_width j w) /\
         fst (image_height j w') = fst (image_height j w) /\
         fst (image_simgui_image j w') = fst (image_simgui_image j w)) /\
      (forall p, deref images p <> None ->
         deref (s_images (w_statics w')) p = deref images p)
  end.
Proof.
  intros Hlen images index load.
  destruct (stbi_load path) as [[width height]|] eqn:Hdec.
  - intros img made w'.
    assert (Himgs : s_images (w_statics w') = (images ++ [img])%list).
    { unfold w'. destruct (w_statics w). reflexivity. }
    assert (Hnew : ((images ++ [img])%list) !! Z.to_nat index = Some img).
    { unfold index. rewrite Nat2Z.id. apply list_lookup_middle. reflexivity. }
    assert (Hidx : INT_MIN <= index <= INT_MAX).
    { unfold index. fold images in Hlen. unfold INT_MIN. lia. }
    assert (Hvalid : invalid_index index (images ++ [img])%list = false).
    { apply invalid_index_false; [exact Hidx|].
      rewrite length_app. simpl. unfold index. lia. }
    split.
    { unfold load, load_image, Image_new. rewrite Hdec.
      unfold bind, gets, ret, modify_statics, sokol_do, emit.
      cbn [w_statics set_w_statics w_trace set_w_trace].
      rewrite <- !app_assoc. cbn [app].
      fold images. fold img. fold made. fold w'.
      replace (s_images (set_s_images (images ++ [img])%list (w_statics w)))
        with (images ++ [img])%list by (destruct (w_statics w); reflexivity).
      rewrite length_app. simpl.
      replace (Z.of_nat (length images + 1) - 1) with index by (unfold index; lia).
      rewrite to_size_t_small by (unfold INT_MIN, INT_MAX in Hidx; lia).
      rewrite to_int_small by exact Hidx. reflexivity. }
    split.
    { unfold image_width, bind, gets. rewrite Himgs, Hvalid, Hnew. reflexivity. }
    split.
    { unfold image_height, bind, gets. rewrite Himgs, Hvalid, Hnew. reflexivity. }
    split.
    { exists (addr_simguiImage_ (Z.to_nat index)). split.
      - unfold image_simgui_image, bind, gets. rewrite Himgs, Hvalid, Hnew. reflexivity.
      - rewrite Himgs. simpl. rewrite Hnew. reflexivity. }
    split.
    { intros j Hj.
      assert (Hjr : INT_MIN <= j <= INT_MAX) by (unfold INT_MIN in *; lia).
      assert (Hv1 : invalid_index j (images ++ [img])%list = false).
      { apply invalid_index_false; [exact Hjr|]. rewrite length_app. simpl. lia. }
      assert (Hv0 : invalid_index j images = false).
      { apply invalid_index_false; [exact Hjr|]. exact Hj. }
      destruct (lookup_lt_is_Some_2 images (Z.to_nat j)) as [x Hx]; [unfold index in Hj; lia|].
      pose proof (lookup_app_l_Some _ [img] _ _ Hx) as Hx'.
      unfold image_width, image_height, image_simgui_image, bind, gets.
      rewrite Himgs. fold images. rewrite Hv1, Hv0, Hx, Hx'. auto. }
    intros p Hp. rewrite Himgs. apply deref_app. exact Hp.
  - unfold load, load_image, Image_new. rewrite Hdec.
    unfold bind, slog_func, emit, abort, stop_with. reflexivity.
Qed.

End ImageRegistry.

Lemma load_image_round_trip_witness :
  let w := DemoImages.gallery in
  let w' := snd (DemoImages.load "logo.png" w) in
  Z.of_nat (length (s_images (w_statics w))) < INT_MAX /\
  DemoImages.load "logo.png" w = (Ret 2, w') /\
  image_width 2 w' = (Ret 128, w') /\
  image_height 2 w' = (Ret 64, w') /\
  fst (image_width 1 w') = Ret 800.
Proof.
  intros w w'.
  assert (Hlen : Z.of_nat (length (s_images (w_statics w))) < INT_MAX)
    by (vm_compute; reflexivity).
  split; [exact Hlen|].
  pose proof (load_image_round_trip DemoImages.decode DemoImages.sg_handle
                DemoImages.simgui_handle w "logo.png" Hlen) as Hl.
  cbv zeta in Hl.
  change (DemoImages.decode "logo.png") with (Some (128, 64)) in Hl.
  destruct Hl as (Hload & Hw & Hh & _ & Hold & _).
  split; [exact Hload|].
  split; [exact Hw|]. split; [exact Hh|].
  destruct (Hold 1) as (Hw1 & _); [simpl; lia|].
  unfold w'. change (DemoImages.load "logo.png") with
    (load_image DemoImages.decode DemoImages.sg_handle DemoImages.simgui_handle "logo.png").
  rewrite Hload. cbn [snd]. rewrite Hw1. vm_compute. reflexivity.
Defined.

Lemma destroy_images_run {H} images (w : world H) :
  destroy_images images w =
    (Ret tt,
     set_w_trace
       (w_trace w ++
        flat_map (fun img => [EvSokol (simgui_destroy_image (simguiImage_ img));
                              EvSokol (sg_destroy_image (image_ img))]) images) w).
Proof.
  revert w. induction images as [|img rest IH]; intros w.
  - simpl. rewrite app_nil_r. destruct w. reflexivity.
  - cbn [destroy_images flat_map]. unfold bind at 1. unfold sokol_do at 1, emit at 1.
    unfold bind at 1. unfold sokol_do at 1, emit at 1. rewrite IH.
    cbn [w_trace set_w_trace]. rewrite <- !app_assoc. reflexivity.
Qed.

(** What [app_cleanup] does, with the images destroyed from the first to
    the last. *)
Lemma app_cleanup_run {H} (w : world H) :
  app_cleanup w =
    (Ret tt,
     set_w_statics (set_s_hermesApp None (set_s_images [] (w_statics w)))
       (set_w_trace
          (w_trace w ++
           flat_map (fun img => [EvSokol (simgui_destroy_image (simguiImage_ img));
                                 EvSokol (sg_destroy_image (image_ img))])
             (s_images (w_statics w)) ++
           [EvSokol simgui_shutdown; EvSokol sdtx_shutdown; EvSokol sg_shutdown] ++
           match s_hermesApp (w_statics w) with
           | Some _ => [EvShDone]
           | None => []
           end) w)).
Proof.
  unfold app_cleanup. unfold bind at 1. cbn [gets].
  unfold bind at 1. rewrite destroy_images_run.
  unfold bind, gets, modify_statics, sokol_do, emit.
  cbn [w_trace w_statics set_w_trace set_w_statics].
  destruct w as [v st e n sa t]. destruct st as [a sm im st t0 tl fps ra rm ia rad rmd iad bg desc].
  cbn [w_trace w_statics set_w_trace set_w_statics s_hermesApp s_images set_s_images
       set_s_hermesApp].
  destruct a; cbn [emit ret w_trace w_statics set_w_trace set_w_statics s_hermesApp
                   s_images set_s_images set_s_hermesApp];
    rewrite <- ?app_assoc; cbn [app]; rewrite ?app_nil_r; reflexivity.
Qed.

(** The destruction of an image destroys its ImGui image, then its sokol
    image. *)
Lemma destroyed_in_order (images : list Image) img :
  In img images ->
  exists l1 l2 l3,
    flat_map (fun img => [EvSokol (simgui_destroy_image (simguiImage_ img));
                          EvSokol (sg_destroy_image (image_ img))]) images =
    (l1 ++ EvSokol (simgui_destroy_image (simguiImage_ img)) :: l2 ++
     EvSokol (sg_destroy_image (image_ img)) :: l3)%list.
Proof.
  induction images as [|x rest IH]; [intros []|].
  intros [->|Hin].
  - exists [], [], (flat_map (fun img => [EvSokol (simgui_destroy_image (simguiImage_ img));
                                         EvSokol (sg_destroy_image (image_ img))]) rest).
    reflexivity.
  - destruct (IH Hin) as (l1 & l2 & l3 & Heq).
    exists (EvSokol (simgui_destroy_image (simguiImage_ x)) ::
            EvSokol (sg_destroy_image (image_ x)) :: l1), l2, l3.
    cbn [flat_map app]. rewrite Heq. reflexivity.
Qed.

(** X4.  [app_cleanup] always returns.  It destroys the images of the
    registry, of each its ImGui image and then its sokol image, and
    nothing else; it then shuts down the three sokol libraries in the
    order simgui, sdtx, gfx, and last shuts the VM down if there is an
    application object.  The registry is empty and the application object
    forgotten afterwards, and every index is invalid: the accessors log
    the error and return 0 or null. *)
Theorem cleanup_invalidates_images {H} (w : world H) (index : Z) :
  INT_MIN <= index <= INT_MAX ->
  let images := s_images (w_statics w) in
  let w1 := snd (app_cleanup w) in
  let w2 := set_w_trace (w_trace w1 ++ [EvSlog "ERROR" "Invalid image index"]) w1 in
  fst (app_cleanup w) = Ret tt /\
  s_images (w_statics w1) = [] /\
  s_hermesApp (w_statics w1) = None /\
  (exists destroyed,
     w_trace w1 =
       (w_trace w ++ destroyed ++
        [EvSokol simgui_shutdown; EvSokol sdtx_shutdown; EvSokol sg_shutdown] ++
        match s_hermesApp (w_statics w) with
        | Some _ => [EvShDone]
        | None => []
        end)%list /\
     length destroyed = (2 * length images)%nat /\
     (forall img, In img images ->
        exists l1 l2 l3,
          destroyed =
            (l1 ++ EvSokol (simgui_destroy_image (simguiImage_ img)) :: l2 ++
             EvSokol (sg_destroy_image (image_ img)) :: l3)%list) /\
     Forall (fun e => exists img,
                 In img images /\
                 (e = EvSokol (simgui_destroy_image (simguiImage_ img)) \/
                  e = EvSokol (sg_destroy_image (image_ img)))) destroyed) /\
  image_width index w1 = (Ret 0, w2) /\
  image_height index w1 = (Ret 0, w2) /\
  image_simgui_image index w1 = (Ret nullptr, w2).
Proof.
  intros Hidx images w1 w2.
  assert (Himgs : s_images (w_statics w1) = []).
  { unfold w1. rewrite app_cleanup_run. cbn [snd w_statics set_w_statics].
    destruct (w_statics w). reflexivity. }
  assert (Hinv : invalid_index index [] = true).
  { apply invalid_index_true; [exact Hidx|]. simpl. lia. }
  split; [rewrite app_cleanup_run; reflexivity|]. split; [exact Himgs|].
  split.
  { unfold w1. rewrite app_cleanup_run. cbn [snd w_statics set_w_statics].
    destruct (w_statics w). reflexivity. }
  split.
  { exists (flat_map (fun img => [EvSokol (simgui_destroy_image (simguiImage_ img));
                                  EvSokol (sg_destroy_image (image_ img))]) images).
    split.
    { unfold w1. rewrite app_cleanup_run. reflexivity. }
    split.
    { clear. induction images as [|x rest IH]; [reflexivity|].
      cbn [flat_map app length]. rewrite IH. lia. }
    split; [apply destroyed_in_order|].
    clear. induction images as [|x rest IH]; [constructor|].
    cbn [flat_map app].
    constructor; [exists x; split; [left; reflexivity|left; reflexivity]|].
    constructor; [exists x; split; [left; reflexivity|right; reflexivity]|].
    eapply List.Forall_impl; [|exact IH].
    intros e (img & Hin & He). exists img. split; [right; exact Hin|exact He]. }
  unfold image_width, image_height, image_simgui_image, bind, gets.
  rewrite Himgs, Hinv. unfold slog_func, emit, ret. fold w2. auto.
Qed.

Lemma cleanup_invalidates_images_witness :
  let w := DemoImages.gallery in
  let w1 := snd (app_cleanup w) in
  INT_MIN <= 1 <= INT_MAX /\
  image_width 1 w = (Ret 800, w) /\
  fst (image_width 1 w1) = Ret 0 /\
  s_images (w_statics w1) = [] /\
  w_trace w1 =
    [EvSokol (simgui_destroy_image 101); EvSokol (sg_destroy_image 1);
     EvSokol (simgui_destroy_image 102); EvSokol (sg_destroy_image 2);
     EvSokol simgui_shutdown; EvSokol sdtx_shutdown; EvSokol sg_shutdown; EvShDone].
Proof.
  intros w w1.
  assert (H1 : INT_MIN <= 1 <= INT_MAX) by (unfold INT_MIN, INT_MAX; lia).
  split; [exact H1|]. split; [vm_compute; reflexivity|].
  destruct (cleanup_invalidates_images w 1 H1) as (_ & Himgs & _ & _ & Hw & _).
  fold w1 in Hw, Himgs. rewrite Hw.
  split; [reflexivity|]. split; [exact Himgs|]. vm_compute. reflexivity.
Defined.

(* ================================================================= *)
(** ** [safe_double_to_int]: its range, and the integers *)

Lemma iter_xO_digits mx k :
  digits2_pos (Pos.iter xO mx k) = (digits2_pos mx + k)%positive.
Proof.
  induction k as [|k IH] using Pos.peano_ind.
  - simpl. rewrite Pos.add_1_r. reflexivity.
  - rewrite Pos.iter_succ. simpl. rewrite IH. rewrite Pos.add_succ_r. reflexivity.
Qed.

Lemma iter_xO_value mx k : Zpos (Pos.iter xO mx k) = Zpos mx * 2 ^ Zpos k.
Proof.
  induction k as [|k IH] using Pos.peano_ind.
  - simpl. lia.
  - rewrite Pos.iter_succ, Pos2Z.inj_succ, Z.pow_succ_r by lia.
    rewrite Pos2Z.inj_xO, IH. ring.
Qed.

(** A mantissa that is canonical for its exponent is not rounded. *)
Lemma binary_round_aux_canonical s m e :
  canonical_mantissa prec emax m e = true -> e <= emax - prec ->
  binary_round_aux prec emax s (Zpos m) e loc_Exact = S754_finite s m e.
Proof.
  intros Hc He. unfold canonical_mantissa in Hc. apply Z.eqb_eq in Hc.
  unfold binary_round_aux, shr_fexp. cbn [Zdigits2 shr_record_of_loc].
  rewrite Hc, Z.sub_diag. cbn [shr shr_m loc_of_shr_record round_nearest_even].
  cbn [Zdigits2 shr_record_of_loc]. rewrite Hc, Z.sub_diag. cbn [shr shr_m].
  apply Z.leb_le in He. rewrite He. reflexivity.
Qed.

(** An integer of less than 53 bits is a double: its conversion has the
    sign and the value of the integer, and is in normal form. *)
Lemma double_of_Z_exact n :
  n <> 0 -> - 2 ^ 52 < n < 2 ^ 52 ->
  exists m k,
    double_of_Z n = S754_finite (n <? 0) m (Zneg k) /\
    Zpos m = Z.abs n * 2 ^ Zpos k /\
    Zpos k <= 52 /\
    valid_binary prec emax (S754_finite (n <? 0) m (Zneg k)) = true.
Proof.
  intros Hn0 Hn.
  assert (Hgen : forall s mx, Zpos mx < 2 ^ 52 ->
            exists m k, binary_round prec emax s mx 0 = S754_finite s m (Zneg k) /\
                        Zpos m = Zpos mx * 2 ^ Zpos k /\ Zpos k <= 52 /\
                        valid_binary prec emax (S754_finite s m (Zneg k)) = true).
  { intros s mx Hmx.
    pose proof (digits2_pos_bounds mx) as [Hlo Hhi].
    set (d := digits2_pos mx) in *.
    assert (Hd : Zpos d <= 52).
    { destruct (Z_le_gt_dec (Zpos d) 52) as [|Hgt]; [assumption|].
      assert (2 ^ 52 <= 2 ^ (Zpos d - 1)) by (apply Z.pow_le_mono_r; lia). lia. }
    unfold binary_round. fold d.
    assert (Hfexp : fexp prec emax (Zpos d + 0) = Zpos d - 53).
    { unfold fexp, emin, prec, emax. lia. }
    rewrite Hfexp. unfold shl_align.
    destruct (Zpos d - 53 - 0) as [|q|k] eqn:Hk; try lia.
    assert (Hek : Zpos d - 53 = Zneg k) by lia.
    rewrite Hek.
    assert (Hcan : canonical_mantissa prec emax (Pos.iter xO mx k) (Zneg k) = true).
    { unfold canonical_mantissa. apply Z.eqb_eq.
      rewrite iter_xO_digits. fold d. unfold fexp, emin, prec, emax. lia. }
    exists (Pos.iter xO mx k), k.
    split; [apply binary_round_aux_canonical; [exact Hcan|unfold emax, prec; lia]|].
    split; [apply iter_xO_value|]. split; [lia|].
    unfold valid_binary, bounded. rewrite Hcan. simpl. reflexivity. }
  unfold double_of_Z, binary_normalize.
  destruct n as [|p|p]; [contradiction| |].
  - destruct (Hgen false p) as (m & k & Hr & Hm & Hk & Hv); [lia|].
    exists m, k. simpl Z.ltb. rewrite Hr. auto.
  - destruct (Hgen true p) as (m & k & Hr & Hm & Hk & Hv); [lia|].
    exists m, k. simpl Z.ltb. rewrite Hr. simpl Z.abs. auto.
Qed.

Lemma double_of_Z_zero : double_of_Z 0 = S754_zero false.
Proof. reflexivity. Qed.

(** The value of the conversion of a small integer is that integer. *)
Lemma scaled_value_of_Z n :
  - 2 ^ 52 < n < 2 ^ 52 ->
  valid_binary prec emax (double_of_Z n) = true /\
  isfinite (double_of_Z n) = true /\
  scaled_value (double_of_Z n) = scale n /\
  trunc_to_Z (double_of_Z n) = n.
Proof.
  intros Hn. destruct (Z.eq_dec n 0) as [->|Hn0].
  { rewrite double_of_Z_zero. unfold scale. simpl. auto. }
  destruct (double_of_Z_exact n Hn0 Hn) as (m & k & -> & Hm & Hk & Hv).
  split; [exact Hv|]. split; [reflexivity|].
  split.
  - rewrite scaled_value_finite. unfold scale. rewrite Hm.
    remember 1074 as K eqn:HK.
    replace (2 ^ K) with (2 ^ Zpos k * 2 ^ (Z.neg k + K)).
    2:{ rewrite <- Z.pow_add_r by lia. f_equal. lia. }
    clear HK. generalize (2 ^ Zpos k) (2 ^ (Z.neg k + K)). intros a b.
    destruct (Z.ltb_spec n 0); [rewrite Z.abs_neq by lia|rewrite Z.abs_eq by lia]; ring.
  - unfold trunc_to_Z. rewrite Z.shiftr_div_pow2 by lia. rewrite Hm.
    rewrite Z.div_mul by (apply Z.pow_nonzero; lia).
    destruct (Z.ltb_spec n 0); lia.
Qed.

(** X5.  [safe_double_to_int] never leaves the range of [int]: whatever
    double it is given, a NaN and the infinities included, and whatever
    default within the range, its result is between [INT_MIN] and
    [INT_MAX].  The conversion to [int] that ends it is therefore
    never made on a value that does not fit. *)
Theorem safe_double_to_int_range (d : double) (default_val : Z) :
  valid_binary prec emax d = true ->
  INT_MIN <= default_val <= INT_MAX ->
  INT_MIN <= safe_double_to_int d default_val <= INT_MAX.
Proof.
  intros Hv Hdef.
  destruct (safe_double_to_int_spec d default_val Hv) as (Hnf & Hhi & Hlo & Hin).
  destruct (isfinite d) eqn:Hf.
  - destruct (Z_lt_le_dec (scale INT_MAX) (scaled_value d)) as [Hgt|Hle].
    { rewrite (Hhi eq_refl Hgt). unfold INT_MIN, INT_MAX. lia. }
    destruct (Z_lt_le_dec (scaled_value d) (scale INT_MIN)) as [Hlt|Hge].
    { rewrite (Hlo eq_refl Hlt). unfold INT_MIN, INT_MAX. lia. }
    destruct (Hin eq_refl (conj Hge Hle)) as [-> Hr]. exact Hr.
  - rewrite (Hnf eq_refl). exact Hdef.
Qed.

Lemma safe_double_to_int_range_witness :
  INT_MIN <= safe_double_to_int (ddiv (double_of_Z 7) (double_of_Z 2)) 1 <= INT_MAX /\
  INT_MIN <= safe_double_to_int (S754_infinity true) 8192 <= INT_MAX.
Proof.
  split.
  - apply safe_double_to_int_range; [vm_compute; reflexivity|].
    unfold INT_MIN, INT_MAX. lia.
  - apply safe_double_to_int_range; [vm_compute; reflexivity|].
    unfold INT_MIN, INT_MAX. lia.
Defined.

(** X6.  An integer that fits in an [int] goes through a [double] and
    [safe_double_to_int] unchanged, whatever the default: the conversion
    of the integer to [double] is exact, and neither clamped nor
    replaced. *)
Theorem safe_double_to_int_of_int (n default_val : Z) :
  INT_MIN <= n <= INT_MAX ->
  safe_double_to_int (double_of_Z n) default_val = n.
Proof.
  intros Hn.
  assert (Hr : - 2 ^ 52 < n < 2 ^ 52).
  { unfold INT_MIN, INT_MAX in Hn. change (2 ^ 52) with 4503599627370496. lia. }
  destruct (scaled_value_of_Z n Hr) as (Hv & Hf & Hs & Ht).
  destruct (safe_double_to_int_spec (double_of_Z n) default_val Hv) as (_ & _ & _ & Hin).
  destruct (Hin Hf) as [-> _]; [|exact Ht].
  rewrite Hs. unfold scale.
  assert (0 < 2 ^ 1074) by (apply Z.pow_pos_nonneg; lia).
  generalize dependent (2 ^ 1074). intros; nia.
Qed.

Lemma safe_double_to_int_of_int_witness :
  INT_MIN <= -480 <= INT_MAX /\
  safe_double_to_int (double_of_Z (-480)) 0 = -480 /\
  safe_double_to_int (double_of_Z INT_MAX) 0 = INT_MAX.
Proof.
  assert (Ha : INT_MIN <= -480 <= INT_MAX) by (unfold INT_MIN, INT_MAX; lia).
  assert (Hb : INT_MIN <= INT_MAX <= INT_MAX) by (unfold INT_MIN, INT_MAX; lia).
  split; [exact Ha|].
  split; [exact (safe_double_to_int_of_int (-480) 0 Ha)
         |exact (safe_double_to_int_of_int INT_MAX 0 Hb)].
Defined.

(* ================================================================= *)
(** ** The description of the application *)

(** X7.  An integer written in [sappConfig] comes through: for each of the
    seven numeric fields, when the config object holds under the name of
    the field the double of an integer that fits in an [int], the field of
    the description that [populate_sapp_desc_from_config] stores is that
    integer. *)
Theorem config_integers_come_through {H} (w : world H)
    (config : gmap string jsvalue) (f : int_field) (n : Z) :
  vm_globals (w_vm w) !! "sappConfig" = Some (JSObject config) ->
  config !! int_field_name f = Some (JSNumber (double_of_Z n)) ->
  INT_MIN <= n <= INT_MAX ->
  fst (populate_sapp_desc_from_config w) = Ret tt /\
  int_field_get f (s_app_desc (w_statics (snd (populate_sapp_desc_from_config w)))) = n.
Proof.
  intros Hcfg Hf Hn. rewrite (populate_with_config w config Hcfg).
  split; [reflexivity|]. cbn [snd w_statics set_w_statics].
  replace (s_app_desc (set_s_app_desc (read_sappConfig config sapp_desc_default)
                                      (w_statics w)))
    with (read_sappConfig config sapp_desc_default)
    by (destruct (w_statics w); reflexivity).
  rewrite read_sappConfig_int. unfold projected_int. rewrite Hf.
  assert (Hr : - 2 ^ 52 < n < 2 ^ 52).
  { unfold INT_MIN, INT_MAX in Hn. change (2 ^ 52) with 4503599627370496. lia. }
  destruct (scaled_value_of_Z n Hr) as (Hv & Hfin & Hs & Ht).
  destruct (safe_double_to_int_spec (double_of_Z n) (int_field_default f) Hv)
    as (_ & _ & _ & Hin).
  destruct (Hin Hfin) as [-> _]; [|exact Ht].
  rewrite Hs. unfold scale.
  assert (0 < 2 ^ 1074) by (apply Z.pow_pos_nonneg; lia).
  generalize dependent (2 ^ 1074). intros; nia.
Qed.

Lemma config_integers_come_through_witness :
  let config : gmap string jsvalue :=
    <["width" := JSNumber (double_of_Z 800)]> {["height" := JSNumber (double_of_Z 600)]} in
  let w := Demo.running_world (<["sappConfig" := JSObject config]> Demo.running_globals)
             [] false statics_init 0 in
  let desc := s_app_desc (w_statics (snd (populate_sapp_desc_from_config w))) in
  vm_globals (w_vm w) !! "sappConfig" = Some (JSObject config) /\
  config !! "height" = Some (JSNumber (double_of_Z 600)) /\
  width desc = 800 /\ height desc = 600.
Proof.
  intros config w desc.
  assert (Hcfg : vm_globals (w_vm w) !! "sappConfig" = Some (JSObject config))
    by (vm_compute; reflexivity).
  assert (Hw : config !! int_field_name F_width = Some (JSNumber (double_of_Z 800)))
    by (vm_compute; reflexivity).
  assert (Hh : config !! int_field_name F_height = Some (JSNumber (double_of_Z 600)))
    by (vm_compute; reflexivity).
  split; [exact Hcfg|]. split; [exact Hh|].
  split.
  - refine (proj2 (config_integers_come_through w config F_width 800 Hcfg Hw _)).
    unfold INT_MIN, INT_MAX. lia.
  - refine (proj2 (config_integers_come_through w config F_height 600 Hcfg Hh _)).
    unfold INT_MIN, INT_MAX. lia.
Defined.

Lemma s_app_desc_set d s : s_app_desc (set_s_app_desc d s) = d.
Proof. destruct s. reflexivity. Qed.

Lemma read_sappConfig_empty : read_sappConfig ∅ sapp_desc_default = sapp_desc_default.
Proof.
  rewrite read_sappConfig_fields. unfold projected_title, projected_int, projected_bool.
  rewrite !lookup_empty. reflexivity.
Qed.

(** X8.  [populate_sapp_desc_from_config] starts from a fresh description
    each time: what it stores does not depend on what [s_app_desc] held,
    always has the four callbacks and, unless [sappConfig] is an object
    with properties, is the default description with the default title.
    It changes nothing else.  It fails only when the script has replaced
    [sappConfig] by something that is not an object: then it throws the
    [JSError] of [getPropertyAsObject] and leaves [s_app_desc] as it
    was. *)
Theorem populate_outcome {H} (w : world H) :
  let r := populate_sapp_desc_from_config w in
  match fst r with
  | Ret _ =>
      exists desc,
        snd r = set_w_statics (set_s_app_desc desc (w_statics w)) w /\
        init_cb desc = true /\ frame_cb desc = true /\
        cleanup_cb desc = true /\ event_cb desc = true /\
        ((forall config, vm_globals (w_vm w) !! "sappConfig" <> Some (JSObject config)) ->
         desc = sapp_desc_default) /\
        (forall st,
           populate_sapp_desc_from_config (set_w_statics st w) =
             (Ret tt, set_w_statics (set_s_app_desc desc st) w))
  | Stop s =>
      snd r = w /\
      s = Throw (JSI (JSError
            "getPropertyAsObject: property 'sappConfig' is not an Object" "")) /\
      exists v, vm_globals (w_vm w) !! "sappConfig" = Some v /\
                (forall config, v <> JSObject config) /\ (forall f, v <> JSFunction f)
  end.
Proof.
  intros r. unfold r.
  unfold populate_sapp_desc_from_config, bind, global, gets, hasProperty,
    getPropertyAsObject, getProperty, lift_jsi, ret, throw, stop_with, modify_statics.
  cbn [w_vm set_w_statics w_statics].
  destruct (vm_globals (w_vm w) !! "sappConfig") as [v|] eqn:Hcfg.
  - destruct v as [| |b|d|s|config|f]; cbn [fst snd].
    1-5: (split; [reflexivity|]; split; [reflexivity|]; eexists; split; [reflexivity|];
          split; intros; discriminate).
    + exists (read_sappConfig config sapp_desc_default).
      rewrite read_sappConfig_fields. cbn [init_cb frame_cb cleanup_cb event_cb].
      split; [reflexivity|]. do 4 (split; [reflexivity|]).
      split; [intros Hno; exfalso; exact (Hno config eq_refl)|].
      intros st. destruct w; reflexivity.
    + exists sapp_desc_default. rewrite read_sappConfig_empty.
      split; [reflexivity|]. do 4 (split; [reflexivity|]).
      split; [reflexivity|]. intros st. destruct w; reflexivity.
  - cbn [fst snd]. exists sapp_desc_default.
    split; [reflexivity|]. do 4 (split; [reflexivity|]).
    split; [reflexivity|]. intros st. destruct w; reflexivity.
Qed.

(* ================================================================= *)
(** ** The bootstrap, and the process as a whole *)

Lemma bind_ret_inv {H A B} (m : M H A) (k : A -> M H B) w b w' :
  bind m k w = (Ret b, w') ->
  exists a w1, m w = (Ret a, w1) /\ k a w1 = (Ret b, w').
Proof.
  unfold bind. destruct (m w) as [[a|s] w1]; [|discriminate].
  intros Hk. exists a, w1. split; [reflexivity|exact Hk].
Qed.

Lemma stops_weaken {H A} (Q : world H -> Prop) (P P' : stop -> Prop) (m : M H A) :
  (forall s, P s -> P' s) -> stops_within Q P m -> stops_within Q P' m.
Proof.
  intros Himp Hm w HQ. destruct (Hm w HQ) as [HQ1 Hs].
  split; [exact HQ1|]. intros s Heq. apply Himp, Hs, Heq.
Qed.

Lemma mapFileBuffer_stops {H} (w : world H) path tz s :
  fst (mapFileBuffer path tz w) = Stop s -> (exists e, s = Throw e) \/ s = Abort.
Proof.
  unfold mapFileBuffer, MappedFileBuffer_new, bind, gets.
  destruct (negb (NDEBUG (w_env w)) && String.eqb path ""); simpl.
  { intros Heq. injection Heq as <-. right. reflexivity. }
  destruct (files (w_env w) !! path) as [node|]; simpl.
  - destruct (fstat_fails node); simpl.
    + intros Heq. injection Heq as <-. left. eexists. reflexivity.
    + destruct (mmap_ok node _); simpl; [discriminate|].
      intros Heq. injection Heq as <-. left. eexists. reflexivity.
  - intros Heq. injection Heq as <-. left. eexists. reflexivity.
Qed.

(** What [populate_sapp_desc_from_config] stores when it returns has the
    callbacks. *)
Lemma populate_returns {H} (w w' : world H) a :
  populate_sapp_desc_from_config w = (Ret a, w') ->
  exists desc,
    w' = set_w_statics (set_s_app_desc desc (w_statics w)) w /\
    init_cb desc = true /\ frame_cb desc = true /\
    cleanup_cb desc = true /\ event_cb desc = true.
Proof.
  unfold populate_sapp_desc_from_config, bind, global, gets.
  destruct (hasProperty _ _).
  - destruct (lift_jsi _ w) as [[config|s] w1] eqn:Hl; [|discriminate].
    assert (w1 = w) as ->.
    { revert Hl. unfold lift_jsi, throw, stop_with, ret.
      destruct (getPropertyAsObject _ _); intros Heq; congruence. }
    unfold ret, modify_statics. intros Heq. injection Heq as _ <-.
    exists (read_sappConfig config sapp_desc_default).
    rewrite read_sappConfig_fields. auto.
  - unfold ret, modify_statics. intros Heq. injection Heq as _ <-.
    exists sapp_desc_default. auto.
Qed.

Section KeepsBootstrap.

Context {H X : Type}.
Variable js : script H.
Variable p : world H -> X.
Hypothesis p_trace : forall w t, p (set_w_trace t w) = p w.
Hypothesis p_vm : forall w v, p (set_w_vm v w) = p w.
Hypothesis p_desc :
  forall w d, p (set_w_statics (set_s_app_desc d (w_statics w)) w) = p w.

Lemma keeps_setGlobalProperty name v : keeps p (@setGlobalProperty H name v).
Proof. intros w. apply p_vm. Qed.

Lemma keeps_mapFileBuffer path tz : keeps p (@mapFileBuffer H path tz).
Proof.
  intros w. destruct (mapFileBuffer_env w path tz) as (evs & Hrun & _).
  rewrite (Hrun w eq_refl). apply p_trace.
Qed.

Lemma keeps_imgui_load_unit nativeUnit bytecode jsPath sourceURL :
  keeps p (imgui_load_unit js nativeUnit bytecode jsPath sourceURL).
Proof.
  unfold imgui_load_unit, printf, evaluateSHUnit, evaluateJavaScript,
    evaluateJavaScriptWithSourceMap.
  apply keeps_bind.
  { destruct nativeUnit; [|apply keeps_ret].
    apply keeps_bind; [apply keeps_enter_vm; assumption|intros _].
    apply keeps_emit; assumption. }
  intros _. destruct jsPath as [jsPath|]; [|apply keeps_ret].
  destruct bytecode.
  - apply keeps_bind; [apply keeps_emit; assumption|intros _].
    apply keeps_bind; [apply keeps_mapFileBuffer|intros buffer].
    apply keeps_bind; [apply keeps_enter_vm; assumption|intros _].
    apply keeps_emit; assumption.
  - apply keeps_bind; [apply keeps_emit; assumption|intros _].
    apply keeps_bind; [apply keeps_mapFileBuffer|intros buffer].
    apply keeps_bind.
    { apply keeps_try_catch.
      - apply keeps_bind; [apply keeps_mapFileBuffer|intros b].
        apply keeps_bind; [apply keeps_emit; assumption|intros _].
        apply keeps_ret.
      - intros e h Heq. injection Heq as <-.
        apply keeps_bind; [apply keeps_emit; assumption|intros _].
        apply keeps_ret. }
    intros sm. apply keeps_bind; [|intros _; apply keeps_emit; assumption].
    destruct sm; apply keeps_enter_vm; assumption.
Qed.

Lemma keeps_imgui_main argv : keeps p (imgui_main js argv).
Proof.
  unfold imgui_main, imgui_main_default.
  apply keeps_bind; [apply keeps_gets|intros mode].
  apply keeps_bind; [apply keeps_gets|intros path].
  destruct (mode =? 0); [apply keeps_imgui_load_unit|].
  destruct (mode =? 1); [apply keeps_imgui_load_unit|].
  destruct (mode =? 2); [apply keeps_imgui_load_unit|apply keeps_ret].
Qed.

Lemma keeps_populate : keeps p (@populate_sapp_desc_from_config H).
Proof.
  unfold populate_sapp_desc_from_config, global.
  apply keeps_bind; [apply keeps_gets|intros g].
  apply keeps_bind; [|intros desc w; apply p_desc].
  destruct (hasProperty g "sappConfig"); [|apply keeps_ret].
  apply keeps_bind; [apply keeps_lift_jsi|intros config]. apply keeps_ret.
Qed.

Lemma keeps_after_seed argv : keeps p (after_seed js argv).
Proof.
  unfold after_seed.
  apply keeps_bind; [apply keeps_setGlobalProperty|intros _].
  apply keeps_bind; [apply keeps_setGlobalProperty|intros _].
  apply keeps_bind; [apply keeps_imgui_main|intros _].
  apply keeps_bind; [apply keeps_enter_vm; assumption|intros _].
  apply keeps_bind; [apply keeps_populate|intros _].
  apply keeps_bind; [apply keeps_gets|intros desc].
  destruct (negb (init_cb desc)); [apply keeps_stop_with|apply keeps_ret].
Qed.

End KeepsBootstrap.

Section BootstrapOutcome.

Context {H : Type}.
Variable js : script H.
Variable sk : sokol.

#[local] Abbreviation anywhere := (fun _ : world H => True).
#[local] Abbreviation boot_stop := (fun s : stop => (exists e, s = Throw e) \/ s = Abort).

Lemma boot_stop_jsi e : boot_stop (Throw (JSI e)).
Proof. left. eexists. reflexivity. Qed.

Lemma stops_boot_vm c f : stops_within anywhere boot_stop (@enter_vm H c f).
Proof. apply stops_enter_vm; auto. apply boot_stop_jsi. Qed.

Lemma stops_boot_emit e : stops_within anywhere boot_stop (@emit H e).
Proof. apply stops_emit; auto. Qed.

Lemma stops_boot_mapFileBuffer path tz :
  stops_within anywhere boot_stop (@mapFileBuffer H path tz).
Proof. intros w _. split; [exact I|]. intros s. apply mapFileBuffer_stops. Qed.

Lemma stops_boot_imgui_load_unit nativeUnit bytecode jsPath sourceURL :
  stops_within anywhere boot_stop (imgui_load_unit js nativeUnit bytecode jsPath sourceURL).
Proof.
  unfold imgui_load_unit, printf, evaluateSHUnit, evaluateJavaScript,
    evaluateJavaScriptWithSourceMap.
  apply stops_bind.
  { destruct nativeUnit; [|apply stops_ret].
    apply stops_bind; [apply stops_boot_vm|intros _]. apply stops_boot_emit. }
  intros _. destruct jsPath as [jsPath|]; [|apply stops_ret].
  destruct bytecode.
  - apply stops_bind; [apply stops_boot_emit|intros _].
    apply stops_bind; [apply stops_boot_mapFileBuffer|intros buffer].
    apply stops_bind; [apply stops_boot_vm|intros _].
    apply stops_boot_emit.
  - apply stops_bind; [apply stops_boot_emit|intros _].
    apply stops_bind; [apply stops_boot_mapFileBuffer|intros buffer].
    apply stops_bind.
    { apply (stops_try_catch anywhere boot_stop boot_stop).
      - apply stops_bind; [apply stops_boot_mapFileBuffer|intros b].
        apply stops_bind; [apply stops_boot_emit|intros _]. apply stops_ret.
      - intros s Hs. destruct s as [e| | | |]; try exact Hs.
        apply stops_bind; [apply stops_boot_emit|intros _]. apply stops_ret. }
    intros sm. apply stops_bind; [|intros _; apply stops_boot_emit].
    destruct sm; apply stops_boot_vm.
Qed.

Lemma stops_boot_after_seed argv :
  stops_within anywhere boot_stop (after_seed js argv).
Proof.
  unfold after_seed.
  apply stops_bind; [intros w _; split; [exact I|discriminate]|intros _].
  apply stops_bind; [intros w _; split; [exact I|discriminate]|intros _].
  apply stops_bind.
  { unfold imgui_main, imgui_main_default.
    apply stops_bind; [apply stops_gets|intros mode].
    apply stops_bind; [apply stops_gets|intros path].
    destruct (mode =? 0); [apply stops_boot_imgui_load_unit|].
    destruct (mode =? 1); [apply stops_boot_imgui_load_unit|].
    destruct (mode =? 2); [apply stops_boot_imgui_load_unit|apply stops_ret]. }
  intros _.
  apply stops_bind; [apply stops_boot_vm|intros _].
  apply stops_bind.
  { unfold populate_sapp_desc_from_config, global.
    apply stops_bind; [apply stops_gets|intros g].
    apply stops_bind; [|intros desc w _; split; [exact I|discriminate]].
    destruct (hasProperty g "sappConfig"); [|apply stops_ret].
    apply stops_bind; [apply stops_lift_jsi; apply boot_stop_jsi|intros config].
    apply stops_ret. }
  intros _.
  apply stops_bind; [apply stops_gets|intros desc].
  destruct (negb (init_cb desc)); [|apply stops_ret].
  apply stops_stop_with. left. eexists. reflexivity.
Qed.

(** The description [after_seed] returns is the one it has stored, with
    the callbacks. *)
Lemma after_seed_returns argv (w w' : world H) desc :
  after_seed js argv w = (Ret desc, w') ->
  desc = s_app_desc (w_statics w') /\
  init_cb desc = true /\ frame_cb desc = true /\
  cleanup_cb desc = true /\ event_cb desc = true.
Proof.
  unfold after_seed. intros Hrun.
  apply bind_ret_inv in Hrun as (? & w1 & _ & Hrun).
  apply bind_ret_inv in Hrun as (? & w2 & _ & Hrun).
  apply bind_ret_inv in Hrun as (? & w3 & _ & Hrun).
  apply bind_ret_inv in Hrun as (? & w4 & _ & Hrun).
  apply bind_ret_inv in Hrun as (? & w5 & Hpop & Hrun).
  apply populate_returns in Hpop as (d & -> & Hi & Hf & Hc & He).
  unfold bind, gets in Hrun. cbn [w_statics set_w_statics] in Hrun.
  rewrite s_app_desc_set in Hrun. rewrite Hi in Hrun. simpl in Hrun.
  injection Hrun as <- <-. cbn [w_statics set_w_statics]. rewrite s_app_desc_set. auto.
Qed.

(** [sokol_main] up to the call of [run], when the foundational library
    gives what is asked of it. *)
Lemma sokol_main_script_seed argv (w : world H) v vm1 helpers process env peek_ run_ :
  js_evaluateSHUnit js sh_export_jslib (w_vm w) = (inr v, vm1) ->
  asObject v = inr helpers ->
  getPropertyAsObject (vm_globals vm1) "process" = inr process ->
  getPropertyAsObject process "env" = inr env ->
  getPropertyAsFunction helpers "peek" = inr peek_ ->
  getPropertyAsFunction helpers "run" = inr run_ ->
  let nodeEnv := if NDEBUG (w_env w) then "production" else "development" in
  let vm2 :=
    {| vm_globals :=
         <["process" := JSObject (<["env" := JSObject (<["NODE_ENV" := JSString nodeEnv]> env)]>
                                    process)]> (vm_globals vm1);
       vm_heap := vm_heap vm1 |} in
  let args := [JSNumber (stm_ms sk (w_now w))] in
  let seeded := js_call js run_ args vm2 in
  let w3 :=
    {| w_vm := snd seeded;
       w_statics := set_s_hermesApp (Some {| peekMacroTask := peek_; runMacroTask := run_ |})
                      (w_statics w);
       w_env := w_env w; w_now := w_now w; w_sapp := w_sapp w;
       w_trace := w_trace w ++ [EvVM (EvaluateSHUnit sh_export_jslib) (inr v);
                                EvVM (CallFunction run_ args) (fst seeded)] |} in
  sokol_main_script js sk argv w =
    match fst seeded with
    | inr _ => after_seed js argv w3
    | inl e => (Stop (Throw (JSI e)), w3)
    end.
Proof.
  intros Hj Hh Hpr Hen Hp Hr nodeEnv vm2 args seeded w3.
  unfold sokol_main_script.
  unfold bind at 1. unfold evaluateSHUnit at 1, enter_vm. rewrite Hj.
  unfold bind at 1. rewrite Hh. cbn [lift_jsi ret].
  unfold bind at 1. cbn [gets].
  unfold bind at 1. unfold global at 1. cbn [gets].
  cbn [w_vm w_env w_statics w_now w_sapp w_trace set_w_vm set_w_trace].
  unfold bind at 1. rewrite Hpr. cbn [lift_jsi ret].
  unfold bind at 1. rewrite Hen. cbn [lift_jsi ret].
  unfold bind at 1. unfold setGlobalProperty at 1.
  unfold bind at 1. rewrite Hp. cbn [lift_jsi ret].
  unfold bind at 1. rewrite Hr. cbn [lift_jsi ret].
  unfold bind at 1. unfold modify_statics at 1.
  unfold bind at 1. unfold stm_now, gets.
  unfold bind at 1. unfold hermesApp at 1.
  cbn [w_vm w_env w_statics w_now w_sapp w_trace set_w_vm set_w_trace set_w_statics].
  rewrite s_hermesApp_set. cbv beta iota.
  unfold bind at 1. unfold call at 1, enter_vm.
  cbn [runMacroTask w_vm w_env w_statics w_now w_sapp w_trace set_w_vm set_w_trace
       set_w_statics].
  fold nodeEnv. fold vm2. fold args. fold seeded.
  destruct seeded as [[e|r] vm3] eqn:Hseed; cbn [fst snd] in *.
  - unfold w3. rewrite <- app_assoc. reflexivity.
  - unfold w3, after_seed. rewrite <- app_assoc. reflexivity.
Qed.

(** [sokol_main_script] stops by throwing or on an assertion, and when it
    returns the VM functions are resolved. *)
Lemma sokol_main_script_post argv (w : world H) :
  let r := sokol_main_script js sk argv w in
  (forall s, fst r = Stop s -> boot_stop s) /\
  (forall desc, fst r = Ret desc ->
     exists v helpers peek_ run_,
       fst (js_evaluateSHUnit js sh_export_jslib (w_vm w)) = inr v /\
       asObject v = inr helpers /\
       getPropertyAsFunction helpers "peek" = inr peek_ /\
       getPropertyAsFunction helpers "run" = inr run_ /\
       w_statics (snd r) =
         set_s_app_desc desc
           (set_s_hermesApp (Some {| peekMacroTask := peek_; runMacroTask := run_ |})
              (w_statics w)) /\
       w_env (snd r) = w_env w /\
       init_cb desc = true /\ frame_cb desc = true /\
       cleanup_cb desc = true /\ event_cb desc = true).
Proof.
  intros r. unfold r. clear r.
  destruct (sokol_main_script js sk argv w) as [o wf] eqn:Hrun. cbn [fst snd].
  unfold sokol_main_script in Hrun.
  unfold bind at 1 in Hrun. unfold evaluateSHUnit at 1, enter_vm in Hrun.
  destruct (js_evaluateSHUnit js sh_export_jslib (w_vm w)) as [[e|v] vm1] eqn:Hj.
  { injection Hrun as <- _. split; [|discriminate].
    intros s Heq. injection Heq as <-. apply boot_stop_jsi. }
  unfold bind at 1 in Hrun.
  destruct (asObject v) as [e|helpers] eqn:Hh.
  { injection Hrun as <- _. split; [|discriminate].
    intros s Heq. injection Heq as <-. apply boot_stop_jsi. }
  cbn [lift_jsi ret] in Hrun.
  unfold bind at 1 in Hrun. cbn [gets] in Hrun.
  unfold bind at 1 in Hrun. unfold global at 1 in Hrun. cbn [gets] in Hrun.
  unfold bind at 1 in Hrun.
  match type of Hrun with context [lift_jsi ?x] => destruct x as [e|process] end.
  { injection Hrun as <- _. split; [|discriminate].
    intros s Heq. injection Heq as <-. apply boot_stop_jsi. }
  cbn [lift_jsi ret] in Hrun.
  unfold bind at 1 in Hrun.
  match type of Hrun with context [lift_jsi ?x] => destruct x as [e|env] end.
  { injection Hrun as <- _. split; [|discriminate].
    intros s Heq. injection Heq as <-. apply boot_stop_jsi. }
  cbn [lift_jsi ret] in Hrun.
  unfold bind at 1 in Hrun. unfold setGlobalProperty at 1 in Hrun.
  unfold bind at 1 in Hrun.
  destruct (getPropertyAsFunction helpers "peek") as [e|peek_] eqn:Hp.
  { injection Hrun as <- _. split; [|discriminate].
    intros s Heq. injection Heq as <-. apply boot_stop_jsi. }
  cbn [lift_jsi ret] in Hrun.
  unfold bind at 1 in Hrun.
  destruct (getPropertyAsFunction helpers "run") as [e|run_] eqn:Hr.
  { injection Hrun as <- _. split; [|discriminate].
    intros s Heq. injection Heq as <-. apply boot_stop_jsi. }
  cbn [lift_jsi ret] in Hrun.
  unfold bind at 1 in Hrun. unfold modify_statics at 1 in Hrun.
  unfold bind at 1 in Hrun. unfold stm_now, gets in Hrun.
  unfold bind at 1 in Hrun. unfold hermesApp at 1 in Hrun.
  cbn [w_statics set_w_statics set_w_vm set_w_trace] in Hrun.
  rewrite s_hermesApp_set in Hrun. cbv beta iota in Hrun.
  unfold bind at 1 in Hrun. unfold call at 1, enter_vm in Hrun.
  cbn [runMacroTask w_vm w_now w_trace w_statics w_env w_sapp set_w_statics set_w_vm
       set_w_trace] in Hrun.
  match type of Hrun with context [js_call js run_ ?args ?v0] =>
    destruct (js_call js run_ args v0) as [[e|r0] vm2] end.
  { injection Hrun as <- _. split; [|discriminate].
    intros s Heq. injection Heq as <-. apply boot_stop_jsi. }
  match type of Hrun with _ ?w0 = _ =>
    change (after_seed js argv w0 = (o, wf)) in Hrun; set (w3 := w0) in * end.
  split.
  - intros s Heq. apply (proj2 (stops_boot_after_seed argv w3 I) s).
    rewrite Hrun. exact Heq.
  - intros desc ->.
    destruct (after_seed_returns argv w3 wf desc Hrun) as (Hd & Hi & Hf & Hc & He).
    exists v, helpers, peek_, run_.
    split; [reflexivity|]. split; [exact Hh|]. split; [exact Hp|].
    split; [exact Hr|].
    split.
    { pose proof (keeps_after_seed js
                    (fun w0 : world H =>
                       set_s_app_desc sapp_desc_zero (w_statics w0))
                    ltac:(reflexivity) ltac:(reflexivity)
                    ltac:(intros w0 d; cbn [w_statics set_w_statics];
                           destruct (w_statics w0); reflexivity)
                    argv w3) as Hk.
      rewrite Hrun in Hk. cbn [snd] in Hk.
      unfold w3 in Hk. cbn [w_statics] in Hk.
      revert Hd Hk. generalize (w_statics wf). generalize (w_statics w).
      intros s0 s1 Hd Hk. destruct s0, s1. cbn in *.
      injection Hk as -> -> -> -> -> -> -> -> -> -> -> -> -> ->.
      subst desc. reflexivity. }
    split.
    { pose proof (keeps_after_seed js (fun w0 : world H => w_env w0)
                    ltac:(reflexivity) ltac:(reflexivity) ltac:(reflexivity)
                    argv w3) as Hk.
      rewrite Hrun in Hk. exact Hk. }
    auto.
Qed.

End BootstrapOutcome.

Section WholeProcess.

Context {H : Type}.
Variable js : script H.
Variable sk : sokol.


Lemma stops_app_init nd :
  stops_within (@bootstrapped H nd) (fun s => s = Abort \/ s = Spin) (app_init js sk).
Proof.
  unfold app_init.
  apply stops_bind; [apply stops_sokol_do|intros _].
  apply stops_bind; [apply stops_sokol_do|intros _].
  apply stops_bind; [apply stops_sokol_do|intros _].
  apply stops_bind;
    [apply stops_modify_statics; intros s; destruct s; reflexivity|intros _].
  apply stops_bind; [apply stops_sokol_do|intros _].
  apply (stops_try_catch _ _ (script_stop nd)).
  - unfold app_init_script.
    apply stops_bind; [apply stops_hermesApp|intros _].
    apply stops_bind; [apply stops_call_global|intros _].
    apply stops_bind; [apply stops_vm|intros _].
    apply stops_ret.
  - intros s [[e ->]|[->|[_ ->]]]; [|right; reflexivity|left; reflexivity].
    apply stops_bind; [apply stops_slog_func|intros _].
    apply stops_stop_with. left. reflexivity.
Qed.

(** X10.  The process never ends on a C++ exception in flight or on the
    null [s_hermesApp]: whatever the scripts, the files and the
    callbacks that sokol makes, [run_app] returns, or stops with
    [exit(1)] (a bootstrap that failed), with [abort()] (a failed
    [on_init], or an assertion), or in the macrotask loop.  When it
    returns, the last things it did were to shut the three sokol libraries
    down and then the VM, and it has left no image and no application
    object behind. *)
Theorem run_app_ends fuel argv cbs (w : world H) :
  let r := run_app js sk fuel argv cbs w in
  match fst r with
  | Ret _ =>
      s_images (w_statics (snd r)) = [] /\
      s_hermesApp (w_statics (snd r)) = None /\
      exists pre,
        w_trace (snd r) = (pre ++ [EvSokol simgui_shutdown; EvSokol sdtx_shutdown;
                                   EvSokol sg_shutdown; EvShDone])%list
  | Stop s => s = Exit 1 \/ s = Abort \/ s = Spin
  end.
Proof.
  intros r. unfold r. clear r.
  destruct (run_app js sk fuel argv cbs w) as [o wf] eqn:Hrun. cbn [fst snd].
  unfold run_app in Hrun. unfold bind at 1 in Hrun.
  destruct (sokol_main js sk argv w) as [[desc|s] w0] eqn:Hmain.
  - assert (HQ : bootstrapped (NDEBUG (w_env w0)) w0).
    { apply sokol_main_returns in Hmain.
      destruct (sokol_main_script_post js sk argv w) as [_ Hret].
      rewrite Hmain in Hret. cbn [fst snd] in Hret.
      destruct (Hret desc eq_refl) as (v & helpers & peek_ & run_ & _ & _ & _ & _ & Hst & _).
      split; [|reflexivity]. rewrite Hst. destruct (w_statics w). simpl. discriminate. }
    set (nd := NDEBUG (w_env w0)) in *.
    unfold bind at 1 in Hrun.
    destruct (stops_sokol_do nd (fun _ => False) (sapp_create_window desc) w0 HQ)
      as [HQ1 Hs1].
    destruct (sokol_do (sapp_create_window desc) w0) as [[[]|s1] w1];
      [|exfalso; exact (Hs1 s1 eq_refl)].
    cbn [snd] in HQ1. unfold bind at 1 in Hrun.
    destruct (stops_app_init nd w1 HQ1) as [HQ2 Hs2].
    destruct (app_init js sk w1) as [[[]|s2] w2]; cbn [fst snd] in *.
    2:{ injection Hrun as <- _. destruct (Hs2 s2 eq_refl) as [->| ->]; auto. }
    unfold bind at 1 in Hrun.
    destruct (stops_steady_state js sk nd fuel cbs w2 HQ2) as [HQ3 Hs3].
    destruct (steady_state js sk fuel cbs w2) as [[[]|s3] w3]; cbn [fst snd] in *.
    2:{ injection Hrun as <- _. destruct (Hs3 s3 eq_refl) as [->|[_ ->]]; auto. }
    rewrite app_cleanup_run in Hrun. injection Hrun as <- <-.
    cbn [w_statics w_trace set_w_statics set_w_trace].
    split; [destruct (w_statics w3); reflexivity|].
    split; [destruct (w_statics w3); reflexivity|].
    destruct HQ3 as [Happ _].
    destruct (s_hermesApp (w_statics w3)) as [ha|]; [|contradiction].
    eexists. rewrite app_assoc. reflexivity.
  - injection Hrun as <- _. unfold sokol_main, try_catch in Hmain.
    destruct (sokol_main_script_post js sk argv w) as [Hstop _].
    destruct (sokol_main_script js sk argv w) as [[d|s1] w1]; [discriminate|].
    cbn [fst] in Hstop. specialize (Hstop s1 eq_refl).
    destruct s1 as [e| | | |];
      try (destruct Hstop as [[e' He']|He']; discriminate).
    + unfold bind, printf, emit, exit, stop_with in Hmain. injection Hmain as <- _. auto.
    + injection Hmain as <- _. auto.
Qed.

(** X11.  [NODE_ENV] is set first.  When the foundational library gives a
    [process.env] and the two task-queue functions, the VM in which
    [sokol_main] calls [run], the first function of the script that it
    calls and before any unit of the application is loaded, already has
    [process.env.NODE_ENV], ["production"] in a build without assertions
    and ["development"] otherwise; the rest of [process.env], of
    [process], of the global object and of the heap is as the library
    left it. *)
Theorem node_env_is_set_first argv (w : world H) v vm1 helpers process env peek_ run_ :
  js_evaluateSHUnit js sh_export_jslib (w_vm w) = (inr v, vm1) ->
  asObject v = inr helpers ->
  getPropertyAsObject (vm_globals vm1) "process" = inr process ->
  getPropertyAsObject process "env" = inr env ->
  getPropertyAsFunction helpers "peek" = inr peek_ ->
  getPropertyAsFunction helpers "run" = inr run_ ->
  let nodeEnv := if NDEBUG (w_env w) then "production" else "development" in
  let args := [JSNumber (stm_ms sk (w_now w))] in
  exists (vm2 : vm H) process' env',
    vm_globals vm2 !! "process" = Some (JSObject process') /\
    process' !! "env" = Some (JSObject env') /\
    env' !! "NODE_ENV" = Some (JSString nodeEnv) /\
    (forall k, k <> "NODE_ENV" -> env' !! k = env !! k) /\
    (forall k, k <> "env" -> process' !! k = process !! k) /\
    (forall k, k <> "process" -> vm_globals vm2 !! k = vm_globals vm1 !! k) /\
    vm_heap vm2 = vm_heap vm1 /\
    exists post,
      w_trace (snd (sokol_main_script js sk argv w)) =
        (w_trace w ++ EvVM (EvaluateSHUnit sh_export_jslib) (inr v)
           :: EvVM (CallFunction run_ args) (fst (js_call js run_ args vm2)) :: post)%list.
Proof.
  intros Hj Hh Hpr Hen Hp Hr nodeEnv args.
  rewrite (sokol_main_script_seed js sk argv w v vm1 helpers process env peek_ run_
             Hj Hh Hpr Hen Hp Hr).
  cbv zeta. fold nodeEnv. fold args.
  set (env' := <["NODE_ENV" := JSString nodeEnv]> env).
  set (process' := <["env" := JSObject env']> process).
  set (vm2 := {| vm_globals := <["process" := JSObject process']> (vm_globals vm1);
                 vm_heap := vm_heap vm1 |}).
  exists vm2, process', env'.
  split; [apply lookup_insert_eq|]. split; [apply lookup_insert_eq|].
  split; [apply lookup_insert_eq|].
  split; [intros k Hk; apply lookup_insert_ne; congruence|].
  split; [intros k Hk; apply lookup_insert_ne; congruence|].
  split; [intros k Hk; apply lookup_insert_ne; congruence|].
  split; [reflexivity|].
  destruct (js_call js run_ args vm2) as [[e|r0] vm3]; cbn [fst snd].
  - exists []. reflexivity.
  - match goal with |- context [after_seed js argv ?w0] =>
      destruct (emits_after_seed js argv w0) as (post & Htr & _) end.
    exists post. rewrite Htr. cbn [w_trace]. rewrite <- app_assoc. reflexivity.
Qed.

End WholeProcess.


Lemma node_env_is_set_first_witness :
  let w := Demo.boot_world 0 "" 0 in
  exists vm1 (vm2 : vm Demo.heap) process' env' post,
    js_evaluateSHUnit Demo.the_script sh_export_jslib (w_vm w) =
      (inr (JSObject (<["peek" := JSFunction Demo.fn_peek]>
                        {["run" := JSFunction Demo.fn_run]})), vm1) /\
    vm_globals vm2 !! "process" = Some (JSObject process') /\
    process' !! "env" = Some (JSObject env') /\
    env' !! "NODE_ENV" = Some (JSString "production") /\
    w_trace (snd (sokol_main_script Demo.the_script Demo.the_sokol [] w)) =
      EvVM (EvaluateSHUnit sh_export_jslib)
           (inr (JSObject (<["peek" := JSFunction Demo.fn_peek]>
                             {["run" := JSFunction Demo.fn_run]})))
      :: EvVM (CallFunction Demo.fn_run [JSNumber (stm_ms Demo.the_sokol 0)])
              (fst (js_call Demo.the_script Demo.fn_run
                      [JSNumber (stm_ms Demo.the_sokol 0)] vm2))
      :: post.
Proof.
  intros w.
  set (helpers := <["peek" := JSFunction Demo.fn_peek]>
                    ({["run" := JSFunction Demo.fn_run]} : gmap string jsvalue)).
  set (vm1 := snd (js_evaluateSHUnit Demo.the_script sh_export_jslib (w_vm w))).
  destruct (node_env_is_set_first Demo.the_script Demo.the_sokol [] w
              (JSObject helpers) vm1 helpers {["env" := JSObject ∅]} ∅
              Demo.fn_peek Demo.fn_run)
    as (vm2 & process' & env' & Hpr & Hen & Hne & _ & _ & _ & _ & post & Htr);
    try (vm_compute; reflexivity).
  exists vm1, vm2, process', env', post.
  split; [reflexivity|]. split; [exact Hpr|]. split; [exact Hen|].
  split; [exact Hne|]. exact Htr.
Defined.

(* ================================================================= *)
(** ** The callbacks of the steady state *)

Section CallbackTraces.

Context {H : Type}.
Variable js : script H.
Variable sk : sokol.

#[local] Abbreviation offscreen := (fun e : event => is_sokol e = false).

Lemma emits_hermesApp E : emits E (@hermesApp H).
Proof.
  apply emits_nothing. intros w. unfold hermesApp.
  destruct (s_hermesApp (w_statics w)); reflexivity.
Qed.

Lemma emits_offscreen_vm c f : emits offscreen (@enter_vm H c f).
Proof. apply emits_enter_vm. reflexivity. Qed.

Lemma emits_offscreen_call_global name args :
  emits offscreen (call_global js name args).
Proof.
  unfold call_global, global.
  apply emits_bind; [apply emits_gets|intros g].
  apply emits_bind; [apply emits_lift_jsi|intros f].
  apply emits_offscreen_vm.
Qed.

Lemma emits_offscreen_run_ready_macrotasks fuel curTimeMs :
  emits offscreen (run_ready_macrotasks js fuel curTimeMs).
Proof.
  induction fuel as [|fuel IH]; simpl.
  - apply emits_stop_with.
  - apply emits_bind; [apply emits_hermesApp|intros app].
    apply emits_bind; [unfold peek; apply emits_bind|intros d].
    + apply emits_offscreen_vm.
    + intros v. unfold getNumber. destruct v;
        try (apply emits_ret);
        (apply emits_bind; [apply emits_gets|intros []; [apply emits_ret|apply emits_stop_with]]).
    + destruct (dge d dzero && dle d curTimeMs); [|apply emits_ret].
      apply emits_bind; [apply emits_offscreen_vm|intros _].
      apply emits_bind; [apply emits_offscreen_vm|intros _].
      exact IH.
Qed.

Lemma emits_offscreen_try_log (m : M H unit) :
  emits offscreen m ->
  emits offscreen
    (try_catch m (fun e => match e with
                           | JSI e' => Some (slog_func "ERROR" (jsi_what e'))
                           | _ => None
                           end)).
Proof.
  intros Hm. apply emits_try_catch; [exact Hm|].
  intros e h Heq. destruct e as [e'|msg]; [|discriminate].
  injection Heq as <-. apply emits_emit. reflexivity.
Qed.

Lemma emits_offscreen_app_frame_script fuel now curTimeMs :
  emits offscreen (app_frame_script js sk fuel now curTimeMs).
Proof.
  unfold app_frame_script.
  apply emits_bind; [apply emits_offscreen_run_ready_macrotasks|intros _].
  apply emits_bind; [apply emits_gets|intros sa].
  apply emits_bind; [apply emits_gets|intros start].
  apply emits_bind; [apply emits_offscreen_call_global|intros _].
  apply emits_bind; [apply emits_offscreen_vm|intros _].
  apply emits_ret.
Qed.

Lemma emits_offscreen_app_event_script ev :
  emits offscreen (app_event_script js ev).
Proof.
  unfold app_event_script.
  apply emits_bind; [apply emits_hermesApp|intros _].
  apply emits_bind; [apply emits_offscreen_call_global|intros _].
  apply emits_bind; [apply emits_offscreen_vm|intros _].
  apply emits_ret.
Qed.

Lemma keeps_app_event_script {X} (p : world H -> X) ev :
  (forall w t, p (set_w_trace t w) = p w) ->
  (forall w v, p (set_w_vm v w) = p w) ->
  keeps p (app_event_script js ev).
Proof.
  intros Ht Hv. unfold app_event_script.
  apply keeps_bind; [apply keeps_hermesApp|intros _].
  apply keeps_bind; [apply keeps_call_global; assumption|intros _].
  apply keeps_bind; [apply keeps_enter_vm; assumption|intros _].
  apply keeps_ret.
Qed.

Lemma keeps_app_event {X} (p : world H -> X) ev :
  (forall w t, p (set_w_trace t w) = p w) ->
  (forall w v, p (set_w_vm v w) = p w) ->
  keeps p (app_event js sk ev).
Proof.
  intros Ht Hv. unfold app_event.
  destruct (is_quit_gesture sk ev); [apply keeps_emit; assumption|].
  apply keeps_bind; [|intros _; apply keeps_emit; assumption].
  apply keeps_try_catch; [apply keeps_app_event_script; assumption|].
  intros e h Heq. destruct e as [e'|msg]; [|discriminate].
  injection Heq as <-. apply keeps_emit; assumption.
Qed.

(** The handler of an event in which only the VM can throw ends by
    returning. *)
Lemma logged_event_returns nd ev (w : world H) :
  bootstrapped nd w ->
  fst (try_catch (app_event_script js ev)
         (fun e => match e with
                   | JSI e' => Some (slog_func "ERROR" (jsi_what e'))
                   | _ => None
                   end) w) = Ret tt.
Proof.
  intros HQ. apply outcome_unit_ret. intros s Heq.
  assert (Hs : stops_within (@bootstrapped H nd) (fun s => exists e, s = Throw (JSI e))
                 (app_event_script js ev)).
  { unfold app_event_script, call_global, global.
    apply stops_bind; [apply stops_hermesApp|intros _].
    apply stops_bind.
    { apply stops_bind; [apply stops_gets|intros g].
      apply stops_bind; [apply stops_lift_jsi; eauto|intros f].
      apply stops_enter_vm; eauto using bootstrapped_trace, bootstrapped_vm. }
    intros _. apply stops_bind; [|intros _; apply stops_ret].
    apply stops_enter_vm; eauto using bootstrapped_trace, bootstrapped_vm. }
  refine (proj2 (stops_try_catch (@bootstrapped H nd) (fun _ => False) _ _ _ Hs _ w HQ) s Heq).
  intros s0 [e ->]. apply stops_slog_func.
Qed.

Lemma offscreen_not_frame_call (evs : list event) :
  Forall (fun e => is_sokol e = false) evs ->
  Forall (fun e => is_frame_call e = false) evs.
Proof.
  apply List.Forall_impl. intros e He. destruct e; try reflexivity. discriminate.
Qed.

(** X12.  A window event lets no exception out: [app_event] returns, or
    the process was aborted under the script.  The quit gesture (Q with
    the super key down) asks sokol to quit and does nothing else: the
    event is shown neither to the script nor to ImGui.  Every other event
    is handed to ImGui exactly once, as the last thing [app_event] does
    when it returns, whatever the script did with it and also when
    [on_event] threw, after the error is logged; when [on_event] is
    missing, the log of that error and the forwarding are all it does. *)
Theorem app_event_forwards (w : world H) (ev : sapp_event) :
  s_hermesApp (w_statics w) <> None ->
  let r := app_event js sk ev w in
  let forward := EvSokol (simgui_handle_event ev) in
  (is_quit_gesture sk ev = true ->
     r = (Ret tt, set_w_trace (w_trace w ++ [EvSokol sapp_request_quit]) w)) /\
  (is_quit_gesture sk ev = false ->
     (forall e,
        getPropertyAsFunction (vm_globals (w_vm w)) "on_event" = inl e ->
        r = (Ret tt,
             set_w_trace (w_trace w ++ [EvSlog "ERROR" (jsi_what e); forward]) w)) /\
     (forall s, fst r = Stop s -> s = Abort) /\
     (fst r = Ret tt ->
      exists evs,
        w_trace (snd r) = (w_trace w ++ evs ++ [forward])%list /\
        Forall (fun e => is_frame_call e = false) evs)).
Proof.
  intros Happ r forward. unfold r. clear r. split.
  - intros Hq. unfold app_event. rewrite Hq. reflexivity.
  - intros Hq. unfold app_event. rewrite Hq.
    split; [|split].
    + intros e He. unfold bind at 1. unfold try_catch, app_event_script.
      unfold bind at 1. unfold hermesApp at 1.
      destruct (s_hermesApp (w_statics w)) as [ha|]; [|contradiction].
      unfold bind at 1. unfold call_global at 1. unfold bind at 1. unfold global at 1.
      cbn [gets]. unfold bind at 1. rewrite He. cbn [lift_jsi throw stop_with].
      unfold slog_func, sokol_do, emit. cbn [w_trace set_w_trace].
      rewrite <- app_assoc. reflexivity.
    + intros s Hs. exfalso. unfold bind in Hs.
      pose proof (logged_event_returns (NDEBUG (w_env w)) ev w (conj Happ eq_refl)) as Hret.
      destruct (try_catch _ _ w) as [[[]|s0] w1]; discriminate.
    + intros _. unfold bind.
      destruct (emits_offscreen_try_log _ (emits_offscreen_app_event_script ev) w)
        as (evs & Htr & Hoff).
      pose proof (logged_event_returns (NDEBUG (w_env w)) ev w (conj Happ eq_refl)) as Hret.
      destruct (try_catch _ _ w) as [[[]|s] w1]; [|discriminate].
      cbn [snd] in Htr. exists evs.
      split; [|apply offscreen_not_frame_call; exact Hoff].
      unfold sokol_do, emit. cbn [snd w_trace set_w_trace]. rewrite Htr.
      rewrite <- app_assoc. reflexivity.
Qed.

Lemma update_frame_clock_run now (w : world H) :
  exists st,
    update_frame_clock sk now w = (Ret tt, set_w_statics st w) /\
    s_hermesApp st = s_hermesApp (w_statics w) /\
    s_bg_color st = s_bg_color (w_statics w).
Proof.
  unfold update_frame_clock, bind, gets, modify_statics, ret.
  destruct (negb (s_started (w_statics w))).
  - eexists. cbn [w_statics set_w_statics w_vm w_env w_now w_sapp w_trace].
    split; [reflexivity|]. destruct (w_statics w); split; reflexivity.
  - destruct (stm_diff sk now (s_last_fps_time (w_statics w)) >? 1000000000).
    + eexists. cbn [w_statics set_w_statics w_vm w_env w_now w_sapp w_trace].
      split; [reflexivity|]. destruct (w_statics w); split; reflexivity.
    + exists (w_statics w). split; [destruct w; reflexivity|split; reflexivity].
Qed.

Lemma draw_overlay_sdtx (w : world H) :
  exists overlay,
    draw_overlay w = (Ret tt, set_w_trace (w_trace w ++ overlay) w) /\
    Forall (fun e => is_sdtx e = true) overlay.
Proof.
  unfold draw_overlay, bind, gets, sokol_do, emit, ret. simpl.
  destruct (dgt (s_react_avg_ms_display (w_statics w)) dzero); simpl;
    eexists; (split; [rewrite <- !app_assoc; simpl; reflexivity|]);
    repeat constructor.
Qed.

Lemma frame_end_pass nd (w : world H) :
  bootstrapped nd w ->
  exists s' overlay,
    frame_end w =
      (Ret tt,
       set_w_trace (w_trace w ++ EvSokol simgui_render :: overlay
                      ++ [EvSokol sg_end_pass; EvSokol sg_commit])
                   (set_w_statics s' w)) /\
    Forall (fun e => is_sdtx e = true) overlay.
Proof.
  intros HQ. destruct (update_performance_metrics_silent nd w HQ) as (s' & Hm & _).
  unfold frame_end. unfold bind at 1. rewrite Hm.
  unfold bind at 1. unfold sokol_do at 1, emit at 1.
  unfold bind at 1.
  match goal with |- context [draw_overlay ?w1] =>
    destruct (draw_overlay_sdtx w1) as (overlay & Hd & Hall) end.
  rewrite Hd. unfold bind, sokol_do, emit. simpl.
  exists s', overlay. split; [|exact Hall].
  rewrite <- !app_assoc. reflexivity.
Qed.

(** X13.  A tick is one render pass.  [app_frame] first starts the frame
    of ImGui and begins the pass, with the size and the frame time of the
    window and the background colour as the clear value; the script is
    entered only after that, and between the two ends of the pass the host
    makes no call of the frame; and when the tick returns, the pass is
    rendered, the overlay drawn, the pass ended and the frame committed,
    in this order, whether or not the script threw.  A tick from which no
    return comes lets no exception out: the process has stopped, in the
    macrotask loop or with [abort()], and the pass is left open. *)
Theorem frame_is_one_pass fuel (w : world H) :
  s_hermesApp (w_statics w) <> None ->
  let r := app_frame js sk fuel w in
  let sa := w_sapp w in
  let opening :=
    [EvSokol (simgui_new_frame (sapp_width sa) (sapp_height sa) (sapp_frame_duration sa));
     EvSokol (sg_begin_default_pass (s_bg_color (w_statics w))
                (sapp_width sa) (sapp_height sa))] in
  exists script_evs,
    Forall (fun e => is_frame_call e = false) script_evs /\
    match fst r with
    | Ret _ =>
        exists overlay,
          w_trace (snd r) =
            (w_trace w ++ opening ++ script_evs ++ EvSokol simgui_render :: overlay
               ++ [EvSokol sg_end_pass; EvSokol sg_commit])%list /\
          Forall (fun e => is_sdtx e = true) overlay
    | Stop s =>
        (s = Spin \/ s = Abort) /\
        w_trace (snd r) = (w_trace w ++ opening ++ script_evs)%list
    end.
Proof.
  intros Happ r sa opening. unfold r. clear r.
  destruct (app_frame js sk fuel w) as [o wf] eqn:Hrun. cbn [fst snd].
  unfold app_frame in Hrun. unfold bind at 1 in Hrun. unfold stm_now, gets in Hrun.
  unfold bind at 1 in Hrun.
  assert (Hbegin : exists st,
             frame_begin sk (w_now w) w =
               (Ret tt, set_w_trace (w_trace w ++ opening) (set_w_statics st w)) /\
             s_hermesApp st = s_hermesApp (w_statics w)).
  { unfold frame_begin. unfold bind at 1.
    destruct (update_frame_clock_run (w_now w) w) as (st & -> & Hst & Hbg).
    exists st. split; [|exact Hst].
    unfold bind, gets, sokol_do, emit.
    cbn [w_sapp w_trace w_statics set_w_statics set_w_trace]. rewrite Hbg.
    rewrite <- app_assoc. reflexivity. }
  destruct Hbegin as (st & Hb & Hst). rewrite Hb in Hrun.
  set (wb := set_w_trace (w_trace w ++ opening) (set_w_statics st w)) in *.
  assert (HQ : bootstrapped (NDEBUG (w_env w)) wb).
  { split; [simpl; rewrite Hst; exact Happ|reflexivity]. }
  set (nd := NDEBUG (w_env w)) in *.
  unfold bind at 1 in Hrun.
  destruct (emits_offscreen_try_log _
              (emits_offscreen_app_frame_script fuel (w_now w) (stm_ms sk (w_now w))) wb)
    as (evs & Htr & Hoff).
  destruct (stops_try_log nd _ (stops_app_frame_script js sk nd fuel (w_now w)
                                  (stm_ms sk (w_now w))) wb HQ) as [HQ1 Hstop].
  exists evs. split; [apply offscreen_not_frame_call; exact Hoff|].
  destruct (try_catch _ _ wb) as [[[]|s] w1]; cbn [fst snd] in *.
  - destruct (frame_end_pass nd w1 HQ1) as (s' & overlay & Hend & Hshape).
    rewrite Hend in Hrun. injection Hrun as <- <-.
    cbn [w_trace set_w_trace set_w_statics].
    exists overlay. split; [|exact Hshape].
    rewrite Htr. unfold wb. cbn [w_trace set_w_trace].
    rewrite <- !app_assoc. reflexivity.
  - injection Hrun as <- <-. split.
    { destruct (Hstop s eq_refl) as [->|[_ ->]]; auto. }
    rewrite Htr. unfold wb. cbn [w_trace set_w_trace]. rewrite <- !app_assoc. reflexivity.
Qed.

End CallbackTraces.

Lemma app_event_forwards_witness :
  let w := Demo.running_world Demo.running_globals [] true statics_init 0 in
  let bare := Demo.running_world ∅ [] false statics_init 0 in
  let key := {| ev_type := 1; key_code := 65; modifiers := 0 |} in
  let quit := {| ev_type := 1; key_code := 81; modifiers := 8 |} in
  s_hermesApp (w_statics w) <> None /\
  fst (app_event Demo.the_script Demo.the_sokol key w) = Ret tt /\
  last (w_trace (snd (app_event Demo.the_script Demo.the_sokol key w))) =
    Some (EvSokol (simgui_handle_event key)) /\
  app_event Demo.the_script Demo.the_sokol quit w =
    (Ret tt, set_w_trace [EvSokol sapp_request_quit] w) /\
  w_trace (snd (app_event Demo.the_script Demo.the_sokol key bare)) =
    [EvSlog "ERROR" "getPropertyAsObject: property 'on_event' is not an Object\n\n";
     EvSokol (simgui_handle_event key)].
Proof.
  intros w bare key quit.
  assert (Happ : s_hermesApp (w_statics w) <> None) by (vm_compute; discriminate).
  assert (Hbare : s_hermesApp (w_statics bare) <> None) by (vm_compute; discriminate).
  assert (Hret : fst (app_event Demo.the_script Demo.the_sokol key w) = Ret tt)
    by (vm_compute; reflexivity).
  split; [exact Happ|]. split; [exact Hret|].
  destruct (app_event_forwards Demo.the_script Demo.the_sokol w key Happ) as (_ & Hkey).
  destruct (Hkey eq_refl) as (_ & _ & Hfw).
  destruct (Hfw Hret) as (evs & Htr & _).
  destruct (app_event_forwards Demo.the_script Demo.the_sokol w quit Happ) as (Hquit & _).
  destruct (app_event_forwards Demo.the_script Demo.the_sokol bare key Hbare) as (_ & Hb).
  destruct (Hb eq_refl) as (Hmissing & _ & _).
  split; [|split].
  - rewrite Htr. rewrite app_assoc. rewrite last_snoc. reflexivity.
  - rewrite (Hquit eq_refl). reflexivity.
  - rewrite (Hmissing (JSError "getPropertyAsObject: property 'on_event' is not an Object" ""))
      by (vm_compute; reflexivity).
    vm_compute. reflexivity.
Defined.

Lemma frame_is_one_pass_witness :
  let w := Demo.running_world Demo.running_globals [Demo.task_A] false statics_init
             10000000 in
  let r := app_frame DemoImages.throwing_run_script Demo.the_sokol 5 w in
  s_hermesApp (w_statics w) <> None /\
  fst r = Ret tt /\
  exists script_evs overlay,
    w_trace (snd r) =
      (EvSokol (simgui_new_frame 640 480 (ddiv d_one (double_of_Z 60)))
         :: EvSokol (sg_begin_default_pass [dzero; dzero; dzero; dzero] 640 480)
         :: script_evs
         ++ EvSokol simgui_render :: overlay
         ++ [EvSokol sg_end_pass; EvSokol sg_commit])%list /\
    Forall (fun e => is_frame_call e = false) script_evs /\
    Forall (fun e => is_sdtx e = true) overlay /\
    In (EvSlog "ERROR" "task failed\n\nat task") script_evs.
Proof.
  intros w r.
  assert (Happ : s_hermesApp (w_statics w) <> None) by (vm_compute; discriminate).
  assert (Hret : fst r = Ret tt) by (vm_compute; reflexivity).
  split; [exact Happ|]. split; [exact Hret|].
  destruct (frame_is_one_pass DemoImages.throwing_run_script Demo.the_sokol 5 w Happ)
    as (script_evs & Hoff & Hcase).
  fold r in Hcase. rewrite Hret in Hcase.
  destruct Hcase as (overlay & Htr & Hov).
  exists script_evs, overlay. split; [exact Htr|]. split; [exact Hoff|]. split; [exact Hov|].
  assert (Hin : In (EvSlog "ERROR" "task failed\n\nat task") (w_trace (snd r))).
  { vm_compute. do 4 right. left. reflexivity. }
  rewrite Htr in Hin. cbn [w_trace app] in Hin.
  destruct Hin as [Hin|[Hin|Hin]]; try discriminate.
  apply in_app_or in Hin as [Hin|Hin]; [exact Hin|].
  exfalso. destruct Hin as [Hin|Hin]; [discriminate|].
  apply in_app_or in Hin as [Hin|Hin].
  - pose proof (proj1 (List.Forall_forall _ _) Hov _ Hin) as Hx. discriminate.
  - destruct Hin as [Hin|[Hin|[]]]; discriminate.
Defined.

(* ================================================================= *)
(** ** The steady state over many callbacks *)

Section SteadyStateMore.

Context {H : Type}.
Variable js : script H.
Variable sk : sokol.

(** The statics that the steady state does not touch once the clock of
    the frames is started. *)
#[local] Abbreviation settled :=
  (fun s : statics => (s_started s, s_start_time s, s_app_desc s, s_hermesApp s)).

Lemma run_callback_settled fuel cb (w : world H) :
  s_started (w_statics w) = true ->
  settled (w_statics (snd (run_callback js sk fuel cb w))) = settled (w_statics w).
Proof.
  intros Hstarted. destruct cb as [now sa|ev]; simpl.
  - rewrite (app_frame_after_clock js sk settled fuel (set_w_tick now sa w))
      by (intros s f; destruct s; reflexivity).
    rewrite update_frame_clock_statics. cbn [w_statics set_w_tick w_sapp w_now].
    destruct (w_statics w) as [a sm i st t0 tl f ra rm ia rad rmd iad bg d].
    cbn [s_started] in Hstarted. subst st. cbn [s_started s_last_fps_time negb].
    destruct (stm_diff sk now tl >? 1000000000); reflexivity.
  - exact (keeps_app_event js sk (fun w0 => settled (w_statics w0)) ev
             ltac:(reflexivity) ltac:(reflexivity) w).
Qed.

(** X14.  The origin of time is fixed.  Once a first tick has started the
    clock of the frames, no sequence of ticks and window events, however
    long and whatever the scripts do, moves [s_start_time], from which the
    time passed to [on_frame] is counted, stops the clock, or changes the
    description of the application or the task-queue functions. *)
Theorem time_origin_is_fixed fuel (cbs : list callback) (w : world H) :
  s_started (w_statics w) = true ->
  let s' := w_statics (snd (steady_state js sk fuel cbs w)) in
  s_started s' = true /\
  s_start_time s' = s_start_time (w_statics w) /\
  s_app_desc s' = s_app_desc (w_statics w) /\
  s_hermesApp s' = s_hermesApp (w_statics w).
Proof.
  intros Hstarted s'.
  assert (Hall : settled s' = settled (w_statics w)).
  { unfold s'. clear s'. revert w Hstarted.
    induction cbs as [|cb rest IH]; intros w Hstarted; [reflexivity|].
    cbn [steady_state]. unfold bind.
    pose proof (run_callback_settled fuel cb w Hstarted) as Hcb.
    destruct (run_callback js sk fuel cb w) as [[[]|s] w1]; cbn [snd] in *.
    - rewrite IH; [exact Hcb|]. injection Hcb as -> _ _ _. exact Hstarted.
    - exact Hcb. }
  injection Hall as -> -> -> ->. rewrite Hstarted. auto.
Qed.

(** *** Tasks and microtasks *)

Lemma drained_nil : drained [].
Proof. intros pre x post Heq. destruct pre; discriminate. Qed.

Lemma drained_app evs1 evs2 : drained evs1 -> drained evs2 -> drained (evs1 ++ evs2).
Proof.
  intros H1 H2 pre x post Heq Hx.
  destruct (decide (length pre < length evs1)%nat) as [Hlt|Hge].
  - assert (Hpre : exists post1, evs1 = (pre ++ x :: post1)%list /\ post = (post1 ++ evs2)%list).
    { exists (drop (S (length pre)) evs1).
      assert (Ht : take (length pre) (evs1 ++ evs2) = pre)
        by (rewrite Heq; apply take_app_length).
      assert (Hd : drop (length pre) (evs1 ++ evs2) = x :: post)
        by (rewrite Heq; apply drop_app_length).
      rewrite take_app_le in Ht by lia.
      rewrite drop_app_le in Hd by lia.
      destruct (drop (length pre) evs1) as [|y rest] eqn:Hdrop.
      { apply (f_equal length) in Hdrop. rewrite length_drop in Hdrop. simpl in Hdrop. lia. }
      simpl in Hd. injection Hd as -> <-.
      split.
      - rewrite <- (take_drop (length pre) evs1) at 1. rewrite Ht, Hdrop.
        f_equal. f_equal.
        change (S (length pre)) with (1 + length pre)%nat.
        rewrite Nat.add_comm, <- drop_drop, Hdrop. reflexivity.
      - change (S (length pre)) with (1 + length pre)%nat.
        rewrite Nat.add_comm, <- drop_drop, Hdrop. reflexivity. }
    destruct Hpre as (post1 & He1 & ->).
    destruct (H1 pre x post1 He1 Hx) as (d & post' & -> & Hd).
    exists d, (post' ++ evs2)%list. split; [reflexivity|exact Hd].
  - assert (Hpre : exists pre2, pre = (evs1 ++ pre2)%list /\ evs2 = (pre2 ++ x :: post)%list).
    { exists (drop (length evs1) pre).
      assert (Ht : take (length evs1) (pre ++ x :: post) = evs1)
        by (rewrite <- Heq; apply take_app_length).
      assert (Hd : drop (length evs1) (pre ++ x :: post) = evs2)
        by (rewrite <- Heq; apply drop_app_length).
      rewrite take_app_le in Ht by lia.
      rewrite drop_app_le in Hd by lia.
      split; [|symmetry; exact Hd].
      rewrite <- (take_drop (length evs1) pre) at 1. rewrite Ht. reflexivity. }
    destruct Hpre as (pre2 & -> & He2).
    exact (H2 pre2 x post He2 Hx).
Qed.

Lemma drained_single e : is_task e = false -> drained [e].
Proof.
  intros He pre x post Heq Hx.
  destruct pre as [|y pre]; [|destruct pre; discriminate].
  injection Heq as -> _. congruence.
Qed.

Lemma drained_cons e evs : is_task e = false -> drained evs -> drained (e :: evs).
Proof. intros He Hevs. apply (drained_app [e] evs); [apply drained_single; exact He|exact Hevs]. Qed.

Lemma drained_task_drain e d evs :
  is_drain d = true -> drained evs -> drained (e :: d :: evs).
Proof.
  intros Hd Hevs pre x post Heq Hx.
  destruct pre as [|y pre].
  - injection Heq as _ <-. exists d, evs. auto.
  - injection Heq as _ Heq.
    assert (Hnt : is_task d = false) by (destruct d as [[]| | | | |]; try discriminate; reflexivity).
    exact (drained_cons d evs Hnt Hevs pre x post Heq Hx).
Qed.

Lemma appends_nothing {A} (R : list event -> Prop) (m : M H A) :
  R [] -> (forall w, w_trace (snd (m w)) = w_trace w) -> appends R m.
Proof. intros HR Hm w. exists []. rewrite Hm, app_nil_r. auto. Qed.

Lemma appends_bind {A B} (R : list event -> Prop) (m : M H A) (k : A -> M H B) :
  (forall evs1 evs2, R evs1 -> R evs2 -> R (evs1 ++ evs2)%list) ->
  appends R m -> (forall a, appends R (k a)) -> appends R (bind m k).
Proof.
  intros Happ Hm Hk w. unfold bind. destruct (Hm w) as (evs1 & Ht1 & HR1).
  destruct (m w) as [[a|s] w1]; cbn [snd] in *.
  - destruct (Hk a w1) as (evs2 & Ht2 & HR2).
    exists (evs1 ++ evs2)%list. rewrite Ht2, Ht1, <- app_assoc. auto.
  - exists evs1. auto.
Qed.

(** A call of a function of the script and the drain that follows it. *)
Lemma appends_call_then_drain {B} f args (k : jsvalue -> M H B) :
  (forall a, appends drained (k a)) ->
  appends drained (bind (call js f args) (fun _ => bind (drainMicrotasks js) k)).
Proof.
  intros Hk w. unfold bind, call, drainMicrotasks, enter_vm.
  destruct (js_call js f args (w_vm w)) as [[e|r] v1]; cbn [snd w_trace set_w_trace].
  - exists [EvVM (CallFunction f args) (inl e)]. split; [reflexivity|].
    apply drained_single. destruct args; reflexivity.
  - cbn [w_vm set_w_vm set_w_trace w_trace].
    destruct (js_drainMicrotasks js v1) as [[e|r2] v2]; cbn [snd w_trace set_w_trace].
    + exists [EvVM (CallFunction f args) (inr r); EvVM DrainMicrotasks (inl e)].
      split; [rewrite <- app_assoc; reflexivity|].
      apply drained_task_drain; [reflexivity|apply drained_nil].
    + match goal with |- context [k r2 ?w2] => destruct (Hk r2 w2) as (evs & Ht & HR) end.
      exists (EvVM (CallFunction f args) (inr r) :: EvVM DrainMicrotasks (inr r2) :: evs).
      split; [|apply drained_task_drain; [reflexivity|exact HR]].
      rewrite Ht. cbn [w_trace set_w_trace]. rewrite <- !app_assoc. reflexivity.
Qed.

Lemma appends_call_global_then_drain {B} name args (k : jsvalue -> M H B) :
  (forall a, appends drained (k a)) ->
  appends drained (bind (call_global js name args) (fun _ => bind (drainMicrotasks js) k)).
Proof.
  intros Hk w.
  assert (Heq : bind (call_global js name args) (fun _ => bind (drainMicrotasks js) k) w =
                match getPropertyAsFunction (vm_globals (w_vm w)) name with
                | inr f => bind (call js f args) (fun _ => bind (drainMicrotasks js) k) w
                | inl e => (Stop (Throw (JSI e)), w)
                end).
  { unfold call_global, global, bind at 1 2 3, gets.
    destruct (getPropertyAsFunction (vm_globals (w_vm w)) name); reflexivity. }
  rewrite Heq. destruct (getPropertyAsFunction (vm_globals (w_vm w)) name) as [e|f].
  - exists []. rewrite app_nil_r. split; [reflexivity|apply drained_nil].
  - apply appends_call_then_drain. exact Hk.
Qed.

Lemma appends_drained_run_ready_macrotasks fuel curTimeMs :
  appends drained (run_ready_macrotasks js fuel curTimeMs).
Proof.
  induction fuel as [|fuel IH]; simpl.
  - apply appends_nothing; [apply drained_nil|reflexivity].
  - apply appends_bind; [apply drained_app| |intros app].
    { apply appends_nothing; [apply drained_nil|].
      intros w. unfold hermesApp. destruct (s_hermesApp (w_statics w)); reflexivity. }
    apply appends_bind; [apply drained_app| |intros d].
    + unfold peek. apply appends_bind; [apply drained_app| |intros v].
      * intros w. unfold call, enter_vm.
        destruct (js_call js (peekMacroTask app) [] (w_vm w)) as [[e|r] v1];
          eexists; (split; [reflexivity|apply drained_single; reflexivity]).
      * apply appends_nothing; [apply drained_nil|].
        intros w. unfold getNumber.
        destruct v; try reflexivity; unfold bind, gets;
          destruct (NDEBUG (w_env w)); reflexivity.
    + destruct (dge d dzero && dle d curTimeMs).
      * apply appends_call_then_drain. intros _. exact IH.
      * apply appends_nothing; [apply drained_nil|reflexivity].
Qed.

Lemma appends_drained_try_log (m : M H unit) :
  appends drained m ->
  appends drained
    (try_catch m (fun e => match e with
                           | JSI e' => Some (slog_func "ERROR" (jsi_what e'))
                           | _ => None
                           end)).
Proof.
  intros Hm w. unfold try_catch. destruct (Hm w) as (evs & Ht & HR).
  destruct (m w) as [[a|[e| | | |]] w1]; cbn [snd] in *; try (exists evs; auto; fail).
  destruct e as [e'|msg]; [|exists evs; auto].
  exists (evs ++ [EvSlog "ERROR" (jsi_what e')])%list.
  unfold slog_func, emit. cbn [snd w_trace set_w_trace]. rewrite Ht, <- app_assoc.
  split; [reflexivity|]. apply drained_app; [exact HR|apply drained_single; reflexivity].
Qed.

Lemma appends_drained_sokol_do c : appends drained (@sokol_do H c).
Proof.
  intros w. exists [EvSokol c]. split; [reflexivity|apply drained_single; reflexivity].
Qed.

Lemma appends_drained_app_frame fuel : appends drained (app_frame js sk fuel).
Proof.
  unfold app_frame.
  apply appends_bind; [apply drained_app| |intros now].
  { apply appends_nothing; [apply drained_nil|reflexivity]. }
  apply appends_bind; [apply drained_app| |intros _].
  { unfold frame_begin.
    apply appends_bind; [apply drained_app| |intros _].
    { apply appends_nothing; [apply drained_nil|].
      intros w. destruct (update_frame_clock_run sk now w) as (st & -> & _). reflexivity. }
    apply appends_bind; [apply drained_app| |intros sa].
    { apply appends_nothing; [apply drained_nil|reflexivity]. }
    apply appends_bind; [apply drained_app|apply appends_drained_sokol_do|intros _].
    apply appends_bind; [apply drained_app| |intros clear_value].
    { apply appends_nothing; [apply drained_nil|reflexivity]. }
    apply appends_drained_sokol_do. }
  apply appends_bind; [apply drained_app| |intros _].
  { apply appends_drained_try_log. unfold app_frame_script.
    apply appends_bind; [apply drained_app|apply appends_drained_run_ready_macrotasks|intros _].
    apply appends_bind; [apply drained_app| |intros sa].
    { apply appends_nothing; [apply drained_nil|reflexivity]. }
    apply appends_bind; [apply drained_app| |intros start].
    { apply appends_nothing; [apply drained_nil|reflexivity]. }
    apply appends_call_global_then_drain. intros _.
    apply appends_nothing; [apply drained_nil|reflexivity]. }
  unfold frame_end.
  apply appends_bind; [apply drained_app| |intros _].
  { apply appends_nothing; [apply drained_nil|].
    exact (keeps_update_performance_metrics w_trace
             ltac:(reflexivity) ltac:(reflexivity) ltac:(reflexivity)). }
  apply appends_bind; [apply drained_app|apply appends_drained_sokol_do|intros _].
  apply appends_bind; [apply drained_app| |intros _].
  { intros w. destruct (draw_overlay_sdtx w) as (overlay & -> & Hov).
    exists overlay. split; [reflexivity|].
    clear -Hov. induction Hov as [|e l He _ IH]; [apply drained_nil|].
    apply drained_cons; [|exact IH].
    destruct e as [| c| | | |]; try discriminate; reflexivity. }
  apply appends_bind; [apply drained_app|apply appends_drained_sokol_do|intros _].
  apply appends_drained_sokol_do.
Qed.

Lemma appends_drained_app_event ev : appends drained (app_event js sk ev).
Proof.
  unfold app_event. destruct (is_quit_gesture sk ev); [apply appends_drained_sokol_do|].
  apply appends_bind; [apply drained_app| |intros _; apply appends_drained_sokol_do].
  apply appends_drained_try_log. unfold app_event_script.
  apply appends_bind; [apply drained_app| |intros _].
  { apply appends_nothing; [apply drained_nil|].
    intros w. unfold hermesApp. destruct (s_hermesApp (w_statics w)); reflexivity. }
  apply appends_call_global_then_drain. intros _.
  apply appends_nothing; [apply drained_nil|reflexivity].
Qed.

(** X15.  Microtasks are drained after every task.  In the trace of any
    sequence of ticks and window events, every call of a function of the
    script with arguments that returned (the calls of [run], [on_frame]
    and [on_event]) is followed at once by [drainMicrotasks], before the
    host does anything else: before the next [peek], before the frame is
    rendered, before the event goes to ImGui. *)
Theorem tasks_are_drained fuel (cbs : list callback) (w : world H) :
  exists evs,
    w_trace (snd (steady_state js sk fuel cbs w)) = (w_trace w ++ evs)%list /\
    drained evs /\
    forall pre x post, evs = (pre ++ x :: post)%list -> is_task x = true ->
      exists r post', post = EvVM DrainMicrotasks r :: post'.
Proof.
  assert (Hall : appends drained (steady_state js sk fuel cbs)).
  { induction cbs as [|cb rest IH]; cbn [steady_state].
    - apply appends_nothing; [apply drained_nil|reflexivity].
    - apply appends_bind; [apply drained_app| |intros _; exact IH].
      destruct cb as [now sa|ev]; cbn [run_callback].
      + intros w0. destruct (appends_drained_app_frame fuel (set_w_tick now sa w0))
          as (evs & Ht & HR).
        exists evs. split; [exact Ht|exact HR].
      + apply appends_drained_app_event. }
  destruct (Hall w) as (evs & Ht & HR).
  exists evs. split; [exact Ht|]. split; [exact HR|].
  intros pre x post Heq Hx. destruct (HR pre x post Heq Hx) as (d & post' & -> & Hd).
  destruct d as [[]| | | | |]; try discriminate. eexists _, post'. reflexivity.
Qed.

End SteadyStateMore.

Lemma time_origin_is_fixed_witness :
  let w := Demo.running_world Demo.running_globals [Demo.task_A] false
             (set_s_start_time 7 (set_s_started true statics_init)) 0 in
  let cbs := [FrameCb 2000000000 Demo.the_window;
              EventCb {| ev_type := 1; key_code := 65; modifiers := 0 |};
              FrameCb 4000000000 Demo.the_window] in
  let s' := w_statics (snd (steady_state Demo.the_script Demo.the_sokol 5 cbs w)) in
  s_started (w_statics w) = true /\
  s_start_time s' = 7 /\
  s_last_fps_time s' = 4000000000.
Proof.
  intros w cbs s'.
  assert (Hs : s_started (w_statics w) = true) by reflexivity.
  split; [exact Hs|].
  destruct (time_origin_is_fixed Demo.the_script Demo.the_sokol 5 cbs w Hs) as (_ & Ht & _).
  split; [exact Ht|]. vm_compute. reflexivity.
Defined.

(* ================================================================= *)
(** ** The overlay and the metrics *)

(** X16.  The overlay is aligned with the bottom of the window.
    [draw_overlay] always returns, and between [sdtx_canvas] and
    [sdtx_draw] it moves the cursor once, to the row from which the lines
    it prints reach exactly the last row of characters of the window (a
    character is 8 pixels high): two lines, for the frame rate and ImGui,
    or three when a React time above zero is displayed. *)
Theorem overlay_is_bottom_aligned {H} (w : world H) :
  exists evs row,
    draw_overlay w = (Ret tt, set_w_trace (w_trace w ++ evs) w) /\
    head evs = Some (EvSokol sdtx_canvas) /\
    last evs = Some (EvSokol sdtx_draw) /\
    overlay_rows evs = [row] /\
    row + Z.of_nat (length (overlay_lines evs)) = Z.quot (sapp_height (w_sapp w)) 8 /\
    length (overlay_lines evs) =
      (if dgt (s_react_avg_ms_display (w_statics w)) dzero then 3 else 2)%nat.
Proof.
  unfold draw_overlay, bind, gets, sokol_do, emit, ret. simpl.
  destruct (dgt (s_react_avg_ms_display (w_statics w)) dzero); simpl;
    eexists _, _; (split; [rewrite <- !app_assoc; simpl; reflexivity|]);
    cbn; repeat split; lia.
Qed.

(** X17.  The metrics are read field by field, and an error stops the
    reading without undoing it.  When [perfMetrics] holds a number under
    [reconciliationAvg] and something that is not a number under
    [reconciliationMax], [update_performance_metrics] returns having
    stored the average and nothing else: the maximum and the ImGui average
    are as they were, whatever [renderTime] holds, and nothing is
    logged. *)
Theorem metrics_are_read_in_order {H} (w : world H)
    (metrics : gmap string jsvalue) (d : double) (v : jsvalue) :
  s_hermesApp (w_statics w) <> None ->
  vm_globals (w_vm w) !! "perfMetrics" = Some (JSObject metrics) ->
  metrics !! "reconciliationAvg" = Some (JSNumber d) ->
  metrics !! "reconciliationMax" = Some v ->
  (forall x, v <> JSNumber x) ->
  update_performance_metrics w =
    (Ret tt, set_w_statics (set_s_react_avg_ms d (w_statics w)) w).
Proof.
  intros Happ Hpm Havg Hmax Hbad.
  unfold update_performance_metrics, try_catch, read_performance_metrics, bind,
    hermesApp, global, gets, hasProperty, getPropertyAsObject, getProperty.
  destruct (s_hermesApp (w_statics w)) as [app|]; [|contradiction].
  rewrite Hpm. cbn [lift_jsi ret]. rewrite Havg. cbn [asNumber lift_jsi ret].
  unfold modify_statics at 1. rewrite Hmax.
  destruct v as [| |b|x|s|o|f]; try reflexivity.
  exfalso. exact (Hbad x eq_refl).
Qed.

Lemma metrics_are_read_in_order_witness :
  let w := Demo.running_world
             (<["perfMetrics" := JSObject DemoImages.half_metrics]> Demo.running_globals)
             [] false statics_init 0 in
  let s' := w_statics (snd (update_performance_metrics w)) in
  s_hermesApp (w_statics w) <> None /\
  DemoImages.half_metrics !! "renderTime" = Some (JSNumber (double_of_Z 4)) /\
  fst (update_performance_metrics w) = Ret tt /\
  s_react_avg_ms s' = double_of_Z 2 /\
  s_imgui_avg_ms s' = dzero /\
  w_trace (snd (update_performance_metrics w)) = [].
Proof.
  intros w s'.
  assert (Happ : s_hermesApp (w_statics w) <> None) by (vm_compute; discriminate).
  split; [exact Happ|]. split; [vm_compute; reflexivity|].
  pose proof (metrics_are_read_in_order w DemoImages.half_metrics (double_of_Z 2)
                (JSString "slow") Happ) as Hm.
  unfold s'. rewrite Hm.
  - repeat split; reflexivity.
  - vm_compute. reflexivity.
  - vm_compute. reflexivity.
  - vm_compute. reflexivity.
  - intros x. discriminate.
Defined.

(* ================================================================= *)
(** ** Loading a unit: the three modes *)

Section Loading.

Context {H : Type}.
Variable js : script H.

Lemma emits_file_mapFileBuffer (E : event -> Prop) path tz :
  (forall op, file_of op = path -> E (EvFile op)) ->
  emits E (@mapFileBuffer H path tz).
Proof.
  intros HE w. unfold mapFileBuffer, MappedFileBuffer_new, bind, gets, emit, throw,
    stop_with, ret, abort.
  destruct (negb (NDEBUG (w_env w)) && String.eqb path ""); cbn [snd w_trace set_w_trace].
  { exists []. rewrite app_nil_r. auto. }
  destruct (files (w_env w) !! path) as [node|]; cbn [snd w_trace set_w_trace].
  - destruct (fstat_fails node); cbn [snd w_trace set_w_trace].
    + eexists. rewrite <- !app_assoc. split; [reflexivity|].
      repeat constructor; apply HE; reflexivity.
    + destruct (mmap_ok node _); cbn [snd w_trace set_w_trace];
        (eexists; rewrite <- !app_assoc; split; [reflexivity|];
         repeat constructor; apply HE; reflexivity).
  - eexists. split; [reflexivity|]. repeat constructor; apply HE; reflexivity.
Qed.

Lemma emits_bind_post {A B} (E : event -> Prop) (P : A -> Prop)
    (m : M H A) (k : A -> M H B) :
  emits E m -> (forall w a, fst (m w) = Ret a -> P a) ->
  (forall a, P a -> emits E (k a)) -> emits E (bind m k).
Proof.
  intros Hm HP Hk w. unfold bind. destruct (Hm w) as (evs1 & Ht1 & HE1).
  specialize (HP w).
  destruct (m w) as [[a|s] w1]; cbn [fst snd] in *.
  - destruct (Hk a (HP a eq_refl) w1) as (evs2 & Ht2 & HE2).
    exists (evs1 ++ evs2)%list. rewrite Ht2, Ht1, <- app_assoc.
    split; [reflexivity|]. apply Forall_app. auto.
  - exists evs1. auto.
Qed.

Lemma mapFileBuffer_path (w : world H) path tz b :
  fst (mapFileBuffer path tz w) = Ret b -> path_ b = path.
Proof.
  destruct (mapFileBuffer_env w path tz) as (_ & _ & _ & Hpath & _). apply Hpath.
Qed.

(** X18.  Bytecode needs no source map.  Loading a bundle as bytecode
    touches one file, the bundle: no [.map] beside it is looked for.  The
    bundle is evaluated without a source map, under the URL given or else
    under its path, and from a buffer whose size is the size of the file:
    no terminating zero is asked for.  Nothing else of the script is
    entered. *)
Theorem bytecode_needs_no_source_map (w : world H) (jsPath : string)
    (sourceURL : option string) :
  let url := match sourceURL with Some u => u | None => jsPath end in
  let load := imgui_load_unit js None true (Some jsPath) sourceURL in
  exists evs,
    w_trace (snd (load w)) = (w_trace w ++ evs)%list /\
    Forall (fun e => match e with
                     | EvFile op => file_of op = jsPath
                     | EvVM c _ => c = EvaluateJavaScript jsPath None url
                     | EvPrintf _ => True
                     | _ => False
                     end) evs /\
    (fst (load w) = Ret tt ->
     exists b r,
       fst (mapFileBuffer jsPath false w) = Ret b /\
       size_ b = fileSize_ b /\
       In (EvVM (EvaluateJavaScript jsPath None url) (inr r)) evs /\
       fst (js_evaluateJavaScript js b None url (w_vm w)) = inr r).
Proof.
  intros url load.
  set (E := fun e => match e with
                     | EvFile op => file_of op = jsPath
                     | EvVM c _ => c = EvaluateJavaScript jsPath None url
                     | EvPrintf _ => True
                     | _ => False
                     end).
  assert (Hemits : emits E load).
  { unfold load, imgui_load_unit, printf.
    apply emits_bind; [apply emits_ret|intros _].
    apply emits_bind; [apply emits_emit; exact I|intros _].
    apply (emits_bind_post E (fun b => path_ b = jsPath)).
    { apply emits_file_mapFileBuffer; intros op Hop; exact Hop. }
    { intros w0 b. apply mapFileBuffer_path. }
    intros b Hb.
    apply emits_bind; [|intros _; apply emits_emit; exact I].
    unfold evaluateJavaScript. rewrite Hb.
    apply emits_enter_vm. intros r. reflexivity. }
  destruct (Hemits w) as (evs & Htr & HE).
  exists evs. split; [exact Htr|]. split; [exact HE|].
  intros Hret.
  unfold load, imgui_load_unit in Hret, Htr.
  unfold bind at 1 in Hret. unfold bind at 1 in Htr. cbn [ret] in Hret, Htr.
  unfold bind at 1 in Hret. unfold bind at 1 in Htr.
  unfold printf at 1, emit at 1 in Hret. unfold printf at 1, emit at 1 in Htr.
  unfold bind at 1 in Hret. unfold bind at 1 in Htr.
  set (w1 := set_w_trace _ w) in *.
  destruct (mapFileBuffer_env w jsPath false) as (fevs & Hmap & _ & Hpath & _).
  rewrite (Hmap w1 eq_refl) in Hret, Htr.
  destruct (fst (mapFileBuffer jsPath false w)) as [b|s] eqn:Hb; [|discriminate].
  specialize (Hpath b eq_refl).
  unfold bind at 1 in Hret. unfold bind at 1 in Htr.
  unfold evaluateJavaScript, enter_vm in Hret, Htr.
  cbn [w_vm set_w_trace w_trace] in Hret, Htr.
  unfold w1 in Hret, Htr. cbn [w_vm set_w_trace w_trace] in Hret, Htr.
  cbv zeta in Hret, Htr. fold url in Hret, Htr.
  destruct (js_evaluateJavaScript js b None url (w_vm w)) as [[e|r] v1] eqn:Hev;
    [discriminate|].
  exists b, r. split; [reflexivity|].
  split.
  { unfold mapFileBuffer, MappedFileBuffer_new, bind, gets in Hb.
    destruct (negb (NDEBUG (w_env w)) && String.eqb jsPath ""); [discriminate|].
    cbn in Hb. destruct (files (w_env w) !! jsPath) as [node|]; [|discriminate].
    cbn in Hb. destruct (fstat_fails node); [discriminate|]. cbn in Hb.
    destruct (mmap_ok node _); [|discriminate]. cbn in Hb.
    injection Hb as <-. reflexivity. }
  split; [|rewrite Hev; reflexivity].
  unfold printf, emit in Htr. cbn [snd w_trace set_w_trace] in Htr.
  rewrite Hpath in Htr. rewrite <- !app_assoc in Htr.
  apply app_inv_head in Htr. rewrite <- Htr.
  apply in_or_app. right. apply in_or_app. right. left. reflexivity.
Qed.

Lemma map_path_not_empty (path : string) : String.eqb (path ++ ".map") "" = false.
Proof. destruct path; reflexivity. Qed.

(** The events of a mapping are operations on files. *)
Lemma mapFileBuffer_run (w : world H) path tz :
  exists fevs,
    Forall (fun e => is_vm e = false) fevs /\
    forall w2 : world H, w_env w2 = w_env w ->
      mapFileBuffer path tz w2 =
        (fst (mapFileBuffer path tz w), set_w_trace (w_trace w2 ++ fevs) w2).
Proof.
  destruct (mapFileBuffer_env w path tz) as (fevs & Hmap & _).
  exists fevs. split; [|exact Hmap].
  destruct (emits_file_mapFileBuffer (fun e => is_vm e = false) path tz
              (fun op _ => eq_refl) w) as (evs & Htr & HE).
  rewrite (Hmap w eq_refl) in Htr. cbn [snd w_trace set_w_trace] in Htr.
  apply app_inv_head in Htr. rewrite Htr. exact HE.
Qed.

#[local] Ltac load_map_step Hmap :=
  match goal with
  | |- context [mapFileBuffer ?p ?tz (set_w_trace ?t ?w0)] =>
      rewrite (Hmap (set_w_trace t w0) eq_refl)
  end.

(** What the loading of a bundle as bytecode does. *)
Lemma imgui_load_bytecode_run (w : world H) jsPath url :
  exists fevs,
    Forall (fun e => is_vm e = false) fevs /\
    imgui_load_unit js None true (Some jsPath) (Some url) w =
      match fst (mapFileBuffer jsPath false w) with
      | Ret b =>
          let res := js_evaluateJavaScript js b None url (w_vm w) in
          let w2 :=
            set_w_trace (w_trace w ++ fevs ++
                         [EvVM (EvaluateJavaScript jsPath None url) (fst res)])
              (set_w_vm (snd res) w) in
          match fst res with
          | inr _ =>
              (Ret tt,
               set_w_trace (w_trace w2 ++ [EvPrintf "React unit loaded (bytecode).\n"]) w2)
          | inl e => (Stop (Throw (JSI e)), w2)
          end
      | Stop s => (Stop s, set_w_trace (w_trace w ++ fevs) w)
      end.
Proof.
  destruct (mapFileBuffer_run w jsPath false) as (fevs & Hvm & Hmap).
  exists (EvPrintf ("Loading React unit from bytecode: '" ++ jsPath ++ "'\n") :: fevs).
  split; [constructor; [reflexivity|exact Hvm]|].
  unfold imgui_load_unit. unfold bind at 1. cbn [ret].
  unfold bind at 1. unfold printf at 1, emit at 1.
  unfold bind at 1. load_map_step Hmap.
  pose proof (mapFileBuffer_path w jsPath false) as Hpath.
  destruct (fst (mapFileBuffer jsPath false w)) as [b|s].
  - specialize (Hpath b eq_refl).
    unfold bind, evaluateJavaScript, enter_vm, printf, emit.
    cbn [w_vm w_trace set_w_trace set_w_vm]. rewrite Hpath.
    destruct (js_evaluateJavaScript js b None url (w_vm w)) as [[e|r] v];
      cbn [fst snd w_trace set_w_trace set_w_vm]; rewrite <- !app_assoc; reflexivity.
  - cbn [w_trace set_w_trace]. rewrite <- !app_assoc. reflexivity.
Qed.

(** What the loading of a bundle as source does. *)
Lemma imgui_load_source_run (w : world H) jsPath url :
  exists fevs,
    Forall (fun e => is_vm e = false) fevs /\
    imgui_load_unit js None false (Some jsPath) (Some url) w =
      match fst (mapFileBuffer jsPath true w) with
      | Ret b =>
          let sm := match fst (mapFileBuffer (jsPath ++ ".map") true w) with
                    | Ret m => Some m
                    | Stop _ => None
                    end in
          let sm_path := match sm with Some _ => Some (jsPath ++ ".map") | None => None end in
          let res := js_evaluateJavaScript js b sm url (w_vm w) in
          let w2 :=
            set_w_trace (w_trace w ++ fevs ++
                         [EvVM (EvaluateJavaScript jsPath sm_path url) (fst res)])
              (set_w_vm (snd res) w) in
          match fst res with
          | inr _ =>
              (Ret tt,
               set_w_trace (w_trace w2 ++ [EvPrintf "React unit loaded (source).\n"]) w2)
          | inl e => (Stop (Throw (JSI e)), w2)
          end
      | Stop s => (Stop s, set_w_trace (w_trace w ++ fevs) w)
      end.
Proof.
  destruct (mapFileBuffer_run w jsPath true) as (fevs & Hvm & Hmap).
  destruct (mapFileBuffer_run w (jsPath ++ ".map") true) as (mevs & Hmvm & Hmmap).
  pose proof (mapFileBuffer_path w jsPath true) as Hpath.
  pose proof (mapFileBuffer_path w (jsPath ++ ".map") true) as Hmpath.
  pose proof (mapFileBuffer_stops w (jsPath ++ ".map") true) as Hmstop.
  set (p1 := EvPrintf ("Loading React unit from source: '" ++ jsPath ++ "'\n")).
  destruct (fst (mapFileBuffer jsPath true w)) as [b|s] eqn:Hb.
  2:{ exists (p1 :: fevs). split; [constructor; [reflexivity|exact Hvm]|].
      unfold imgui_load_unit. unfold bind at 1. cbn [ret].
      unfold bind at 1. unfold printf at 1, emit at 1.
      unfold bind at 1. load_map_step Hmap. rewrite ?Hb.
      cbn [w_trace set_w_trace]. rewrite <- !app_assoc. reflexivity. }
  specialize (Hpath b eq_refl).
  destruct (fst (mapFileBuffer (jsPath ++ ".map") true w)) as [m|ms] eqn:Hm.
  - specialize (Hmpath m eq_refl).
    exists (p1 :: fevs ++ mevs ++
            [EvPrintf ("Loaded source map: '" ++ (jsPath ++ ".map") ++ "'\n")])%list.
    split.
    { constructor; [reflexivity|]. apply Forall_app. split; [exact Hvm|].
      apply Forall_app. split; [exact Hmvm|]. constructor; [reflexivity|constructor]. }
    unfold imgui_load_unit. unfold bind at 1. cbn [ret].
    unfold bind at 1. unfold printf at 1, emit at 1.
    unfold bind at 1. load_map_step Hmap. rewrite ?Hb.
    unfold bind at 1. unfold try_catch at 1. unfold bind at 1.
    load_map_step Hmmap. rewrite ?Hm.
    unfold bind, evaluateJavaScriptWithSourceMap, enter_vm, printf, emit, ret.
    cbn [w_vm w_trace set_w_trace set_w_vm]. rewrite Hpath, Hmpath.
    destruct (js_evaluateJavaScript js b (Some m) url (w_vm w)) as [[e|r] v];
      cbn [fst snd w_trace set_w_trace set_w_vm]; rewrite <- !app_assoc;
      cbn [app]; rewrite <- ?app_assoc; reflexivity.
  - destruct (Hmstop ms eq_refl) as [[e ->]| ->].
    2:{ exfalso. unfold mapFileBuffer, MappedFileBuffer_new, bind, gets in Hm.
        rewrite map_path_not_empty, andb_false_r in Hm. cbn [ret] in Hm.
        destruct (files (w_env w) !! (jsPath ++ ".map")) as [nd|]; cbn in Hm.
        - destruct (fstat_fails nd); cbn in Hm; [discriminate|].
          destruct (mmap_ok nd _); cbn in Hm; discriminate.
        - discriminate. }
    exists (p1 :: fevs ++ mevs ++
            [EvPrintf ("Source map not found: " ++ what e ++ "\n")])%list.
    split.
    { constructor; [reflexivity|]. apply Forall_app. split; [exact Hvm|].
      apply Forall_app. split; [exact Hmvm|]. constructor; [reflexivity|constructor]. }
    unfold imgui_load_unit. unfold bind at 1. cbn [ret].
    unfold bind at 1. unfold printf at 1, emit at 1.
    unfold bind at 1. load_map_step Hmap. rewrite ?Hb.
    unfold bind at 1. unfold try_catch at 1. unfold bind at 1.
    load_map_step Hmmap. rewrite ?Hm.
    unfold bind, evaluateJavaScript, enter_vm, printf, emit, ret.
    cbn [w_vm w_trace set_w_trace set_w_vm]. rewrite Hpath.
    destruct (js_evaluateJavaScript js b None url (w_vm w)) as [[e0|r] v];
      cbn [fst snd w_trace set_w_trace set_w_vm]; rewrite <- !app_assoc;
      cbn [app]; rewrite <- ?app_assoc; reflexivity.
Qed.

(** Which events [imgui_main] may add in each mode. *)
Lemma imgui_main_bounds argv (w : world H) :
  let mode := REACT_BUNDLE_MODE (w_env w) in
  let path := REACT_BUNDLE_PATH (w_env w) in
  let r := imgui_main js argv w in
  exists evs,
    w_trace (snd r) = (w_trace w ++ evs)%list /\
    Forall (fun e =>
      match e with
      | EvPrintf _ => True
      | EvVM (EvaluateSHUnit u) _ => mode = 0 /\ u = sh_export_react
      | EvVM (EvaluateJavaScript p sm url) _ =>
          p = path /\
          (mode = 1 /\ sm = None /\ url = "react-unit-bundle.hbc" \/
           mode = 2 /\ (sm = None \/ sm = Some (path ++ ".map")) /\
           url = "react-unit-bundle.js")
      | EvFile op =>
          mode = 1 /\ file_of op = path \/
          mode = 2 /\ (file_of op = path \/ file_of op = path ++ ".map")
      | _ => False
      end) evs /\
    (mode <> 0 -> mode <> 1 -> mode <> 2 -> r = (Ret tt, w)).
Proof.
  intros mode path r.
  set (E := fun e =>
      match e with
      | EvPrintf _ => True
      | EvVM (EvaluateSHUnit u) _ => mode = 0 /\ u = sh_export_react
      | EvVM (EvaluateJavaScript p sm url) _ =>
          p = path /\
          (mode = 1 /\ sm = None /\ url = "react-unit-bundle.hbc" \/
           mode = 2 /\ (sm = None \/ sm = Some (path ++ ".map")) /\
           url = "react-unit-bundle.js")
      | EvFile op =>
          mode = 1 /\ file_of op = path \/
          mode = 2 /\ (file_of op = path \/ file_of op = path ++ ".map")
      | _ => False
      end).
  assert (Hrun : r = imgui_main_default js mode
                       (if mode =? 0 then Some sh_export_react else None) path w)
    by reflexivity.
  assert (Hcases : emits E (imgui_main_default js mode
                              (if mode =? 0 then Some sh_export_react else None) path) /\
                   (mode <> 0 -> mode <> 1 -> mode <> 2 -> r = (Ret tt, w))).
  { rewrite Hrun. unfold imgui_main_default.
    destruct (Z.eqb_spec mode 0) as [H0|H0].
    { split; [|intros Hne; contradiction].
      unfold imgui_load_unit, printf, evaluateSHUnit.
      apply emits_bind; [|intros _; apply emits_ret].
      apply emits_bind; [apply emits_enter_vm; intros ?; split; [exact H0|reflexivity]|].
      intros _. apply emits_emit. exact I. }
    destruct (Z.eqb_spec mode 1) as [H1|H1].
    { split; [|intros _ Hne; contradiction].
      unfold imgui_load_unit, printf, evaluateJavaScript.
      apply emits_bind; [apply emits_ret|intros _].
      apply emits_bind; [apply emits_emit; exact I|intros _].
      apply (emits_bind_post E (fun b => path_ b = path)).
      { apply emits_file_mapFileBuffer. intros op Hop. left. auto. }
      { intros w0 b. apply mapFileBuffer_path. }
      intros b Hb. rewrite Hb.
      apply emits_bind; [|intros _; apply emits_emit; exact I].
      apply emits_enter_vm. intros r0. split; [reflexivity|]. left. auto. }
    destruct (Z.eqb_spec mode 2) as [H2|H2].
    { split; [|intros _ _ Hne; contradiction].
      unfold imgui_load_unit, printf, evaluateJavaScript, evaluateJavaScriptWithSourceMap.
      apply emits_bind; [apply emits_ret|intros _].
      apply emits_bind; [apply emits_emit; exact I|intros _].
      apply (emits_bind_post E (fun b => path_ b = path)).
      { apply emits_file_mapFileBuffer. intros op Hop. right. auto. }
      { intros w0 b. apply mapFileBuffer_path. }
      intros b Hb. rewrite Hb.
      apply (emits_bind_post E
               (fun o : option MappedFileBuffer =>
                  match o with Some sm => path_ sm = path ++ ".map" | None => True end)).
      { apply emits_try_catch.
        - apply emits_bind.
          { apply emits_file_mapFileBuffer. intros op Hop. right. auto. }
          intros sm. apply emits_bind; [apply emits_emit; exact I|intros _].
          apply emits_ret.
        - intros e h Heq. injection Heq as <-.
          apply emits_bind; [apply emits_emit; exact I|intros _]. apply emits_ret. }
      { intros w0 o. unfold try_catch, bind at 1.
        pose proof (mapFileBuffer_path w0 (path ++ ".map") true) as Hsm.
        destruct (mapFileBuffer (path ++ ".map") true w0) as [[sm|[e| | | |]] w1];
          cbn [fst] in *; try discriminate.
        - unfold bind, emit, ret. cbn [fst]. intros Heq. injection Heq as <-.
          apply Hsm. reflexivity.
        - unfold bind, emit, ret. cbn [fst]. intros Heq. injection Heq as <-. exact I. }
      intros [sm|] Hsm.
      - rewrite Hsm.
        apply emits_bind; [|intros _; apply emits_emit; exact I].
        apply emits_enter_vm. intros r0. split; [reflexivity|]. right. auto.
      - apply emits_bind; [|intros _; apply emits_emit; exact I].
        apply emits_enter_vm. intros r0. split; [reflexivity|]. right. auto. }
    split; [apply emits_ret|reflexivity]. }
  destruct Hcases as [Hemits Hnone].
  destruct (Hemits w) as (evs & Htr & HE).
  exists evs. split; [rewrite Hrun; exact Htr|]. split; [exact HE|exact Hnone].
Qed.


Lemma vm_events_of_app (l1 l2 : list event) :
  List.filter is_vm (l1 ++ l2) = (List.filter is_vm l1 ++ List.filter is_vm l2)%list.
Proof. apply List.filter_app. Qed.

Lemma vm_events_none (l : list event) :
  Forall (fun e => is_vm e = false) l -> List.filter is_vm l = [].
Proof.
  induction 1 as [|e l He _ IH]; [reflexivity|]. cbn [List.filter]. rewrite He. exact IH.
Qed.

(** X19.  The bundle mode chooses what is loaded.  In mode 0
    [imgui_main] evaluates the natively compiled unit, prints that it is
    loaded when the evaluation returns, and does nothing else: it touches
    no file, whatever [REACT_BUNDLE_PATH] is.  In mode 1 and in mode 2 it
    evaluates no native unit: it maps the bundle at [REACT_BUNDLE_PATH]
    and, when that succeeds, evaluates it, this being its one entry into
    the VM, under the name [react-unit-bundle.hbc] and without a source map
    in mode 1, under the name [react-unit-bundle.js] in mode 2 and there
    with the source map beside the bundle if it can be mapped; it returns
    if the evaluation does and throws its error otherwise.  When the
    bundle cannot be mapped, the VM is not entered and the error of the
    mapping leaves [imgui_main].  The only files touched are the bundle
    and, in mode 2, its source map.  In any other mode (the header admits
    3) it loads nothing. *)
Theorem bundle_mode_chooses_the_unit argv (w : world H) :
  let mode := REACT_BUNDLE_MODE (w_env w) in
  let path := REACT_BUNDLE_PATH (w_env w) in
  let r := imgui_main js argv w in
  let ends (res : JSIException + jsvalue) : outcome unit :=
    match res with inr _ => Ret tt | inl e => Stop (Throw (JSI e)) end in
  exists evs,
    w_trace (snd r) = (w_trace w ++ evs)%list /\
    Forall (fun e =>
      match e with
      | EvPrintf _ => True
      | EvVM (EvaluateSHUnit u) _ => mode = 0 /\ u = sh_export_react
      | EvVM (EvaluateJavaScript p sm url) _ =>
          p = path /\
          (mode = 1 /\ sm = None /\ url = "react-unit-bundle.hbc" \/
           mode = 2 /\ (sm = None \/ sm = Some (path ++ ".map")) /\
           url = "react-unit-bundle.js")
      | EvFile op =>
          mode = 1 /\ file_of op = path \/
          mode = 2 /\ (file_of op = path \/ file_of op = path ++ ".map")
      | _ => False
      end) evs /\
    (mode = 0 ->
       let res := js_evaluateSHUnit js sh_export_react (w_vm w) in
       evs = EvVM (EvaluateSHUnit sh_export_react) (fst res)
               :: match fst res with
                  | inr _ => [EvPrintf "Native unit loaded.\n"]
                  | inl _ => []
                  end /\
       fst r = ends (fst res) /\
       w_vm (snd r) = snd res) /\
    (mode = 1 ->
       match fst (mapFileBuffer path false w) with
       | Ret b =>
           let res := js_evaluateJavaScript js b None "react-unit-bundle.hbc" (w_vm w) in
           List.filter is_vm evs =
             [EvVM (EvaluateJavaScript path None "react-unit-bundle.hbc") (fst res)] /\
           fst r = ends (fst res) /\
           w_vm (snd r) = snd res
       | Stop s =>
           List.filter is_vm evs = [] /\ fst r = Stop s /\ w_vm (snd r) = w_vm w
       end) /\
    (mode = 2 ->
       match fst (mapFileBuffer path true w) with
       | Ret b =>
           let sm := match fst (mapFileBuffer (path ++ ".map") true w) with
                     | Ret m => Some m
                     | Stop _ => None
                     end in
           let sm_path := match sm with Some _ => Some (path ++ ".map") | None => None end in
           let res := js_evaluateJavaScript js b sm "react-unit-bundle.js" (w_vm w) in
           List.filter is_vm evs =
             [EvVM (EvaluateJavaScript path sm_path "react-unit-bundle.js") (fst res)] /\
           fst r = ends (fst res) /\
           w_vm (snd r) = snd res
       | Stop s =>
           List.filter is_vm evs = [] /\ fst r = Stop s /\ w_vm (snd r) = w_vm w
       end) /\
    (mode <> 0 -> mode <> 1 -> mode <> 2 -> r = (Ret tt, w)).
Proof.
  intros mode path r ends.
  destruct (imgui_main_bounds argv w) as (evs & Htr & HE & Hnone).
  fold mode path r in Htr, HE, Hnone.
  exists evs. split; [exact Htr|]. split; [exact HE|].
  assert (Hrun : r = imgui_main_default js mode
                       (if mode =? 0 then Some sh_export_react else None) path w)
    by reflexivity.
  split; [|split; [|split; [|exact Hnone]]].
  - intros H0 res. rewrite Hrun in Htr |- *. rewrite H0 in Htr |- *.
    unfold imgui_main_default in Htr |- *. cbn [Z.eqb] in Htr |- *.
    unfold imgui_load_unit, bind, evaluateSHUnit, enter_vm, printf, emit, ret in Htr |- *.
    fold res in Htr |- *.
    destruct res as [[e|v] vm1]; cbn [fst snd w_trace set_w_trace w_vm set_w_vm] in Htr |- *.
    + apply app_inv_head in Htr. subst evs. auto.
    + rewrite <- app_assoc in Htr. apply app_inv_head in Htr. subst evs. auto.
  - intros H1. rewrite Hrun in Htr |- *. rewrite H1 in Htr |- *.
    unfold imgui_main_default in Htr |- *. cbn [Z.eqb Pos.eqb] in Htr |- *.
    destruct (imgui_load_bytecode_run w path "react-unit-bundle.hbc")
      as (fevs & Hvm & Hload).
    rewrite Hload in Htr |- *.
    destruct (fst (mapFileBuffer path false w)) as [b|s].
    + cbv zeta in Htr |- *.
      destruct (js_evaluateJavaScript js b None "react-unit-bundle.hbc" (w_vm w))
        as [[e|v] vm1]; cbn [fst snd w_trace set_w_trace w_vm set_w_vm] in Htr |- *;
        rewrite <- ?app_assoc in Htr; apply app_inv_head in Htr; subst evs;
        rewrite !vm_events_of_app, (vm_events_none _ Hvm); auto.
    + cbn [fst snd w_trace set_w_trace w_vm] in Htr |- *.
      apply app_inv_head in Htr. subst evs. rewrite (vm_events_none _ Hvm). auto.
  - intros H2. rewrite Hrun in Htr |- *. rewrite H2 in Htr |- *.
    unfold imgui_main_default in Htr |- *. cbn [Z.eqb Pos.eqb] in Htr |- *.
    destruct (imgui_load_source_run w path "react-unit-bundle.js")
      as (fevs & Hvm & Hload).
    rewrite Hload in Htr |- *.
    destruct (fst (mapFileBuffer path true w)) as [b|s].
    + cbv zeta in Htr |- *.
      destruct (js_evaluateJavaScript js b _ "react-unit-bundle.js" (w_vm w))
        as [[e|v] vm1]; cbn [fst snd w_trace set_w_trace w_vm set_w_vm] in Htr |- *;
        rewrite <- ?app_assoc in Htr; apply app_inv_head in Htr; subst evs;
        rewrite !vm_events_of_app, (vm_events_none _ Hvm); auto.
    + cbn [fst snd w_trace set_w_trace w_vm] in Htr |- *.
      apply app_inv_head in Htr. subst evs. rewrite (vm_events_none _ Hvm). auto.
Qed.

End Loading.

Lemma bytecode_needs_no_source_map_witness :
  let w := Demo.boot_world 1 "bundle.js" 0 in
  let load := imgui_load_unit Demo.the_script None true (Some "bundle.js")
                (Some "react-unit-bundle.hbc") in
  fst (load w) = Ret tt /\
  w_trace (snd (load w)) =
    [EvPrintf "Loading React unit from bytecode: 'bundle.js'\n";
     EvFile (FOpen "bundle.js" true); EvFile (FStat "bundle.js" true);
     EvFile (FMmap "bundle.js" 12288 true);
     EvVM (EvaluateJavaScript "bundle.js" None "react-unit-bundle.hbc") (inr JSUndefined);
     EvPrintf "React unit loaded (bytecode).\n"] /\
  exists b, fst (mapFileBuffer "bundle.js" false w) = Ret b /\ size_ b = 10000.
Proof.
  intros w load.
  assert (Hret : fst (load w) = Ret tt) by (vm_compute; reflexivity).
  split; [exact Hret|]. split; [vm_compute; reflexivity|].
  destruct (bytecode_needs_no_source_map Demo.the_script w "bundle.js"
              (Some "react-unit-bundle.hbc"))
    as (evs & _ & _ & Hb).
  destruct (Hb Hret) as (b & r & Hmap & Hsize & _).
  exists b. split; [exact Hmap|]. rewrite Hsize.
  vm_compute in Hmap. injection Hmap as <-. reflexivity.
Defined.

Lemma bundle_mode_chooses_the_unit_witness :
  let native := imgui_main Demo.the_script [] (Demo.boot_world 0 "" 0) in
  let source := imgui_main Demo.the_script [] (Demo.boot_world 2 "bundle.js" 0) in
  let missing := imgui_main Demo.the_script [] (Demo.boot_world 1 "nowhere.hbc" 0) in
  let other := Demo.boot_world 3 "bundle.js" 0 in
  fst native = Ret tt /\
  w_trace (snd native) =
    [EvVM (EvaluateSHUnit sh_export_react) (inr JSUndefined);
     EvPrintf "Native unit loaded.\n"] /\
  fst source = Ret tt /\
  List.filter is_vm (w_trace (snd source)) =
    [EvVM (EvaluateJavaScript "bundle.js" None "react-unit-bundle.js") (inr JSUndefined)] /\
  fst missing = Stop (Throw (runtime_error "Failed to open: nowhere.hbc")) /\
  List.filter is_vm (w_trace (snd missing)) = [] /\
  imgui_main Demo.the_script [] other = (Ret tt, other).
Proof.
  intros native source missing other.
  destruct (bundle_mode_chooses_the_unit Demo.the_script [] (Demo.boot_world 0 "" 0))
    as (evs0 & Htr0 & _ & H0 & _).
  destruct (bundle_mode_chooses_the_unit Demo.the_script [] (Demo.boot_world 2 "bundle.js" 0))
    as (evs2 & Htr2 & _ & _ & _ & H2 & _).
  destruct (bundle_mode_chooses_the_unit Demo.the_script [] (Demo.boot_world 1 "nowhere.hbc" 0))
    as (evs1 & Htr1 & _ & _ & H1 & _).
  destruct (bundle_mode_chooses_the_unit Demo.the_script [] other)
    as (evs3 & _ & _ & _ & _ & _ & H3).
  destruct (H0 eq_refl) as (Hevs0 & Hret0 & _).
  specialize (H2 eq_refl). specialize (H1 eq_refl).
  destruct (fst (mapFileBuffer _ true (Demo.boot_world 2 "bundle.js" 0))) as [b|s] eqn:Hb;
    [|vm_compute in Hb; discriminate].
  destruct H2 as (Hevs2 & Hret2 & _).
  destruct (fst (mapFileBuffer _ false (Demo.boot_world 1 "nowhere.hbc" 0))) as [b1|s] eqn:Hb1;
    [vm_compute in Hb1; discriminate|].
  destruct H1 as (Hevs1 & Hret1 & _).
  split; [exact Hret0|].
  split; [unfold native; rewrite Htr0, Hevs0; reflexivity|].
  split; [exact Hret2|].
  split; [unfold source; rewrite Htr2; cbn [w_trace Demo.boot_world app]; rewrite Hevs2;
          reflexivity|].
  split; [unfold missing; rewrite Hret1; vm_compute in Hb1; injection Hb1 as <-;
          reflexivity|].
  split; [unfold missing; rewrite Htr1; cbn [w_trace Demo.boot_world app]; exact Hevs1|].
  apply H3; vm_compute; discriminate.
Defined.

(* ================================================================= *)
(** ** [app_init] *)

Section Init.

Context {H : Type}.
Variable js : script H.
Variable sk : sokol.

#[local] Ltac app_init_step H :=
  cbv beta iota in H;
  cbn [fst snd w_statics w_vm w_trace set_w_trace set_w_vm set_w_statics
       s_hermesApp set_s_sampler lift_jsi throw stop_with ret] in H.

(** X20.  [app_init] sets up the four sokol libraries and keeps the
    sampler it made before it enters the VM.  If it stops the process, it
    is with [abort()].  When the script has defined no function
    [on_init], it logs that error and aborts without entering the VM.
    Otherwise its first entry into the VM is the call of [on_init],
    without arguments; when that call and the drain of the microtasks
    after it return, [app_init] returns, and whenever it returns these two
    are its entries into the VM; and when an entry into the VM throws,
    after the call or after the drain, that error is the last thing
    logged and the process aborts. *)
Theorem app_init_outcome (w : world H) :
  s_hermesApp (w_statics w) <> None ->
  let r := app_init js sk w in
  let setups := [EvSokol sg_setup; EvSokol simgui_setup; EvSokol sg_make_sampler;
                 EvSokol sdtx_setup] in
  let logged e := EvSlog "ERROR" (jsi_what e) in
  let set_up :=
    set_w_trace (w_trace w ++ setups)
      (set_w_statics (set_s_sampler (new_sampler sk) (w_statics w)) w) in
  s_sampler (w_statics (snd r)) = new_sampler sk /\
  (forall s, fst r = Stop s -> s = Abort) /\
  exists evs,
    w_trace (snd r) = (w_trace w ++ setups ++ evs)%list /\
    match getPropertyAsFunction (vm_globals (w_vm w)) "on_init" with
    | inl e => r = (Stop Abort, set_w_trace (w_trace set_up ++ [logged e]) set_up)
    | inr f =>
        let called := EvVM (CallFunction f []) in
        (exists res rest, evs = called res :: rest) /\
        (forall r1 v1 r2 v2,
           js_call js f [] (w_vm w) = (inr r1, v1) ->
           js_drainMicrotasks js v1 = (inr r2, v2) ->
           fst r = Ret tt /\ w_vm (snd r) = v2) /\
        (fst r = Ret tt ->
         exists r1 r2,
           List.filter is_vm evs = [called (inr r1); EvVM DrainMicrotasks (inr r2)]) /\
        (forall c e, In (EvVM c (inl e)) evs ->
           fst r = Stop Abort /\ last evs = Some (logged e) /\
           (List.filter is_vm evs = [called (inl e)] \/
            exists r1,
              List.filter is_vm evs = [called (inr r1); EvVM DrainMicrotasks (inl e)]))
    end.
Proof.
  intros Happ r setups logged set_up. unfold r. clear r.
  destruct (app_init js sk w) as [o wf] eqn:Hrun. cbn [fst snd].
  rewrite app_init_unfold in Hrun. fold setups in Hrun.
  unfold try_catch, app_init_script, call_global, global, call, drainMicrotasks,
    enter_vm, hermesApp, gets, bind, slog_func, emit, abort in Hrun.
  app_init_step Hrun.
  assert (Hsame : forall n st, s_hermesApp (set_s_sampler n st) = s_hermesApp st)
    by (intros n st; destruct st; reflexivity).
  assert (Hsampler : forall n st, s_sampler (set_s_sampler n st) = n)
    by (intros n st; destruct st; reflexivity).
  rewrite Hsame in Hrun.
  destruct (s_hermesApp (w_statics w)) as [ha|]; [|contradiction].
  app_init_step Hrun.
  destruct (getPropertyAsFunction (vm_globals (w_vm w)) "on_init") as [e|f];
    app_init_step Hrun.
  { injection Hrun as <- <-. cbn [w_statics w_trace set_w_trace set_w_statics].
    split; [apply Hsampler|]. split; [intros s Hs; injection Hs as <-; reflexivity|].
    exists [logged e]. split; [rewrite <- app_assoc; reflexivity|]. reflexivity. }
  destruct (js_call js f [] (w_vm w)) as [[e|r1] v1] eqn:Hcall; app_init_step Hrun.
  { injection Hrun as <- <-. cbn [w_statics w_trace set_w_trace set_w_statics].
    split; [apply Hsampler|]. split; [intros s Hs; injection Hs as <-; reflexivity|].
    exists [EvVM (CallFunction f []) (inl e); logged e].
    split; [rewrite <- !app_assoc; reflexivity|].
    cbv zeta. split; [eauto|]. split; [intros; discriminate|].
    split; [discriminate|].
    intros c e0 [Hin|[Hin|[]]]; [|discriminate]. injection Hin as _ <-.
    split; [reflexivity|]. split; [reflexivity|]. left. reflexivity. }
  destruct (js_drainMicrotasks js v1) as [[e|r2] v2] eqn:Hdrain; app_init_step Hrun.
  { injection Hrun as <- <-. cbn [w_statics w_trace set_w_trace set_w_statics].
    split; [apply Hsampler|]. split; [intros s Hs; injection Hs as <-; reflexivity|].
    exists [EvVM (CallFunction f []) (inr r1); EvVM DrainMicrotasks (inl e); logged e].
    split; [rewrite <- !app_assoc; reflexivity|].
    cbv zeta. split; [eauto|]. split.
    { intros r1' v1' r2' v2' Heq. injection Heq as <- <-. rewrite Hdrain. discriminate. }
    split; [discriminate|].
    intros c e0 [Hin|[Hin|[Hin|[]]]]; try discriminate. injection Hin as _ <-.
    split; [reflexivity|]. split; [reflexivity|]. right. exists r1. reflexivity. }
  injection Hrun as <- <-. cbn [w_statics w_trace set_w_trace set_w_statics w_vm set_w_vm].
  split; [apply Hsampler|]. split; [discriminate|].
  exists [EvVM (CallFunction f []) (inr r1); EvVM DrainMicrotasks (inr r2)].
  split; [rewrite <- !app_assoc; reflexivity|].
  cbv zeta. split; [eauto|]. split.
  { intros r1' v1' r2' v2' Heq. injection Heq as <- <-. rewrite Hdrain.
    intros Heq. injection Heq as <- <-. auto. }
  split; [intros _; exists r1, r2; reflexivity|].
  intros c e0 [Hin|[Hin|[]]]; discriminate.
Qed.

End Init.

Lemma app_init_outcome_witness :
  let w := Demo.running_world Demo.running_globals [] false statics_init 0 in
  let r := app_init DemoImages.failing_init_script Demo.the_sokol w in
  let thrown := JSError "on_init failed" "at on_init" in
  s_hermesApp (w_statics w) <> None /\
  fst r = Stop Abort /\
  last (w_trace (snd r)) = Some (EvSlog "ERROR" "on_init failed\n\nat on_init") /\
  w_trace (snd r) =
    [EvSokol sg_setup; EvSokol simgui_setup; EvSokol sg_make_sampler; EvSokol sdtx_setup;
     EvVM (CallFunction Demo.fn_on_init []) (inl thrown);
     EvSlog "ERROR" "on_init failed\n\nat on_init"] /\
  s_sampler (w_statics (snd r)) = 7 /\
  fst (app_init Demo.the_script Demo.the_sokol w) = Ret tt.
Proof.
  intros w r thrown.
  assert (Happ : s_hermesApp (w_statics w) <> None) by (vm_compute; discriminate).
  split; [exact Happ|].
  destruct (app_init_outcome DemoImages.failing_init_script Demo.the_sokol w Happ)
    as (Hsampler & _ & evs & Htr & Hcase).
  destruct (app_init_outcome Demo.the_script Demo.the_sokol w Happ)
    as (_ & _ & evs' & _ & Hcase').
  change (getPropertyAsFunction (vm_globals (w_vm w)) "on_init")
    with (@inr JSIException _ Demo.fn_on_init) in Hcase, Hcase'.
  cbv zeta in Hcase, Hcase'.
  destruct Hcase as (_ & _ & _ & Hthrows).
  destruct Hcase' as (_ & Hreturns & _).
  assert (Hin : In (EvVM (CallFunction Demo.fn_on_init []) (inl thrown)) evs).
  { assert (Hall : In (EvVM (CallFunction Demo.fn_on_init []) (inl thrown))
                      (w_trace (snd r))) by (vm_compute; auto 10).
    unfold r in Hall. rewrite Htr in Hall. cbn [w_trace Demo.running_world app] in Hall.
    destruct Hall as [Hx|[Hx|[Hx|[Hx|Hx]]]]; try discriminate. exact Hx. }
  destruct (Hthrows _ _ Hin) as (Hab & Hlast & _).
  split; [exact Hab|].
  split.
  { unfold r. rewrite Htr. cbn [w_trace Demo.running_world app].
    destruct evs as [|x evs0]; [destruct Hin|].
    change (last ([EvSokol sg_setup; EvSokol simgui_setup; EvSokol sg_make_sampler;
                   EvSokol sdtx_setup] ++ x :: evs0) = Some (EvSlog "ERROR" "on_init failed\n\nat on_init")).
    rewrite last_app_cons. exact Hlast. }
  split; [vm_compute; reflexivity|].
  split; [exact Hsampler|].
  apply (Hreturns JSUndefined (w_vm w) JSUndefined (w_vm w)); reflexivity.
Defined.
